(** * Streamlet core: routing, metric extraction, retries, template merge
      and leaf validators

    A shallow embedding of the core of the Streamlet metrics pipeline
    ([src/core/task.py], [src/core/abstract.py], [src/core/flow.py],
    [src/core/helpers.py], [src/core/validation/*.py]) together with the
    properties its specification states about it.

    Python values are embedded as follows: [str] is [string], [int] is [Z],
    [dict] is an association list with unique keys in insertion order,
    [list] is [list], [None] is a constructor of its own; an object that is
    mutated in place lives in a store ([gmap] from references to objects)
    and a call that may raise returns a sum of an exception and a value. *)

From Stdlib Require Import ZArith String Ascii List Bool Lia DecimalString DecimalPos DecimalZ
  SpecFloat.
From stdpp Require Import gmap strings.
From Equations Require Import Equations.
Import ListNotations.

Local Open Scope string_scope.
Local Open Scope Z_scope.
Local Open Scope list_scope.

#[local] Set Warnings "-register-all".

(** ** Python exceptions and results *)

Module Py.

Inductive exn : Type :=
| KeyError
| TypeError
| AttributeError
| ValueError
| IndexError
| ValueInvalid (msg : string)
| TaskPredicate                 (* celery.exceptions.TaskPredicate itself *)
| Ignore                        (* celery.exceptions.Ignore, a TaskPredicate *)
| Reject                        (* celery.exceptions.Reject, a TaskPredicate *)
| Raised (name : string)        (* any other subclass of Exception *)
| Unbound.                      (* a reference the store does not hold:
                                   no Python run reaches it *)

(** The outcome of a call: an exception or the returned value. *)
Definition result (A : Type) : Type := (exn + A)%type.

Definition ok {A} (a : A) : result A := inr a.
Definition raise {A} (e : exn) : result A := inl e.

Definition bind {A B} (m : result A) (k : A -> result B) : result B :=
  match m with
  | inl e => inl e
  | inr a => k a
  end.

Definition is_ok {A} (m : result A) : bool :=
  match m with inr _ => true | inl _ => false end.

(** [isinstance(e, TaskPredicate)].  The third subclass, [Retry], is what
    [Task.retry] makes; no module raises it by itself. *)
Definition is_task_predicate (e : exn) : bool :=
  match e with
  | TaskPredicate | Ignore | Reject => true
  | _ => false
  end.

End Py.

(** A value together with the equation that it is that value, for the
    definitions that need the equation to justify their recursion. *)
Definition inspect {A : Type} (a : A) : {b : A | a = b} := exist _ a eq_refl.

Declare Scope py_scope.
Delimit Scope py_scope with py.
Notation "'let!' x ':=' m 'in' k" := (Py.bind m (fun x => k))
  (at level 10, x pattern, m at level 100, k at level 200) : py_scope.

(** ** Strings *)

Module Str.

Fixpoint mem (c : ascii) (s : string) : bool :=
  match s with
  | EmptyString => false
  | String d s' => Ascii.eqb c d || mem c s'
  end.

Fixpoint take (n : nat) (s : string) : string :=
  match n, s with
  | S k, String c s' => String c (take k s')
  | _, _ => EmptyString
  end.

Fixpoint drop (n : nat) (s : string) : string :=
  match n, s with
  | S k, String _ s' => drop k s'
  | _, _ => s
  end.

Definition first (s : string) : option ascii :=
  match s with
  | EmptyString => None
  | String c _ => Some c
  end.

Fixpoint last (s : string) : option ascii :=
  match s with
  | EmptyString => None
  | String c EmptyString => Some c
  | String _ s' => last s'
  end.

Fixpoint init (s : string) : string :=
  match s with
  | EmptyString => EmptyString
  | String c EmptyString => EmptyString
  | String c s' => String c (init s')
  end.

Definition tail (s : string) : string := drop 1 s.

Definition snoc (s : string) (c : ascii) : string :=
  (s ++ String c EmptyString)%string.

(** [s.rstrip(c)] *)
Fixpoint rstrip (c : ascii) (s : string) : string :=
  match s with
  | EmptyString => EmptyString
  | String d s' =>
      match rstrip c s' with
      | EmptyString => if Ascii.eqb d c then EmptyString else String d EmptyString
      | t => String d t
      end
  end.

(** Offset of the first [c] in [s]: [s.find(c)]. *)
Fixpoint find (c : ascii) (s : string) : option nat :=
  match s with
  | EmptyString => None
  | String d s' => if Ascii.eqb d c then Some O else option_map S (find c s')
  end.

(** The longest prefix of [s] whose characters satisfy [p]. *)
Fixpoint take_while (p : ascii -> bool) (s : string) : string :=
  match s with
  | EmptyString => EmptyString
  | String c s' => if p c then String c (take_while p s') else EmptyString
  end.

(** Every character of [s] satisfies [p]. *)
Fixpoint all (p : ascii -> bool) (s : string) : bool :=
  match s with
  | EmptyString => true
  | String c s' => p c && all p s'
  end.

(** [str(z)] for an integer. *)
Definition of_Z (z : Z) : string :=
  DecimalString.NilZero.string_of_int (Z.to_int z).

(** A [string] holds the bytes of the UTF-8 encoding of a text.  A
    character of the text is a byte that is no continuation byte (one of
    the form [10xxxxxx]) together with the continuation bytes behind it. *)
Definition continuation (c : ascii) : bool :=
  (128 <=? nat_of_ascii c)%nat && (nat_of_ascii c <? 192)%nat.

Definition continues (p : string) : bool :=
  match p with
  | String c _ => continuation c
  | EmptyString => false
  end.

(** [list(s)]: the characters of a text, each as its bytes. *)
Fixpoint chars (s : string) : list string :=
  match s with
  | EmptyString => []
  | String c s' =>
      match chars s' with
      | p :: rest =>
          if continues p then String c p :: rest
          else String c EmptyString :: p :: rest
      | [] => [String c EmptyString]
      end
  end.

End Str.

(** ** [fnmatch]: shell-style pattern matching

    [core/abstract.py], [core/flow.py] and [core/task.py] match names with
    the standard library's [fnmatch.fnmatch] and [fnmatch.filter].  On POSIX
    [os.path.normcase] is the identity, so both are [fnmatchcase]: [*]
    matches any run of characters, [?] one character, [[seq]] one character
    of [seq] and [[!seq]] one character outside it; every other character
    matches itself.

    Python matches characters, and a [string] holds the bytes of the UTF-8
    encoding of a text: the matcher works on the characters of its
    arguments ([Str.chars]), each held as its bytes, and compares two
    characters by their bytes, which is the order of their code points. *)

Module Fnmatch.

(** One character, as the bytes of its encoding. *)
Definition char : Type := string.

Inductive token : Type :=
| TStar
| TAny
| TLit (c : char)
| TClass (chunks : list (list char)).

(** [a < b] and [a <= b] on characters. *)
Definition char_ltb (a b : char) : bool :=
  match String.compare a b with
  | Lt => true
  | _ => false
  end.

Definition char_leb (a b : char) : bool := negb (char_ltb b a).

(** [c in s], [s[0]], [s[-1]], [s[:-1]], [s[1:]], [s[:n]] and [s[n:]] on
    the characters of a text. *)
Definition mem (c : char) (s : list char) : bool := existsb (String.eqb c) s.

Definition first (s : list char) : option char :=
  match s with
  | [] => None
  | c :: _ => Some c
  end.

Fixpoint last (s : list char) : option char :=
  match s with
  | [] => None
  | [c] => Some c
  | _ :: s' => last s'
  end.

Definition init (s : list char) : list char := removelast s.

Definition tail (s : list char) : list char := skipn 1 s.

Definition take (n : nat) (s : list char) : list char := firstn n s.

Definition drop (n : nat) (s : list char) : list char := skipn n s.

Definition snoc (s : list char) (c : char) : list char := s ++ [c].

(** Offset of the first ["]"] of [s] at or after offset [j]. *)
Fixpoint close_from (j : nat) (s : list char) : option nat :=
  match s with
  | [] => None
  | c :: s' =>
      match j with
      | S k => option_map S (close_from k s')
      | O => if String.eqb c "]" then Some O else option_map S (close_from O s')
      end
  end.

(** The text between ["["] and its closing ["]"], and the number of
    characters it takes with the closing bracket; a leading ["!"] and a
    ["]"] right after the opening belong to the text. *)
Definition bracket (rest : list char) : option (list char * nat) :=
  let j := match first rest with
           | Some c => if String.eqb c "!" then 1%nat else 0%nat
           | None => 0%nat
           end in
  let j := match first (drop j rest) with
           | Some c => if String.eqb c "]" then S j else j
           | None => j
           end in
  match close_from j rest with
  | Some k => Some (take k rest, S k)
  | None => None
  end.

(** Cuts the text at the hyphens that stand between two characters;
    [guard] counts the characters that cannot be such a hyphen. *)
Fixpoint cut (stuff cur : list char) (guard : nat) : list (list char) :=
  match stuff with
  | [] => [cur]
  | c :: s =>
      match guard with
      | O => if String.eqb c "-" then cur :: cut s [] 2
             else cut s (snoc cur c) O
      | S g => cut s (snoc cur c) g
      end
  end.

(** A hyphen just before the closing bracket is a literal. *)
Fixpoint fix_last (chunks : list (list char)) : list (list char) :=
  match chunks with
  | [c; []] => [snoc c "-"]
  | c :: rest => c :: fix_last rest
  | [] => []
  end.

(** Removes the empty ranges, from the last one to the first. *)
Fixpoint merge (chunks : list (list char)) : list (list char) :=
  match chunks with
  | [] => []
  | c :: rest =>
      match merge rest with
      | [] => [c]
      | d :: ds =>
          match last c, first d with
          | Some lo, Some hi =>
              if char_ltb hi lo then (init c ++ tail d) :: ds
              else c :: d :: ds
          | _, _ => c :: d :: ds
          end
      end
  end.

Definition chunks_of (stuff : list char) : list (list char) :=
  if mem "-" stuff then
    merge (fix_last (cut stuff []
                       (match first stuff with
                        | Some c => if String.eqb c "!" then 2 else 1
                        | None => 1
                        end)))
  else [stuff].

(** [translate]: the pattern as a list of tokens; [skip] characters of a
    bracket expression are still to be passed over. *)
Fixpoint translate (skip : nat) (pat : list char) : list token :=
  match pat with
  | [] => []
  | c :: rest =>
      match skip with
      | S k => translate k rest
      | O =>
          if String.eqb c "*" then TStar :: translate O rest
          else if String.eqb c "?" then TAny :: translate O rest
          else if String.eqb c "[" then
            match bracket rest with
            | Some (stuff, n) => TClass (chunks_of stuff) :: translate n rest
            | None => TLit "[" :: translate O rest
            end
          else TLit c :: translate O rest
      end
  end.

Fixpoint in_ranges (c : char) (chunks : list (list char)) : bool :=
  match chunks with
  | a :: (b :: _) as rest =>
      match last a, first b with
      | Some lo, Some hi => (char_leb lo c && char_leb c hi) || in_ranges c rest
      | _, _ => in_ranges c rest
      end
  | _ => false
  end.

Definition negated (chunks : list (list char)) : bool :=
  match chunks with
  | (c :: _) :: _ => String.eqb c "!"
  | _ => false
  end.

Definition members (chunks : list (list char)) : list char :=
  if negated chunks then tail (concat chunks) else concat chunks.

Definition in_class (chunks : list (list char)) (c : char) : bool :=
  xorb (mem c (members chunks) || in_ranges c chunks) (negated chunks).

Fixpoint match_tokens (toks : list token) (s : list char) {struct toks} : bool :=
  match toks with
  | [] => match s with [] => true | _ => false end
  | TStar :: toks' =>
      (fix star (s : list char) : bool :=
         match_tokens toks' s
         || match s with
            | [] => false
            | _ :: s' => star s'
            end) s
  | TAny :: toks' =>
      match s with
      | [] => false
      | _ :: s' => match_tokens toks' s'
      end
  | TLit c :: toks' =>
      match s with
      | [] => false
      | d :: s' => String.eqb c d && match_tokens toks' s'
      end
  | TClass chunks :: toks' =>
      match s with
      | [] => false
      | d :: s' => in_class chunks d && match_tokens toks' s'
      end
  end.

(** [fnmatch(name, pat)] *)
Definition fnmatch (name pat : string) : bool :=
  match_tokens (translate O (Str.chars pat)) (Str.chars name).

(** [fnmatch.filter(names, pat)] *)
Definition filter (names : list string) (pat : string) : list string :=
  List.filter (fun name => fnmatch name pat) names.

End Fnmatch.

(** ** Routing filters ([core/abstract.py], [AbstractProcessor])

    A processor is a Transform or an Output.  Its four filters are the
    validated configuration entries [include_inputs], [exclude_inputs],
    [include_tasks] and [exclude_tasks]: [None] when unset, a list of
    patterns otherwise. *)

Module Routing.

Inductive category : Type := Transform | Output.

Record processor : Type := {
  kind : category;
  config_enabled : bool;        (* _full_config["enabled"] *)
  include_inputs : option (list string);
  exclude_inputs : option (list string);
  include_tasks : option (list string);
  exclude_tasks : option (list string)
}.

(** [AbstractModule.enabled], overridden by [AbstractOutput.enabled];
    [disable_outputs] is [Settings.disable_outputs]. *)
Definition enabled (disable_outputs : bool) (m : processor) : bool :=
  match kind m with
  | Transform => config_enabled m
  | Output => config_enabled m && negb disable_outputs
  end.

(** [any(fnmatch(name, p) for p in fi)] *)
Definition any_match (name : string) (fi : list string) : bool :=
  existsb (fun p => Fnmatch.fnmatch name p) fi.

(** [AbstractProcessor.accepts_from] *)
Definition accepts_from (disable_outputs : bool) (m : processor)
    (input_name task_name : string) (ignore_enabled : bool) : bool :=
  if negb (enabled disable_outputs m) && negb ignore_enabled then false
  else
    if match include_inputs m with
       | Some fi => negb (any_match input_name fi)
       | None => false
       end then false
    else
      if match exclude_inputs m with
         | Some fi => any_match input_name fi
         | None => false
         end then false
      else
        if match include_tasks m with
           | Some fi => negb (any_match task_name fi)
           | None => false
           end then false
        else
          if match exclude_tasks m with
             | Some fi => any_match task_name fi
             | None => false
             end then false
          else true.

(** The routing rule in the words of the specification: the numbered
    steps, each of which may reject, tried in order. *)
Inductive verdict : Type :=
| Rejected (step : nat)
| Accepted.

Definition include_rejects (name : string) (f : option (list string)) : bool :=
  match f with
  | Some pats => negb (existsb (fun p => Fnmatch.fnmatch name p) pats)
  | None => false
  end.

Definition exclude_rejects (name : string) (f : option (list string)) : bool :=
  match f with
  | Some pats => existsb (fun p => Fnmatch.fnmatch name p) pats
  | None => false
  end.

Definition steps (disable_outputs : bool) (m : processor)
    (source task : string) (ignore_enabled : bool) : list bool :=
  [ negb (enabled disable_outputs m) && negb ignore_enabled;
    include_rejects source (include_inputs m);
    exclude_rejects source (exclude_inputs m);
    include_rejects task (include_tasks m);
    exclude_rejects task (exclude_tasks m) ].

Fixpoint first_rejection (n : nat) (rejects : list bool) : verdict :=
  match rejects with
  | [] => Accepted
  | true :: _ => Rejected n
  | false :: rest => first_rejection (S n) rest
  end.

Definition route (disable_outputs : bool) (m : processor)
    (source task : string) (ignore_enabled : bool) : verdict :=
  first_rejection 1 (steps disable_outputs m source task ignore_enabled).

End Routing.

(** ** Records: JSON-like values ([core/helpers.py])

    A raw record, a configuration document and a Metric's attributes are
    trees of mappings, sequences and scalars.  A mapping keeps its keys in
    insertion order. *)

Module Data.

Inductive json : Type :=
| JNull
| JBool (b : bool)
| JInt (z : Z)
| JStr (s : string)
| JList (items : list json)
| JDict (entries : list (string * json)).

Definition dict : Type := list (string * json).

(** [d.get(k)] *)
Fixpoint dict_get (k : string) (d : dict) : option json :=
  match d with
  | [] => None
  | (k', v) :: d' => if String.eqb k k' then Some v else dict_get k d'
  end.

(** [k in d] *)
Definition dict_has (k : string) (d : dict) : bool :=
  match dict_get k d with Some _ => true | None => false end.

(** [d[k] = v]: the entry keeps its place, a new key goes last. *)
Fixpoint dict_set (k : string) (v : json) (d : dict) : dict :=
  match d with
  | [] => [(k, v)]
  | (k', v') :: d' =>
      if String.eqb k k' then (k', v) :: d' else (k', v') :: dict_set k v d'
  end.

(** [del d[k]] *)
Definition dict_del (k : string) (d : dict) : dict :=
  List.filter (fun kv => negb (String.eqb k (fst kv))) d.

(** [d.pop(k)]: [None] stands for the [KeyError]. *)
Definition dict_pop (k : string) (d : dict) : option (json * dict) :=
  match dict_get k d with
  | Some v => Some (v, dict_del k d)
  | None => None
  end.

(** [d | e] *)
Definition dict_union (d e : dict) : dict :=
  fold_left (fun acc kv => dict_set (fst kv) (snd kv) acc) e d.

(** [dict(pairs)] *)
Definition dict_of_pairs (pairs : list (string * json)) : dict :=
  dict_union [] pairs.

(** A step of a key chain: a mapping key or a sequence index. *)
Inductive pkey : Type :=
| KStr (s : string)
| KIdx (n : nat).

(** [str(k)] for a step of a chain *)
Definition pkey_str (k : pkey) : string :=
  match k with
  | KStr s => s
  | KIdx n => DecimalString.NilZero.string_of_uint (Nat.to_uint n)
  end.

(** [flatten(mapping, None, chain)]: one loop iteration handles the entry
    [(k, v)] with [k_chain = chain + [k]]; the result lists the chains in
    the order the flattened dictionary receives them. *)
Fixpoint flatten_item (k_chain : list pkey) (v : json) : list (list pkey * json) :=
  match v with
  | JDict d =>
      (fix items (d : dict) : list (list pkey * json) :=
         match d with
         | [] => []
         | (k, x) :: d' => flatten_item (k_chain ++ [KStr k]) x ++ items d'
         end) d
  | JList l =>
      (fix items (i : nat) (l : list json) : list (list pkey * json) :=
         match l with
         | [] => []
         | x :: l' => flatten_item (k_chain ++ [KIdx i]) x ++ items (S i) l'
         end) O l
  | _ => [(k_chain, v)]
  end.

Definition flatten (mapping : dict) : list (list pkey * json) :=
  flatten_item [] (JDict mapping).

(** [sep.join(parts)] *)
Definition join (sep : string) (parts : list string) : string :=
  String.concat sep parts.

(** [s.split(sep)] for a non-empty [sep]; after a separator is found its
    remaining [skip] characters are passed over. *)
Fixpoint split_go (sep : string) (skip : nat) (cur s : string) : list string :=
  match s with
  | EmptyString => [cur]
  | String c s' =>
      match skip with
      | S k => split_go sep k cur s'
      | O =>
          if String.prefix sep s
          then cur :: split_go sep (String.length sep - 1) EmptyString s'
          else split_go sep O (cur ++ String c EmptyString)%string s'
      end
  end.

Definition split (sep s : string) : Py.result (list string) :=
  match sep with
  | EmptyString => Py.raise Py.ValueError
  | _ => Py.ok (split_go sep O EmptyString s)
  end.

(** The keys of a dictionary built by a comprehension: first occurrences,
    in order. *)
Fixpoint uniq (l : list string) : list string :=
  match l with
  | [] => []
  | x :: l' => x :: List.filter (fun y => negb (String.eqb x y)) (uniq l')
  end.

(** [nested = reduce(operator.getitem, chain, v); nested.pop(top)]: the
    popped value and [v] after the removal.  Only a mapping can be
    indexed by a string, and only a mapping pops a string key. *)
Fixpoint pop_path (chain : list string) (top : string) (v : json)
  : Py.result (json * json) :=
  match chain with
  | [] =>
      match v with
      | JDict d =>
          match dict_pop top d with
          | Some (x, d') => Py.ok (x, JDict d')
          | None => Py.raise Py.KeyError
          end
      | JList _ => Py.raise Py.TypeError
      | _ => Py.raise Py.AttributeError
      end
  | k :: chain' =>
      match v with
      | JDict d =>
          match dict_get k d with
          | Some child =>
              match pop_path chain' top child with
              | inr (x, child') => Py.ok (x, JDict (dict_set k child' d))
              | inl e => Py.raise e
              end
          | None => Py.raise Py.KeyError
          end
      | _ => Py.raise Py.TypeError
      end
  end.

(** The same on a record, which is a mapping. *)
Definition pop_record (chain : list string) (top : string) (obj : dict)
  : Py.result (json * dict) :=
  match chain with
  | [] =>
      match dict_pop top obj with
      | Some (x, d') => Py.ok (x, d')
      | None => Py.raise Py.KeyError
      end
  | k :: chain' =>
      match dict_get k obj with
      | Some child =>
          match pop_path chain' top child with
          | inr (x, child') => Py.ok (x, dict_set k child' obj)
          | inl e => Py.raise e
          end
      | None => Py.raise Py.KeyError
      end
  end.

(** Whether the value reached by [path] exists. *)
Fixpoint has_path (path : list string) (v : json) : bool :=
  match path with
  | [] => true
  | k :: path' =>
      match v with
      | JDict d =>
          match dict_get k d with
          | Some child => has_path path' child
          | None => false
          end
      | _ => false
      end
  end.

End Data.

(** ** Metric and MetricFrame ([core/metric.py])

    The module [core/metric.py] is not among the sources: its classes are
    known through their callers ([core/task.py]), their tests
    ([tests/test_core/test_metric.py]) and the specification.  Frames are
    objects: they live in a store and are named by references. *)

Module Frame.

Record Metric : Type := {
  attributes : Data.dict;
  metric : Data.json;                    (* [JNull] is [None] *)
  metric_field_name : option string
}.

(** Modelled from the spec: the constructor [Metric(frame, attributes,
    metric, metric_field_name)] of the absent [core/metric.py].  The
    metric value is "numeric or absent, gated by a global allow absent
    metric setting"; [test_create_no_metric_forbidden] expects a
    [ValueError] for an absent value when the setting is off. *)
Definition new_metric (allow_none_metric : bool) (attrs : Data.dict)
    (value : Data.json) (field : option string) : Py.result Metric :=
  match value with
  | Data.JNull =>
      if allow_none_metric
      then Py.ok {| attributes := attrs; metric := value; metric_field_name := field |}
      else Py.raise Py.ValueError
  | _ => Py.ok {| attributes := attrs; metric := value; metric_field_name := field |}
  end.

Record MetricFrame : Type := {
  name : string;
  creation_timestamp : Z;                (* whole seconds *)
  metrics : list Metric;
  frozen : bool
}.

Definition ref : Type := nat.
Abbreviation store := (gmap nat MetricFrame).

(** Modelled from the spec: [MetricFrame(name)] of the absent
    [core/metric.py], "created empty at task-run start", tagged with the
    task's name and the current time. *)
Definition new_frame (st : store) (nm : string) (now : Z) : ref * store :=
  let r := fresh (dom st) in
  (r, <[r := {| name := nm; creation_timestamp := now; metrics := []; frozen := false |}]> st).

(** The ways a frame is changed. *)
Inductive mutation : Type :=
| Append (m : Metric)                    (* frame.append(m) *)
| ReplaceAll (ms : list Metric)          (* frame[:] = ms *)
| SetItem (i : nat) (m : Metric)         (* frame[i] = m, frame[i][k] = v *)
| SetTimestamp (t : Z).                  (* frame.creation_timestamp = t *)

Definition apply_mutation (mu : mutation) (f : MetricFrame) : Py.result MetricFrame :=
  match mu with
  | Append m =>
      Py.ok {| name := name f; creation_timestamp := creation_timestamp f;
               metrics := metrics f ++ [m]; frozen := frozen f |}
  | ReplaceAll ms =>
      Py.ok {| name := name f; creation_timestamp := creation_timestamp f;
               metrics := ms; frozen := frozen f |}
  | SetItem i m =>
      if (i <? length (metrics f))%nat
      then Py.ok {| name := name f; creation_timestamp := creation_timestamp f;
                    metrics := <[i := m]> (metrics f); frozen := frozen f |}
      else Py.raise Py.IndexError
  | SetTimestamp t =>
      Py.ok {| name := name f; creation_timestamp := t;
               metrics := metrics f; frozen := frozen f |}
  end.

(** Modelled from the spec: mutation of a frame of the absent
    [core/metric.py]; "freezing is one-way and makes further mutation
    fail", with the [TypeError] that [test_dataframe_freeze] expects. *)
Definition mutate (st : store) (r : ref) (mu : mutation) : Py.result store :=
  match st !! r with
  | None => Py.raise Py.Unbound
  | Some f =>
      if frozen f then Py.raise Py.TypeError
      else
        match apply_mutation mu f with
        | inr f' => Py.ok (<[r := f']> st)
        | inl e => Py.raise e
        end
  end.

(** Modelled from the spec: [MetricFrame.freeze] of the absent
    [core/metric.py]. *)
Definition freeze (st : store) (r : ref) : Py.result store :=
  match st !! r with
  | None => Py.raise Py.Unbound
  | Some f =>
      Py.ok (<[r := {| name := name f; creation_timestamp := creation_timestamp f;
                       metrics := metrics f; frozen := true |}]> st)
  end.

(** Modelled from the spec: [MetricFrame.copy] of the absent
    [core/metric.py]: "copying after freezing yields an independent
    mutable clone". *)
Definition copy (st : store) (r : ref) : Py.result (ref * store) :=
  match st !! r with
  | None => Py.raise Py.Unbound
  | Some f =>
      let r' := fresh (dom st) in
      Py.ok (r', <[r' := {| name := name f; creation_timestamp := creation_timestamp f;
                            metrics := metrics f; frozen := false |}]> st)
  end.

(** The frame with its flag cleared, and the frame with its flag set. *)
Definition thawed (f : MetricFrame) : MetricFrame :=
  {| name := name f; creation_timestamp := creation_timestamp f;
     metrics := metrics f; frozen := false |}.

Definition iced (f : MetricFrame) : MetricFrame :=
  {| name := name f; creation_timestamp := creation_timestamp f;
     metrics := metrics f; frozen := true |}.

(** [len(frame)] *)
Definition len (st : store) (r : ref) : Py.result nat :=
  match st !! r with
  | None => Py.raise Py.Unbound
  | Some f => Py.ok (length (metrics f))
  end.

End Frame.

(** ** Metric extraction ([core/task.py], [StreamletTaskBlueprint]) *)

Module Task.

(** Task finishing states. *)
Inductive States : Type := FINISHED | SKIPPED.

(** The fields of [core.settings.Settings] the task reads. *)
Record Settings : Type := {
  nested_attr_seperator : string;
  allow_none_metric : bool;
  disable_outputs : bool
}.

(** The validated task configuration ([TaskSchema]). *)
Record config : Type := {
  name : string;
  result_metrics : option (list string);      (* config["result"]["metrics"] *)
  result_attributes : option (list string);   (* config["result"]["attributes"] *)
  static_attributes : option Data.dict;       (* Maybe({str: object}) *)
  max_retries : Z
}.

(** The raw records are dictionaries the Source hands over: objects in a
    store, named by references, and changed in place. *)
Abbreviation records := (gmap nat Data.dict).

(** The key set of [extract_metrics]: the chains of [flatten(obj)] joined
    with the separator. *)
Definition flat_keys (sep : string) (obj : Data.dict) : list string :=
  Data.uniq (map (fun f => Data.join sep (map Data.pkey_str (fst f)))
                 (Data.flatten obj)).

(** The inner loop of [extract_metrics] over the keys one pattern
    matched: pop the value out of [obj], yield it, delete the key from
    [keys].  An exception leaves the record as it is at that point. *)
Fixpoint claim (sep : string) (matched : list string) (obj : Data.dict)
    (keys : list string)
  : Data.dict * list string * Py.result (list (string * Data.json)) :=
  match matched with
  | [] => (obj, keys, Py.ok [])
  | key :: rest =>
      match (let! parts := Data.split sep key in
             Data.pop_record (removelast parts) (List.last parts EmptyString) obj)%py with
      | inl e => (obj, keys, Py.raise e)
      | inr (value, obj') =>
          let '(obj'', keys', r) :=
            claim sep rest obj'
              (List.filter (fun k => negb (String.eqb key k)) keys) in
          (obj'', keys',
           match r with
           | inr ys => Py.ok ((key, value) :: ys)
           | inl e => Py.raise e
           end)
      end
  end.

(** The outer loop of [extract_metrics] over the patterns. *)
Fixpoint extract_loop (sep : string) (patterns : list string)
    (obj : Data.dict) (keys : list string)
  : Data.dict * Py.result (list (string * Data.json)) :=
  match patterns with
  | [] => (obj, Py.ok [])
  | pattern :: rest =>
      let '(obj', keys', r) := claim sep (Fnmatch.filter keys pattern) obj keys in
      match r with
      | inl e => (obj', Py.raise e)
      | inr ys =>
          let '(obj'', r') := extract_loop sep rest obj' keys' in
          (obj'',
           match r' with
           | inr zs => Py.ok (ys ++ zs)
           | inl e => Py.raise e
           end)
      end
  end.

(** [extract_metrics(obj, sep, fields)], consumed to its end: the record
    after the call and the pairs it yielded. *)
Definition extract_metrics (obj : Data.dict) (sep : string)
    (fields : option (list string))
  : Data.dict * Py.result (list (string * Data.json)) :=
  extract_loop sep (match fields with Some l => l | None => [] end)
    obj (flat_keys sep obj).

(** [metrics or {None: None}] *)
Definition metric_entries (metrics : Data.dict) : list (option string * Data.json) :=
  match metrics with
  | [] => [(None, Data.JNull)]
  | _ => map (fun kv => (Some (fst kv), snd kv)) metrics
  end.

(** [frame.copy() | self.config["static_attributes"]] *)
Definition attributes_of (cfg : config) (frame : Data.dict) : Py.result Data.dict :=
  match static_attributes cfg with
  | Some static => Py.ok (Data.dict_union frame static)
  | None => Py.raise Py.TypeError
  end.

(** The loop that appends one Metric per entry of [metrics]. *)
Fixpoint append_metrics (st : Settings) (cfg : config) (frame : Data.dict)
    (entries : list (option string * Data.json)) : Py.result (list Frame.Metric) :=
  match entries with
  | [] => Py.ok []
  | (metric_name, metric) :: rest =>
      (let! attributes := attributes_of cfg frame in
       let! m := Frame.new_metric (allow_none_metric st) attributes metric metric_name in
       let! ms := append_metrics st cfg frame rest in
       Py.ok (m :: ms))%py
  end.

(** [{k: v for k, v in frame.items() if k in attr}] *)
Definition keep_attributes (cfg : config) (frame : Data.dict) : Data.dict :=
  match result_attributes cfg with
  | Some attr =>
      List.filter (fun kv => existsb (String.eqb (fst kv)) attr) frame
  | None => frame
  end.

(** The body of the loop of [process_result] for one record: the record
    after the extraction and the Metrics queued for it. *)
Definition process_frame (st : Settings) (cfg : config) (obj : Data.dict)
  : Data.dict * Py.result (list Frame.Metric) :=
  let '(obj', r) := extract_metrics obj (nested_attr_seperator st) (result_metrics cfg) in
  match r with
  | inl e => (obj', Py.raise e)
  | inr pairs =>
      (obj', append_metrics st cfg (keep_attributes cfg obj')
               (metric_entries (Data.dict_of_pairs pairs)))
  end.

(** The loop of [process_result] over the records. *)
Fixpoint process_frames (st : Settings) (cfg : config) (heap : records)
    (result : list nat) : records * Py.result (list Frame.Metric) :=
  match result with
  | [] => (heap, Py.ok [])
  | r :: rest =>
      match heap !! r with
      | None => (heap, Py.raise Py.Unbound)
      | Some obj =>
          let '(obj', res) := process_frame st cfg obj in
          let heap' := <[r := obj']> heap in
          match res with
          | inl e => (heap', Py.raise e)
          | inr ms =>
              let '(heap'', res') := process_frames st cfg heap' rest in
              (heap'',
               match res' with
               | inr ms' => Py.ok (ms ++ ms')
               | inl e => Py.raise e
               end)
          end
      end
  end.

(** What a Source returns: one record or a list of records. *)
Inductive source_result : Type :=
| One (r : nat)
| Many (rs : list nat).

Definition as_list (result : source_result) : list nat :=
  match result with
  | One r => [r]
  | Many rs => rs
  end.

(** [process_result(data, result)] *)
Definition process_result (st : Settings) (cfg : config)
    (frames : Frame.store) (data : Frame.ref)
    (heap : records) (result : source_result)
  : records * Py.result Frame.store :=
  let '(heap', res) := process_frames st cfg heap (as_list result) in
  (heap',
   match res with
   | inr queue => Frame.mutate frames data (Frame.ReplaceAll queue)
   | inl e => Py.raise e
   end).

(** The keys the patterns claim, in the words of the specification:
    the patterns are tried in list order against the pool, and a key a
    pattern matched leaves the pool. *)
Fixpoint claimed (patterns : list string) (pool : list string) : list string :=
  match patterns with
  | [] => []
  | p :: rest =>
      Fnmatch.filter pool p
      ++ claimed rest (List.filter (fun k => negb (Fnmatch.fnmatch k p)) pool)
  end.

(** The attributes hold nothing at the place the flattened key [k] names. *)
Definition lacks_key (sep k : string) (attrs : Data.dict) : bool :=
  match Data.split sep k with
  | inr parts => negb (Data.has_path parts (Data.JDict attrs))
  | inl _ => true
  end.

(** [b] is [a] with entries removed: what [a] lacks, [b] lacks. *)
Definition shrinks (a b : Data.dict) : Prop :=
  forall path, Data.has_path path (Data.JDict a) = false ->
               Data.has_path path (Data.JDict b) = false.

(** One visit of the loop of [process_result]: the record's reference,
    the record as its extraction leaves it, and the Metrics queued.  The
    visit finds the record as the Source made it or as an earlier visit
    of the same record left it; its Metrics are those of the keys the
    patterns claim in what it finds, and their attributes are made of what
    it leaves. *)
Definition visit_ok (st : Settings) (cfg : config) (refs : list nat) (heap heap' : records)
    (v : nat * Data.dict * list Frame.Metric) : Prop :=
  let '(r, leftover, ms) := v in
  In r refs /\
  exists original before pairs static final,
    heap !! r = Some original /\ shrinks original before /\
    extract_metrics before (nested_attr_seperator st) (result_metrics cfg)
      = (leftover, inr pairs) /\
    map fst pairs =
      claimed (match result_metrics cfg with Some l => l | None => [] end)
        (flat_keys (nested_attr_seperator st) before) /\
    map (fun m => (Frame.metric_field_name m, Frame.metric m)) ms = metric_entries pairs /\
    static_attributes cfg = Some static /\
    (forall m, In m ms ->
               Frame.attributes m = Data.dict_union (keep_attributes cfg leftover) static) /\
    heap' !! r = Some final /\ shrinks leftover final /\
    (count_occ Nat.eq_dec refs r = 1%nat -> final = leftover) /\
    (forall k, In k (map fst pairs) -> lacks_key (nested_attr_seperator st) k final = true).

(** The top-level attribute the flattened key [k] lies under. *)
Definition top_key (sep k : string) : string :=
  match Data.split sep k with
  | inr (top :: _) => top
  | _ => k
  end.

(** The key of [extract_metrics] for a chain of [flatten]. *)
Definition flat_key (sep : string) (chain : list Data.pkey) : string :=
  Data.join sep (map Data.pkey_str chain).

(** A record of nested mappings: no sequence in it holds a value, and no
    key of its mappings contains the character [c]. *)
Fixpoint nested_mappings (c : ascii) (v : Data.json) : bool :=
  match v with
  | Data.JDict d =>
      (fix all (d : Data.dict) : bool :=
         match d with
         | [] => true
         | (k, x) :: d' =>
             Str.all (fun a => negb (Ascii.eqb a c)) k && nested_mappings c x && all d'
         end) d
  | Data.JList l => match l with [] => true | _ => false end
  | _ => true
  end.

(** [obj'] holds the scalars of [obj], each where it was, but for those
    under the keys [removed]. *)
Definition without (sep : string) (removed : list string) (obj obj' : Data.dict) : Prop :=
  forall chain v,
    In (chain, v) (Data.flatten obj') <->
    In (chain, v) (Data.flatten obj) /\ ~ In (flat_key sep chain) removed.

(** The Metrics of a record in the words of the specification: one for
    each extracted pair, or one without a metric when there is none, all
    with the entries left in the record, overlaid with the static
    attributes, as their attributes. *)
Definition metrics_of (cfg : config) (static leftover : Data.dict)
    (pairs : list (string * Data.json)) : list Frame.Metric :=
  map (fun e => {| Frame.attributes := Data.dict_union (keep_attributes cfg leftover) static;
                   Frame.metric := snd e;
                   Frame.metric_field_name := fst e |})
      (metric_entries pairs).

End Task.

(** ** The task run ([core/task.py], [streamlet_exec] and [run])

    A run works on a world: the state of everything outside the process
    (of a type [E] that the connectors read and change), the store of
    frames, the store of records and the [last_module] entry of the
    request's metadata. *)

Module Pipeline.

Section World.

Variable E : Type.

Record world : Type := {
  ext : E;
  frames : Frame.store;
  heap : Task.records;
  last_module : string            (* request.metadata["last_module"] *)
}.

(** A step of the run: it changes the world and returns or raises. *)
Definition M (A : Type) : Type := world -> world * Py.result A.

Definition ret {A} (a : A) : M A := fun w => (w, Py.ok a).

Definition bind {A B} (m : M A) (k : A -> M B) : M B :=
  fun w =>
    match m w with
    | (w', inr a) => k a w'
    | (w', inl e) => (w', Py.raise e)
    end.

(** [task_data["last_module"] = name] *)
Definition set_last_module (name : string) : M unit :=
  fun w => ({| ext := ext w; frames := frames w; heap := heap w;
               last_module := name |}, Py.ok tt).

(** An operation of the frame store. *)
Definition on_frames {A} (op : Frame.store -> Py.result (A * Frame.store)) : M A :=
  fun w =>
    match op (frames w) with
    | inr (a, fs) => ({| ext := ext w; frames := fs; heap := heap w;
                         last_module := last_module w |}, Py.ok a)
    | inl e => (w, Py.raise e)
    end.

(** The IO modifiers of an Input or an Output ([AbstractIO.modifiers]). *)
Record modifiers : Type := {
  time_modulus : Z;
  time_offset : Z
}.

(** An Input: its name, its modifiers and what a call does to the outside
    and to the store of records before it returns its result or raises. *)
Record input_module : Type := {
  in_name : string;
  in_modifiers : modifiers;
  in_call : E -> Task.records -> E * Task.records * Py.result Task.source_result
}.

(** A Transform or an Output: its name, its routing filters, its modifiers
    (used for an Output only) and what a call on a frame does. *)
Record processor_module : Type := {
  pm_name : string;
  pm_routing : Routing.processor;
  pm_modifiers : modifiers;
  pm_call : E -> Frame.store -> Frame.ref -> E * Py.result Frame.store
}.

(** The flow as a task sees it: [flow.transforms], sorted by priority when
    the flow was built, and [flow.outputs]. *)
Record flow : Type := {
  transforms : list processor_module;
  outputs : list processor_module
}.

(** [datetime.now()] at the creation of a frame, read from the outside. *)
Variable wall_clock : E -> Z.

(** [AbstractIO.modify] *)
Definition modify (mods : modifiers) (data : Frame.ref) : M unit :=
  on_frames (fun fs =>
    match fs !! data with
    | None => Py.raise Py.Unbound
    | Some f =>
        let timestamp := Frame.creation_timestamp f in
        let timestamp :=
          if Z.eqb (time_modulus mods) 0 then timestamp
          else timestamp - timestamp mod time_modulus mods in
        let timestamp :=
          if Z.eqb (time_offset mods) 0 then timestamp
          else timestamp - time_offset mods in
        match Frame.mutate fs data (Frame.SetTimestamp timestamp) with
        | inr fs' => Py.ok (tt, fs')
        | inl e => Py.raise e
        end
    end).

(** [self.input(self.config["params"].copy())] *)
Definition call_input (inp : input_module) : M Task.source_result :=
  fun w =>
    let '(x, h, r) := in_call inp (ext w) (heap w) in
    ({| ext := x; frames := frames w; heap := h; last_module := last_module w |}, r).

(** [mod(data)] *)
Definition call_processor (m : processor_module) (data : Frame.ref) : M unit :=
  fun w =>
    match pm_call m (ext w) (frames w) data with
    | (x, inr fs) => ({| ext := x; frames := fs; heap := heap w;
                         last_module := last_module w |}, Py.ok tt)
    | (x, inl e) => ({| ext := x; frames := frames w; heap := heap w;
                        last_module := last_module w |}, Py.raise e)
    end.

(** [self.process_result(static_data, result)] *)
Definition process_result (st : Task.Settings) (cfg : Task.config)
    (data : Frame.ref) (result : Task.source_result) : M unit :=
  fun w =>
    match Task.process_result st cfg (frames w) data (heap w) result with
    | (h, inr fs) => ({| ext := ext w; frames := fs; heap := h;
                         last_module := last_module w |}, Py.ok tt)
    | (h, inl e) => ({| ext := ext w; frames := frames w; heap := h;
                        last_module := last_module w |}, Py.raise e)
    end.

(** A [for] loop whose body may raise. *)
Fixpoint for_each {A} (l : list A) (body : A -> M unit) : M unit :=
  match l with
  | [] => ret tt
  | a :: rest => bind (body a) (fun _ => for_each rest body)
  end.

(** The modules of [mods] that accept data from the input and the task. *)
Definition accepting (st : Task.Settings) (input_name task_name : string)
    (mods : list processor_module) : list processor_module :=
  List.filter
    (fun m => Routing.accepts_from (Task.disable_outputs st) (pm_routing m)
                input_name task_name false)
    mods.

(** [StreamletTaskBlueprint.streamlet_exec] *)
Definition streamlet_exec (st : Task.Settings) (cfg : Task.config)
    (inp : input_module) (fl : flow) : M Task.States :=
  bind (fun w => on_frames (fun fs =>
          let '(r, fs') := Frame.new_frame fs (Task.name cfg) (wall_clock (ext w)) in
          Py.ok (r, fs')) w) (fun static_data =>
  bind (set_last_module (in_name inp)) (fun _ =>
  bind (modify (in_modifiers inp) static_data) (fun _ =>
  bind (call_input inp) (fun result =>
  bind (process_result st cfg static_data result) (fun _ =>
  bind (on_frames (fun fs =>
          match Frame.len fs static_data with
          | inr n => Py.ok (n, fs)
          | inl e => Py.raise e
          end)) (fun n =>
  match n with
  | O => ret Task.SKIPPED
  | S _ =>
      bind (for_each (accepting st (in_name inp) (Task.name cfg) (transforms fl))
              (fun m =>
                 bind (set_last_module (pm_name m)) (fun _ =>
                 call_processor m static_data))) (fun _ =>
      bind (on_frames (fun fs =>
              match Frame.freeze fs static_data with
              | inr fs' => Py.ok (tt, fs')
              | inl e => Py.raise e
              end)) (fun _ =>
      bind (for_each (accepting st (in_name inp) (Task.name cfg) (outputs fl))
              (fun m =>
                 bind (set_last_module (pm_name m)) (fun _ =>
                 bind (on_frames (fun fs => Frame.copy fs static_data)) (fun finished_data =>
                 bind (modify (pm_modifiers m) finished_data) (fun _ =>
                 call_processor m finished_data))))) (fun _ =>
      ret Task.FINISHED)))
  end)))))).

(** What [run] does with the request: it returns the code, lets an
    exception out, or asks for a retry. *)
Inductive run_outcome : Type :=
| Returns (code : Task.States)
| Raises (e : Py.exn)
| Retries (exc : Py.exn).

(** [celery.Task.retry(throw=False, exc=e)] in a worker, from Celery's
    documentation: with [retries = request.retries + 1], the call raises
    [exc] when [retries > max_retries]; otherwise it sends the task again
    with that count and returns the [Retry] exception, which [run] raises. *)
Definition retry (max_retries retries : Z) (exc : Py.exn) : run_outcome :=
  if max_retries <? retries + 1 then Raises exc else Retries exc.

(** [StreamletTaskBlueprint.run]: a [TaskPredicate] goes through as it is,
    any other exception goes to [self.retry]. *)
Definition run (st : Task.Settings) (cfg : Task.config)
    (inp : input_module) (fl : flow) (retries : Z) (w : world)
  : world * run_outcome :=
  match streamlet_exec st cfg inp fl w with
  | (w', inr code) => (w', Returns code)
  | (w', inl e) =>
      if Py.is_task_predicate e then (w', Raises e)
      else (w', retry (Task.max_retries cfg) retries e)
  end.

(** [time.perf_counter()], read from the outside. *)
Variable perf_counter : E -> Z.

(** What the task's handlers log. *)
Inductive event : Type :=
| Invoked (retries : Z)
| OnRetry (exc : Py.exn) (module_name : string) (elapsed : Z) (next : Z)
| OnFailure (exc : Py.exn) (module_name : string) (elapsed : Z).

(** How a request ends in the worker: with the state [SUCCESS], with the
    state [FAILURE] after [on_failure] has logged the exception, the module
    and the time, or with one of the states [IGNORED] and [REJECTED]. *)
Inductive final : Type :=
| SUCCESS (code : Task.States)
| FAILED (exc : Py.exn) (module_name : string) (elapsed : Z)
| IGNORED
| REJECTED.

(** [before_start]: the request gets its start time and fresh metadata. *)
Definition before_start (w : world) : world * Z :=
  ({| ext := ext w; frames := frames w; heap := heap w;
      last_module := "<None>" |}, perf_counter (ext w)).

(** The worker: it runs the request, and runs it again with one more
    retry each time [run] asked for one; [on_retry] and [on_failure] log
    the module the metadata names and the time since [before_start].
    What it does with an exception that [run] lets out is the tracer of
    Celery ([celery/app/trace.py]): a [Reject] ends the request [REJECTED]
    and an [Ignore] ends it [IGNORED], both without a handler of the task;
    any other exception, a plain [TaskPredicate] among them, ends it
    [FAILURE] through [on_failure]. *)
Equations? worker (st : Task.Settings) (cfg : Task.config)
    (inp : input_module) (fl : flow) (retries : Z) (w : world)
  : world * list event * final
  by wf (Z.to_nat (Task.max_retries cfg + 1 - retries)) lt :=
worker st cfg inp fl retries w
  with inspect (run st cfg inp fl retries (fst (before_start w))) := {
  | exist _ (w', Returns code) _ => (w', [Invoked retries], SUCCESS code)
  | exist _ (w', Raises e) _ =>
      let elapsed := perf_counter (ext w') - snd (before_start w) in
      match e with
      | Py.Reject => (w', [Invoked retries], REJECTED)
      | Py.Ignore => (w', [Invoked retries], IGNORED)
      | _ => (w', [Invoked retries; OnFailure e (last_module w') elapsed],
              FAILED e (last_module w') elapsed)
      end
  | exist _ (w', Retries e) Heq =>
      let elapsed := perf_counter (ext w') - snd (before_start w) in
      let '(w'', log, fin) := worker st cfg inp fl (retries + 1) w' in
      (w'', Invoked retries :: OnRetry e (last_module w') elapsed (retries + 1) :: log, fin)
  }.
Proof.
  unfold run in Heq.
  destruct (streamlet_exec st cfg inp fl _) as [w1 [e1|c]]; [|discriminate].
  destruct (Py.is_task_predicate e1); [discriminate|].
  unfold retry in Heq.
  destruct (Z.ltb_spec (Task.max_retries cfg) (retries + 1)); [discriminate|lia].
Qed.

(** The number of times the task body was invoked. *)
Definition invocations (log : list event) : nat :=
  length (List.filter (fun ev => match ev with Invoked _ => true | _ => false end) log).

(** The world a request is in when its attempt [n] starts: the one that
    the attempt before it left. *)
Fixpoint attempt (st : Task.Settings) (cfg : Task.config)
    (inp : input_module) (fl : flow) (n : nat) (w : world) : world :=
  match n with
  | O => w
  | S k =>
      fst (streamlet_exec st cfg inp fl (fst (before_start (attempt st cfg inp fl k w))))
  end.

(** Attempt [n] of the request raises, and not a [TaskPredicate]. *)
Definition fails_at (st : Task.Settings) (cfg : Task.config)
    (inp : input_module) (fl : flow) (n : nat) (w : world) : Prop :=
  exists e,
    snd (streamlet_exec st cfg inp fl (fst (before_start (attempt st cfg inp fl n w))))
    = inl e /\
    Py.is_task_predicate e = false.

(** An operation on a frame raises [e]. *)
Definition frame_raises (e : Py.exn) : Prop :=
  exists fs r,
    Frame.len fs r = inl e \/ Frame.freeze fs r = inl e \/ Frame.copy fs r = inl e \/
    exists mu, Frame.mutate fs r mu = inl e.

(** The work done under the name of the Input raises [e]: the call of the
    Input, the processing of its result, or an operation on the frame. *)
Definition input_raises (st : Task.Settings) (cfg : Task.config)
    (inp : input_module) (e : Py.exn) : Prop :=
  (exists x h x' h', in_call inp x h = (x', h', inl e)) \/
  (exists fs d h result h', Task.process_result st cfg fs d h result = (h', inl e)) \/
  frame_raises e.

(** The work done under the name of a Transform or an Output raises [e]:
    its call, or an operation on the frame. *)
Definition processor_raises (m : processor_module) (e : Py.exn) : Prop :=
  (exists x fs d x', pm_call m x fs d = (x', inl e)) \/ frame_raises e.

(** [name] is the name of a module of the task: of the Input, or of a
    Transform or an Output that accepts its data. *)
Definition task_module (st : Task.Settings) (cfg : Task.config)
    (inp : input_module) (fl : flow) (name : string) : Prop :=
  name = in_name inp \/
  exists m,
    In m (accepting st (in_name inp) (Task.name cfg) (transforms fl ++ outputs fl)) /\
    name = pm_name m.

(** The failing module: [name] is the name of a module of the task, the
    Input or a Transform or an Output that accepts its data, and [e] was
    raised by the work done under that name. *)
Definition failing_module (st : Task.Settings) (cfg : Task.config)
    (inp : input_module) (fl : flow) (name : string) (e : Py.exn) : Prop :=
  (name = in_name inp /\ input_raises st cfg inp e) \/
  (exists m,
      In m (accepting st (in_name inp) (Task.name cfg) (transforms fl ++ outputs fl)) /\
      name = pm_name m /\ processor_raises m e).

(** A step started in a world of [pre] ends in a world of [post a] when
    it returns [a], and in a world of [epost e] when it raises [e]. *)
Definition triple {A} (pre : world -> Prop) (m : M A)
    (post : A -> world -> Prop) (epost : Py.exn -> world -> Prop) : Prop :=
  forall w w' r, pre w -> m w = (w', r) ->
    match r with
    | inr a => post a w'
    | inl e => epost e w'
    end.

End World.

End Pipeline.

(** ** Template extensions ([core/flow.py], [load_extensions])

    A configuration document and an extension are YAML documents: trees of
    mappings, sequences and scalars. *)

Module Template.

Import Data.

(** [a == b] on such values: [True] and [False] equal [1] and [0], and two
    mappings are equal when they hold the same entries, in any order. *)
Fixpoint py_eq (a b : json) {struct a} : bool :=
  match a, b with
  | JNull, JNull => true
  | JBool x, JBool y => Bool.eqb x y
  | JBool x, JInt y => Z.eqb (if x then 1 else 0) y
  | JInt x, JBool y => Z.eqb x (if y then 1 else 0)
  | JInt x, JInt y => Z.eqb x y
  | JStr x, JStr y => String.eqb x y
  | JList xs, JList ys =>
      (fix all2 (xs ys : list json) : bool :=
         match xs, ys with
         | [], [] => true
         | x :: xs', y :: ys' => py_eq x y && all2 xs' ys'
         | _, _ => false
         end) xs ys
  | JDict d, JDict e =>
      Nat.eqb (length d) (length e)
      && (fix all (d : dict) : bool :=
            match d with
            | [] => true
            | (k, x) :: d' =>
                match dict_get k e with
                | Some y => py_eq x y && all d'
                | None => false
                end
            end) d
  | _, _ => false
  end.

(** [bool(v)] *)
Definition truthy (v : json) : bool :=
  match v with
  | JNull => false
  | JBool b => b
  | JInt z => negb (Z.eqb z 0)
  | JStr s => negb (String.eqb s EmptyString)
  | JList l => match l with [] => false | _ => true end
  | JDict d => match d with [] => false | _ => true end
  end.

(** [isinstance(item, dict) and (name := item.get("name"))]: the name,
    when the test passes. *)
Definition named (item : json) : option json :=
  match item with
  | JDict d =>
      match dict_get "name" d with
      | Some name => if truthy name then Some name else None
      | None => None
      end
  | _ => None
  end.

(** [b.get("name")] *)
Definition name_of (b : dict) : json :=
  match dict_get "name" b with
  | Some name => name
  | None => JNull
  end.

(** The loop over [enumerate(base)]: the first item whose name equals
    [name] is replaced by its merge, and the loop breaks; [None] when the
    loop ends without a break.  An item that is not a mapping has no
    [get]. *)
Fixpoint merge_named (name : json) (merge : json -> Py.result json)
    (base : list json) : Py.result (option (list json)) :=
  match base with
  | [] => Py.ok None
  | b :: rest =>
      match b with
      | JDict bd =>
          if py_eq name (name_of bd)
          then
            match merge b with
            | inr b' => Py.ok (Some (b' :: rest))
            | inl e => Py.raise e
            end
          else
            match merge_named name merge rest with
            | inr r => Py.ok (option_map (cons b) r)
            | inl e => Py.raise e
            end
      | _ => Py.raise Py.AttributeError
      end
  end.

(** The same loop up to its [break]: the index at which it breaks. *)
Fixpoint find_named (name : json) (base : list json) (i : nat) : Py.result (option nat) :=
  match base with
  | [] => Py.ok None
  | JDict bd :: rest =>
      if py_eq name (name_of bd) then Py.ok (Some i) else find_named name rest (S i)
  | _ :: _ => Py.raise Py.AttributeError
  end.

(** [base.append(item)] *)
Definition append (base item : json) : Py.result json :=
  match base with
  | JList bs => Py.ok (JList (bs ++ [item]))
  | _ => Py.raise Py.AttributeError
  end.

(** [extend(base, extension)] of [load_extensions]: [base] after the
    merge. *)
Fixpoint extend (base extension : json) {struct extension} : Py.result json :=
  match extension with
  | JList items =>
      (fix loop (items : list json) (base : json) : Py.result json :=
         match items with
         | [] => Py.ok base
         | item :: rest =>
             match
               match named item with
               | Some name =>
                   match base with
                   | JList bs =>
                       match merge_named name (fun b => extend b item) bs with
                       | inr (Some bs') => Py.ok (JList bs')
                       | inr None => append base item
                       | inl e => Py.raise e
                       end
                   | JDict _ | JStr _ => Py.raise Py.AttributeError
                   | _ => Py.raise Py.TypeError
                   end
               | None => append base item
               end
             with
             | inr base' => loop rest base'
             | inl e => Py.raise e
             end
         end) items base
  | JDict entries =>
      (fix loop (entries : dict) (base : json) : Py.result json :=
         match entries with
         | [] => Py.ok base
         | (k, v) :: rest =>
             match base with
             | JDict bd =>
                 match extend (match dict_get k bd with
                               | Some x => x
                               | None => JDict []
                               end) v with
                 | inr x => loop rest (JDict (dict_set k x bd))
                 | inl e => Py.raise e
                 end
             | _ => Py.raise Py.AttributeError
             end
         end) entries base
  | _ => Py.ok extension
  end.

(** The merge of two sequences in the words of the specification: an
    extension item with a name is merged into the first base item of that
    name, at its place; any other extension item is appended. *)
Fixpoint index_of_name (name : json) (base : list json) : option nat :=
  match base with
  | [] => None
  | JDict bd :: rest =>
      if py_eq name (name_of bd) then Some O
      else option_map S (index_of_name name rest)
  | _ :: rest => option_map S (index_of_name name rest)
  end.

Definition merge_item (base : list json) (item : json) : Py.result (list json) :=
  match named item with
  | Some name =>
      match index_of_name name base with
      | Some i =>
          match base !! i with
          | Some b =>
              match extend b item with
              | inr merged => Py.ok (<[i := merged]> base)
              | inl e => Py.raise e
              end
          | None => Py.ok base
          end
      | None => Py.ok (base ++ [item])
      end
  | None => Py.ok (base ++ [item])
  end.

Fixpoint merge_sequences (base items : list json) : Py.result (list json) :=
  match items with
  | [] => Py.ok base
  | item :: rest =>
      match merge_item base item with
      | inr base' => merge_sequences base' rest
      | inl e => Py.raise e
      end
  end.

Definition is_mapping (v : json) : Prop :=
  match v with JDict _ => True | _ => False end.

End Template.

(** ** Documents as objects ([core/flow.py], [load_extensions])

    [yaml.safe_load] gives objects: every mapping and every sequence of a
    document is an object of its own, which the document can hold at
    several places (an anchor and its aliases are one object), and
    [extend] changes the objects of the base in place.  Here the objects
    live in a store; [Template.extend] above is the same merge on
    documents that share no object, taken by value. *)

Module Yaml.

(** A value: a scalar, or the reference of a mapping or a sequence. *)
Inductive value : Type :=
| Null
| Bool (b : bool)
| Int (z : Z)
| Str (s : string)
| Ref (l : nat).

Inductive object : Type :=
| Seq (items : list value)
| Map (entries : list (string * value)).

Abbreviation store := (gmap nat object).

(** What a call does: it changes the store and returns or raises;
    [None] when the fuel does not suffice. *)
Definition outcome (A : Type) : Type := option (store * Py.result A).

(** [d.get(k)] and [d[k] = v] on the entries of a mapping. *)
Fixpoint get (k : string) (es : list (string * value)) : option value :=
  match es with
  | [] => None
  | (k', v) :: es' => if String.eqb k k' then Some v else get k es'
  end.

Fixpoint set (k : string) (v : value) (es : list (string * value))
  : list (string * value) :=
  match es with
  | [] => [(k, v)]
  | (k', v') :: es' =>
      if String.eqb k k' then (k', v) :: es' else (k', v') :: set k v es'
  end.

Fixpoint all_some {A : Type} (l : list (option A)) : option (list A) :=
  match l with
  | [] => Some []
  | Some a :: l' => option_map (cons a) (all_some l')
  | None :: _ => None
  end.

(** The document that a value holds, read through the store. *)
Fixpoint read (fuel : nat) (h : store) (v : value) : option Data.json :=
  match v with
  | Null => Some Data.JNull
  | Bool b => Some (Data.JBool b)
  | Int z => Some (Data.JInt z)
  | Str s => Some (Data.JStr s)
  | Ref l =>
      match fuel with
      | O => None
      | S f =>
          match h !! l with
          | Some (Seq items) => option_map Data.JList (all_some (map (read f h) items))
          | Some (Map es) =>
              option_map Data.JDict
                (all_some (map (fun kv => option_map (pair (fst kv)) (read f h (snd kv))) es))
          | None => None
          end
      end
  end.

(** [bool(v)] *)
Definition truthy (h : store) (v : value) : Py.result bool :=
  match v with
  | Null => Py.ok false
  | Bool b => Py.ok b
  | Int z => Py.ok (negb (Z.eqb z 0))
  | Str s => Py.ok (negb (String.eqb s EmptyString))
  | Ref l =>
      match h !! l with
      | Some (Seq items) => Py.ok (match items with [] => false | _ => true end)
      | Some (Map es) => Py.ok (match es with [] => false | _ => true end)
      | None => Py.raise Py.Unbound
      end
  end.

(** [isinstance(item, dict) and (name := item.get("name"))]: the name,
    when the test passes. *)
Definition named (h : store) (item : value) : Py.result (option value) :=
  match item with
  | Ref li =>
      match h !! li with
      | Some (Map ies) =>
          match get "name" ies with
          | Some name =>
              match truthy h name with
              | inr true => Py.ok (Some name)
              | inr false => Py.ok None
              | inl e => Py.raise e
              end
          | None => Py.ok None
          end
      | Some (Seq _) => Py.ok None
      | None => Py.raise Py.Unbound
      end
  | _ => Py.ok None
  end.

(** [base.append(item)] *)
Definition append (h : store) (base item : value) : store * Py.result unit :=
  match base with
  | Ref lb =>
      match h !! lb with
      | Some (Seq bs) => (<[lb := Seq (bs ++ [item])]> h, Py.ok tt)
      | Some (Map _) => (h, Py.raise Py.AttributeError)
      | None => (h, Py.raise Py.Unbound)
      end
  | _ => (h, Py.raise Py.AttributeError)
  end.

(** The loop over [enumerate(base)] up to its [break]: the index of the
    first item [b] with [name == b.get("name")], [None] when the loop ends
    without a break.  An item that is not a mapping has no [get]. *)
Fixpoint find_named (fuel : nat) (h : store) (name : value) (bs : list value) (i : nat)
  : option (Py.result (option nat)) :=
  match bs with
  | [] => Some (Py.ok None)
  | b :: rest =>
      match b with
      | Ref l =>
          match h !! l with
          | Some (Map bes) =>
              match read fuel h name,
                    read fuel h (match get "name" bes with Some x => x | None => Null end)
              with
              | Some n, Some bn =>
                  if Template.py_eq n bn then Some (Py.ok (Some i))
                  else find_named fuel h name rest (S i)
              | _, _ => None
              end
          | Some (Seq _) => Some (Py.raise Py.AttributeError)
          | None => Some (Py.raise Py.Unbound)
          end
      | _ => Some (Py.raise Py.AttributeError)
      end
  end.

Section Steps.

(** The call of [extend] inside a loop. *)
Variable rec : store -> value -> value -> outcome value.

(** The body of the loop over the items of an extension that is a
    sequence. *)
Definition item_step (fuel : nat) (base : value) (h : store) (item : value)
  : outcome unit :=
  match named h item with
  | inl e => Some (h, Py.raise e)
  | inr None => Some (append h base item)
  | inr (Some name) =>
      match base with
      | Ref lb =>
          match h !! lb with
          | Some (Seq bs) =>
              match find_named fuel h name bs 0 with
              | None => None
              | Some (inl e) => Some (h, Py.raise e)
              | Some (inr None) => Some (append h base item)
              | Some (inr (Some i)) =>
                  match bs !! i with
                  | Some b =>
                      match rec h b item with
                      | None => None
                      | Some (h', inl e) => Some (h', Py.raise e)
                      | Some (h', inr r) =>
                          match h' !! lb with
                          | Some (Seq bs') =>
                              if (i <? length bs')%nat
                              then Some (<[lb := Seq (<[i := r]> bs')]> h', Py.ok tt)
                              else Some (h', Py.raise Py.IndexError)
                          | Some (Map _) => Some (h', Py.raise Py.TypeError)
                          | None => Some (h', Py.raise Py.Unbound)
                          end
                      end
                  | None => Some (h, Py.raise Py.IndexError)
                  end
              end
          | Some (Map _) => Some (h, Py.raise Py.AttributeError)
          | None => Some (h, Py.raise Py.Unbound)
          end
      | Str _ => Some (h, Py.raise Py.AttributeError)
      | _ => Some (h, Py.raise Py.TypeError)
      end
  end.

(** The body of the loop over the entries of an extension that is a
    mapping: [base[k] = extend(base.get(k, {}), v)]. *)
Definition entry_step (base : value) (h : store) (k : string) (v : value)
  : outcome unit :=
  match base with
  | Ref lb =>
      match h !! lb with
      | Some (Map bes) =>
          let '(h1, x) :=
            match get k bes with
            | Some x => (h, x)
            | None => let l := fresh (dom h) in (<[l := Map []]> h, Ref l)
            end in
          match rec h1 x v with
          | None => None
          | Some (h2, inl e) => Some (h2, Py.raise e)
          | Some (h2, inr r) =>
              match h2 !! lb with
              | Some (Map bes2) => Some (<[lb := Map (set k r bes2)]> h2, Py.ok tt)
              | Some (Seq _) => Some (h2, Py.raise Py.TypeError)
              | None => Some (h2, Py.raise Py.Unbound)
              end
          end
      | Some (Seq _) => Some (h, Py.raise Py.AttributeError)
      | None => Some (h, Py.raise Py.Unbound)
      end
  | _ => Some (h, Py.raise Py.AttributeError)
  end.

End Steps.

(** [for item in extension: ...; return base] over the sequence at [le]:
    the iterator reads the sequence as it is when the turn [i] comes. *)
Fixpoint seq_loop (step : store -> value -> outcome unit) (le : nat) (base : value)
    (n i : nat) (h : store) : outcome value :=
  match n with
  | O => None
  | S n' =>
      match h !! le with
      | Some (Seq items) =>
          match items !! i with
          | None => Some (h, Py.ok base)
          | Some item =>
              match step h item with
              | None => None
              | Some (h', inl e) => Some (h', Py.raise e)
              | Some (h', inr _) => seq_loop step le base n' (S i) h'
              end
          end
      | Some (Map _) => Some (h, Py.raise Py.TypeError)
      | None => Some (h, Py.raise Py.Unbound)
      end
  end.

(** [for k, v in extension.items(): ...; return base] over the mapping
    at [le]: the iterator raises when the mapping has changed its size. *)
Fixpoint map_loop (step : store -> string -> value -> outcome unit) (le size : nat)
    (base : value) (n i : nat) (h : store) : outcome value :=
  match n with
  | O => None
  | S n' =>
      match h !! le with
      | Some (Map es) =>
          if negb (length es =? size)%nat then Some (h, Py.raise (Py.Raised "RuntimeError"))
          else
            match es !! i with
            | None => Some (h, Py.ok base)
            | Some (k, v) =>
                match step h k v with
                | None => None
                | Some (h', inl e) => Some (h', Py.raise e)
                | Some (h', inr _) => map_loop step le size base n' (S i) h'
                end
            end
      | Some (Seq _) => Some (h, Py.raise Py.TypeError)
      | None => Some (h, Py.raise Py.Unbound)
      end
  end.

(** [extend(base, extension)] of [load_extensions], on the store. *)
Fixpoint extend (fuel : nat) (h : store) (base extension : value) {struct fuel}
  : outcome value :=
  match fuel with
  | O => None
  | S f =>
      match extension with
      | Ref le =>
          match h !! le with
          | Some (Seq _) =>
              seq_loop (item_step (extend f) f base) le base fuel 0 h
          | Some (Map es) =>
              map_loop (entry_step (extend f) base) le (length es) base fuel 0 h
          | None => Some (h, Py.raise Py.Unbound)
          end
      | _ => Some (h, Py.ok extension)
      end
  end.

(** [v] holds the document [t] in the objects [D] of the store, each of
    them at one place. *)
Fixpoint tree (h : store) (t : Data.json) (v : value) (D : gset nat) {struct t} : Prop :=
  match t with
  | Data.JNull => v = Null /\ D = ∅
  | Data.JBool b => v = Bool b /\ D = ∅
  | Data.JInt z => v = Int z /\ D = ∅
  | Data.JStr s => v = Str s /\ D = ∅
  | Data.JList ts =>
      exists l vs D',
        v = Ref l /\ h !! l = Some (Seq vs) /\ (l ∉ D') /\ (D = {[l]} ∪ D') /\
        (fix items (ts : list Data.json) (vs : list value) (D' : gset nat) : Prop :=
           match ts, vs with
           | [], [] => D' = ∅
           | t :: ts', v :: vs' =>
               exists D1 D2,
                 tree h t v D1 /\ items ts' vs' D2 /\ D1 ## D2 /\ D' = D1 ∪ D2
           | _, _ => False
           end) ts vs D'
  | Data.JDict d =>
      exists l es D',
        v = Ref l /\ h !! l = Some (Map es) /\ (l ∉ D') /\ (D = {[l]} ∪ D') /\
        (fix entries (d : Data.dict) (es : list (string * value)) (D' : gset nat) : Prop :=
           match d, es with
           | [], [] => D' = ∅
           | (k, t) :: d', (k', v) :: es' =>
               k = k' /\
               exists D1 D2,
                 tree h t v D1 /\ entries d' es' D2 /\ D1 ## D2 /\ D' = D1 ∪ D2
           | _, _ => False
           end) d es D'
  end.

(** The same of the items of a sequence and of the entries of a
    mapping. *)
Definition trees (h : store) : list Data.json -> list value -> gset nat -> Prop :=
  fix trees (ts : list Data.json) (vs : list value) (D : gset nat) : Prop :=
    match ts, vs with
    | [], [] => D = ∅
    | t :: ts', v :: vs' =>
        exists D1 D2, tree h t v D1 /\ trees ts' vs' D2 /\ D1 ## D2 /\ D = D1 ∪ D2
    | _, _ => False
    end.

Definition tree_entries (h : store) : Data.dict -> list (string * value) -> gset nat -> Prop :=
  fix entries (d : Data.dict) (es : list (string * value)) (D : gset nat) : Prop :=
    match d, es with
    | [], [] => D = ∅
    | (k, t) :: d', (k', v) :: es' =>
        k = k' /\
        exists D1 D2, tree h t v D1 /\ entries d' es' D2 /\ D1 ## D2 /\ D = D1 ∪ D2
    | _, _ => False
    end.

(** A call keeps the objects of the store and leaves alone those outside
    [D]. *)
Definition kept (h h' : store) (D : gset nat) : Prop :=
  dom h ⊆ dom h' /\ forall l, l ∈ dom h -> l ∉ D -> h' !! l = h !! l.

(** What a call of [extend] on the store has to do when the merge of the
    documents gives [result]: it changes no object outside the two
    documents, and returns the merged document, made of objects of the two
    documents and of new ones. *)
Definition merged (h h' : store) (r : Py.result value) (result : Py.result Data.json)
    (Db De : gset nat) : Prop :=
  kept h h' (Db ∪ De) /\
  match result with
  | inr t' =>
      exists v' D',
        r = inr v' /\ tree h' t' v' D' /\ D' ⊆ Db ∪ De ∪ (dom h' ∖ dom h)
  | inl e => r = inl e
  end.

(** What a part of a call of [extend] has to do when it gives the base
    [result] by value: it returns [ret], and the base is the same object
    and holds [result]. *)
Definition turned {A : Type} (ret : A) (h h' : store) (r : Py.result A)
    (result : Py.result Data.json) (b : value) (Db De : gset nat) : Prop :=
  kept h h' (Db ∪ De) /\
  match result with
  | inr tb' =>
      r = inr ret /\
      exists Db', tree h' tb' b Db' /\ Db' ⊆ Db ∪ De ∪ (dom h' ∖ dom h)
  | inl e => r = inl e
  end.

(** [extend] on the store does with the extension [te] what
    [Template.extend] does by value, on documents that share no object. *)
Definition refines (te : Data.json) : Prop :=
  forall h tb b e Db De,
    tree h tb b Db -> tree h te e De -> Db ## De ->
    exists h' r N,
      (forall fuel, (N <= fuel)%nat -> extend fuel h b e = Some (h', r)) /\
      merged h h' r (Template.extend tb te) Db De.

End Yaml.

(** ** The operating system as the validators see it

    [os.environ], and the password database behind [os.path.expanduser]:
    the home directory of the current user and those of the users by
    name. *)

Module Os.

Record t : Type := {
  environ : gmap string string;
  home_of_uid : option string;            (* pwd.getpwuid(os.getuid()).pw_dir *)
  passwd : gmap string string             (* pwd.getpwnam(name).pw_dir *)
}.

(** [\w] with [re.ASCII] *)
Definition is_word (c : ascii) : bool :=
  let n := nat_of_ascii c in
  ((48 <=? n) && (n <=? 57) || (65 <=? n) && (n <=? 90)
   || (97 <=? n) && (n <=? 122) || (n =? 95))%nat.

(** What follows a ["$"] in the pattern of [expandvars]: a name (a run
    of word characters, or any text between braces) with the number of
    characters the match takes after the ["$"]; a brace that is never
    closed, which takes the rest of the path; or nothing. *)
Inductive var_match : Type :=
| Var (name : string) (n : nat)
| Unclosed
| NoVar.

Definition parse_var (rest : string) : var_match :=
  match rest with
  | String "{" inner =>
      match Str.find "}" inner with
      | Some n => Var (Str.take n inner) (n + 2)
      | None => Unclosed
      end
  | _ =>
      match Str.take_while is_word rest with
      | EmptyString => NoVar
      | name => Var name (String.length name)
      end
  end.

(** [os.path.expandvars(path)] on POSIX: every match whose name is in the
    environment is replaced by its value, which is not scanned again; the
    other matches stay.  [skip] characters of a match are still to be
    passed over. *)
Fixpoint expandvars_go (env : gmap string string) (skip : nat) (path : string) : string :=
  match path with
  | EmptyString => EmptyString
  | String c rest =>
      match skip with
      | S k => expandvars_go env k rest
      | O =>
          if Ascii.eqb c "$" then
            match parse_var rest with
            | Var name n =>
                match env !! name with
                | Some value => (value ++ expandvars_go env n rest)%string
                | None => (String c (Str.take n rest) ++ expandvars_go env n rest)%string
                end
            | Unclosed => path
            | NoVar => String c (expandvars_go env O rest)
            end
          else String c (expandvars_go env O rest)
      end
  end.

Definition expandvars (os : t) (path : string) : string :=
  expandvars_go (environ os) O path.

(** [os.path.expanduser(path)] on POSIX. *)
Definition expanduser (os : t) (path : string) : string :=
  match path with
  | String "~" rest =>
      let i := match Str.find "/" rest with
               | Some n => n
               | None => String.length rest
               end in
      let finish (userhome : string) : string :=
        match (Str.rstrip "/" userhome ++ Str.drop i rest)%string with
        | EmptyString => "/"
        | result => result
        end in
      match i with
      | O =>
          match environ os !! "HOME" with
          | Some userhome => finish userhome
          | None =>
              match home_of_uid os with
              | Some userhome => finish userhome
              | None => path
              end
          end
      | _ =>
          match passwd os !! Str.take i rest with
          | Some userhome => finish userhome
          | None => path
          end
      end
  | _ => path
  end.

End Os.

(** ** Leaf validators ([core/validation/validators.py]) *)

Module Validators.

(** A scalar leaf of a configuration document. *)
Inductive leaf : Type :=
| Text (s : string)
| Number (z : Z)
| Flag (b : bool)
| Null.

(** [str(value)] *)
Definition py_str (value : leaf) : string :=
  match value with
  | Text s => s
  | Number z => Str.of_Z z
  | Flag true => "True"
  | Flag false => "False"
  | Null => "None"
  end.

Definition max_depth_reached : Py.exn :=
  Py.ValueInvalid "Max depth reached while expanding environment variables.".

Section EnvironmentVar.

(** The validator's [return_type], which may raise, and its [max_depth]. *)
Context {A : Type} (schema : string -> Py.result A) (self_max_depth : Z).

Variable os : Os.t.

(** One pass: [os.path.expanduser(os.path.expandvars(value))]. *)
Definition pass (value : string) : string :=
  Os.expanduser os (Os.expandvars os value).

(** [EnvironmentVar.__call__(value, max_depth)] on a string, with the
    depth given. *)
Equations? expand (value : string) (max_depth : Z) : Py.result A
  by wf (Z.to_nat (max_depth + 1)) lt :=
expand value max_depth with Z_lt_dec max_depth 0 := {
  | left _ => Py.raise max_depth_reached
  | right _ with String.eqb (pass value) value := {
      | true => schema value
      | false => expand (pass value) (max_depth - 1)
    }
  }.
Proof. lia. Qed.

(** [EnvironmentVar.__call__(value, max_depth=None)] *)
Definition EnvironmentVar (value : leaf) (max_depth : option Z) : Py.result A :=
  expand (py_str value)
    (match max_depth with Some d => d | None => self_max_depth end).

End EnvironmentVar.

(** *** [TimeToSeconds]

    A Python number is an [int] or a [float]; a [float] is an IEEE 754
    binary64 value, with the arithmetic of [SpecFloat]. *)

Inductive number : Type :=
| Int (z : Z)
| Float (f : spec_float).

Definition prec : Z := 53.
Definition emax : Z := 1024.

(** [float(z)] for an integer. *)
Definition float_of_Z (z : Z) : spec_float := binary_normalize prec emax z 0 false.

(** The binary64 value nearest to [m / 10^k], with the sign [neg]: what
    [float] makes of a decimal text with [k] digits after the point. *)
Definition float_of_decimal (neg : bool) (m : Z) (k : nat) : spec_float :=
  match m with
  | Zpos p => SFdiv prec emax (S754_finite neg p 0) (S754_finite false (Z.to_pos (10 ^ Z.of_nat k)) 0)
  | _ => S754_zero neg
  end.

(** [a + b] and [a * b] with Python's coercion of [int] to [float], and
    [-a]. *)
Definition add (a b : number) : number :=
  match a, b with
  | Int x, Int y => Int (x + y)
  | Int x, Float y => Float (SFadd prec emax (float_of_Z x) y)
  | Float x, Int y => Float (SFadd prec emax x (float_of_Z y))
  | Float x, Float y => Float (SFadd prec emax x y)
  end.

Definition mul (a b : number) : number :=
  match a, b with
  | Int x, Int y => Int (x * y)
  | Int x, Float y => Float (SFmul prec emax (float_of_Z x) y)
  | Float x, Int y => Float (SFmul prec emax x (float_of_Z y))
  | Float x, Float y => Float (SFmul prec emax x y)
  end.

Definition neg (a : number) : number :=
  match a with
  | Int x => Int (- x)
  | Float x => Float (SFopp x)
  end.

Definition is_digit (c : ascii) : bool :=
  let n := nat_of_ascii c in ((48 <=? n) && (n <=? 57))%nat.

Definition is_alpha (c : ascii) : bool :=
  let n := nat_of_ascii c in
  ((65 <=? n) && (n <=? 90) || (97 <=? n) && (n <=? 122))%nat.

(** The characters [str.strip] removes. *)
Definition is_space (c : ascii) : bool :=
  let n := nat_of_ascii c in
  ((9 <=? n) && (n <=? 13) || (28 <=? n) && (n <=? 32))%nat.

(** [s.isdigit()] *)
Definition isdigit (s : string) : bool :=
  match s with
  | EmptyString => false
  | _ => Str.all is_digit s
  end.

(** [s.removeprefix("-")] *)
Definition removeprefix_minus (s : string) : string :=
  match s with
  | String "-" s' => s'
  | _ => s
  end.

(** [s.startswith("-")] *)
Definition startswith_minus (s : string) : bool :=
  match s with
  | String "-" _ => true
  | _ => false
  end.

(** [s.replace(".", "", 1)] *)
Fixpoint remove_dot (s : string) : string :=
  match s with
  | EmptyString => EmptyString
  | String c s' => if Ascii.eqb c "." then s' else String c (remove_dot s')
  end.

(** [s.lower()] *)
Definition lower_char (c : ascii) : ascii :=
  let n := nat_of_ascii c in
  if ((65 <=? n) && (n <=? 90))%nat then ascii_of_nat (n + 32) else c.

Fixpoint lower (s : string) : string :=
  match s with
  | EmptyString => EmptyString
  | String c s' => String (lower_char c) (lower s')
  end.

(** [int(value)] for a text; anything but an optional ["-"] and digits is
    a [ValueError]. *)
Definition py_int (value : string) : Py.result Z :=
  match NilZero.int_of_string value with
  | Some d => Py.ok (Z.of_int d)
  | None => Py.raise Py.ValueError
  end.

(** The digits of a text as a natural number. *)
Definition digits_value (digits : string) : Z :=
  match NilEmpty.uint_of_string digits with
  | Some d => Z.of_uint d
  | None => 0
  end.

(** [float(value)] for a text made of an optional ["-"], digits and at
    most one point. *)
Definition py_float (value : string) : spec_float :=
  let body := removeprefix_minus value in
  let k := match Str.find "." body with
           | Some i => (String.length body - i - 1)%nat
           | None => O
           end in
  float_of_decimal (startswith_minus value) (digits_value (remove_dot body)) k.

(** [re.search(r"(\d+)([a-zA-Z]+)", s)]: the first run of digits that a
    letter follows, and the run of letters after it. *)
Fixpoint search (s : string) : option (string * string) :=
  match s with
  | EmptyString => None
  | String c s' =>
      if is_digit c then
        let val := Str.take_while is_digit s in
        match Str.take_while is_alpha (Str.drop (String.length val) s) with
        | EmptyString => search s'
        | unit => Some (val, unit)
        end
      else search s'
  end.

(** [factors[unit]]; [0.001] is the [float] nearest to it. *)
Definition factors (unit : string) : option number :=
  if String.eqb unit "ms" then Some (Float (float_of_decimal false 1 3))
  else if String.eqb unit "s" then Some (Int 1)
  else if String.eqb unit "m" then Some (Int 60)
  else if String.eqb unit "h" then Some (Int 3600)
  else if String.eqb unit "d" then Some (Int 86400)
  else None.

Definition invalid_time (part : string) : Py.exn :=
  Py.ValueInvalid ("Invalid time format `" ++ part ++ "` not parsable!")%string.

(** The body of the loop for one part that is not blank. *)
Definition part_seconds (part : string) : Py.result number :=
  match search (lower part) with
  | Some (val, unit) =>
      match factors unit with
      | Some factor => Py.ok (mul (Float (float_of_decimal false (digits_value val) 0)) factor)
      | None => Py.raise (invalid_time part)
      end
  | None => Py.raise (invalid_time part)
  end.

(** The loop over the parts. *)
Fixpoint sum_parts (t_parts : list string) (result : number) : Py.result number :=
  match t_parts with
  | [] => Py.ok result
  | part :: rest =>
      if Str.all is_space part then sum_parts rest result
      else
        match part_seconds part with
        | inr x => sum_parts rest (add result x)
        | inl e => Py.raise e
        end
  end.

(** The argument of [TimeToSeconds]: a text or a number. *)
Inductive time_value : Type :=
| Str_ (s : string)
| Num (n : number).

(** [TimeToSeconds.__call__] *)
Definition TimeToSeconds (value : time_value) : Py.result number :=
  match value with
  | Str_ value =>
      if isdigit (removeprefix_minus value) then
        match py_int value with
        | inr z => Py.ok (Int z)
        | inl e => Py.raise e
        end
      else if isdigit (remove_dot (removeprefix_minus value)) then
        Py.ok (Float (py_float value))
      else
        match sum_parts (Data.split_go ":" 0 EmptyString value) (Int 0) with
        | inr result => Py.ok (if startswith_minus value then neg result else result)
        | inl e => Py.raise e
        end
  | Num n => Py.ok n
  end.

(** A duration text in the words of the specification: tokens of a
    number and a unit, joined with [":"], after an optional ["-"]. *)
Inductive time_unit : Type := Milliseconds | Seconds | Minutes | Hours | Days.

Definition unit_text (u : time_unit) : string :=
  match u with
  | Milliseconds => "ms"
  | Seconds => "s"
  | Minutes => "m"
  | Hours => "h"
  | Days => "d"
  end.

Definition unit_factor (u : time_unit) : number :=
  match u with
  | Milliseconds => Float (float_of_decimal false 1 3)
  | Seconds => Int 1
  | Minutes => Int 60
  | Hours => Int 3600
  | Days => Int 86400
  end.

Definition token_text (t : string * time_unit) : string :=
  (fst t ++ unit_text (snd t))%string.

Definition duration_text (negative : bool) (tokens : list (string * time_unit)) : string :=
  ((if negative then "-" else "") ++ String.concat ":" (map token_text tokens))%string.

Definition token_seconds (t : string * time_unit) : number :=
  mul (Float (float_of_decimal false (digits_value (fst t)) 0)) (unit_factor (snd t)).

Definition total_seconds (negative : bool) (tokens : list (string * time_unit)) : number :=
  let total := fold_left (fun acc t => add acc (token_seconds t)) tokens (Int 0) in
  if negative then neg total else total.

(** Characters that [split(":")] and [lower()] leave alone. *)
Definition no_colon (c : ascii) : bool := negb (Ascii.eqb c ":").
Definition not_upper (c : ascii) : bool :=
  negb ((65 <=? nat_of_ascii c) && (nat_of_ascii c <=? 90))%nat.

(** The value of a finite [float] that is an integer. *)
Definition float_as_Z (f : spec_float) : option Z :=
  match f with
  | S754_zero _ => Some 0
  | S754_finite s m e =>
      let v := match e with
               | Zneg p => if Z.eqb (Zpos m mod 2 ^ Zpos p) 0
                           then Some (Zpos m / 2 ^ Zpos p) else None
               | _ => Some (Zpos m * 2 ^ e)
               end in
      option_map (fun z => if s then - z else z) v
  | _ => None
  end.

End Validators.

(** ** Validation failures ([core/validation/helpers.py], [main.py])

    The schema is the graph of Python objects that the walk visits: a
    [dict], a [list], an object with a [schema] attribute ([Schema],
    [Optional], [ModuleValidator], [TaskSchema], [AlwaysList],
    [EnvironmentVar]) or any other object (a type, a function, a validator
    without that attribute).  The validation library and [difflib] are
    parameters. *)

Module Validation.

(** A key of a schema [dict]: a name ([str], [Optional(name)],
    [Required(name)], which hash and compare as the name) or another
    object such as the type [str], which no path element equals. *)
Inductive skey : Type :=
| Named (name : string)
| Other (repr : string).

(** [str(k)] *)
Definition skey_str (k : skey) : string :=
  match k with
  | Named name => name
  | Other repr => repr
  end.

Inductive schema : Type :=
| Mapping (entries : list (skey * schema))
| Sequence (items : list schema)
| Wrapper (inner : schema)
| Opaque_.

(** [error.path], [error.msg] and [error.__class__.__name__] of an
    [Invalid] *)
Record error : Type := {
  error_class : string;
  error_path : list Data.pkey;
  error_msg : string;
}.

(** What [print] writes: the line of the field and the line of the
    message. *)
Inductive line : Type :=
| Field (cls field : string)
| Error (msg : string).

(** [group[p]] for a name *)
Fixpoint named_item (p : string) (entries : list (skey * schema)) : option schema :=
  match entries with
  | [] => None
  | (Named name, g) :: rest => if String.eqb p name then Some g else named_item p rest
  | (Other _, _) :: rest => named_item p rest
  end.

(** [l[i]] of a Python list: a negative index counts from the end. *)
Definition list_item {A : Type} (l : list A) (i : Z) : Py.result A :=
  let n := Z.of_nat (List.length l) in
  let j := if i <? 0 then i + n else i in
  if (j <? 0) || (n <=? j) then Py.raise Py.IndexError
  else match nth_error l (Z.to_nat j) with
       | Some x => Py.ok x
       | None => Py.raise Py.IndexError
       end.

(** [group[p]] when the configuration is not a list *)
Definition schema_item (group : schema) (p : Data.pkey) : Py.result schema :=
  match group, p with
  | Mapping entries, Data.KStr s =>
      match named_item s entries with
      | Some g => Py.ok g
      | None => Py.raise Py.KeyError
      end
  | Mapping _, Data.KIdx _ => Py.raise Py.KeyError
  | Sequence items, Data.KIdx n => list_item items (Z.of_nat n)
  | Sequence _, Data.KStr _ => Py.raise Py.TypeError
  | Wrapper _, _ => Py.raise Py.TypeError
  | Opaque_, _ => Py.raise Py.TypeError
  end.

(** [int(p)] *)
Definition int_of_key (p : Data.pkey) : Py.result Z :=
  match p with
  | Data.KIdx n => Py.ok (Z.of_nat n)
  | Data.KStr s => Validators.py_int s
  end.

(** [group[min(int(p), len(group) - 1)]] when the configuration is a list *)
Definition schema_element (group : schema) (p : Data.pkey) : Py.result schema :=
  (let! i := int_of_key p in
   match group with
   | Mapping _ => Py.raise Py.KeyError
   | Sequence items => list_item items (Z.min i (Z.of_nat (List.length items) - 1))
   | Wrapper _ | Opaque_ => Py.raise Py.TypeError
   end)%py.

(** [while hasattr(group, "schema"): group = getattr(group, "schema")] *)
Fixpoint unwrap (group : schema) : schema :=
  match group with
  | Wrapper inner => unwrap inner
  | _ => group
  end.

(** [config[p]] *)
Definition config_item (config : Data.json) (p : Data.pkey) : Py.result Data.json :=
  match config, p with
  | Data.JDict d, Data.KStr s =>
      match Data.dict_get s d with
      | Some v => Py.ok v
      | None => Py.raise Py.KeyError
      end
  | Data.JDict _, Data.KIdx _ => Py.raise Py.KeyError
  | Data.JList l, Data.KIdx n => list_item l (Z.of_nat n)
  | Data.JStr s, Data.KIdx n =>
      match Str.first (Str.drop n s) with
      | Some c => Py.ok (Data.JStr (String c EmptyString))
      | None => Py.raise Py.IndexError
      end
  | _, _ => Py.raise Py.TypeError
  end.

Definition is_list (config : Data.json) : bool :=
  match config with
  | Data.JList _ => true
  | _ => false
  end.

(** The loop of [walk_similar_key]: the schema and the configuration it
    ends with. *)
Fixpoint walk (group : schema) (config : Data.json) (path : list Data.pkey)
  : Py.result (schema * Data.json) :=
  match path with
  | [] => Py.ok (group, config)
  | p :: path' =>
      (let! g := if is_list config then schema_element group p else schema_item group p in
       match config_item config p with
       | inr c => walk (unwrap g) c path'
       | inl Py.KeyError => Py.ok (unwrap g, config)
       | inl e => Py.raise e
       end)%py
  end.

(** [[str(k) for k in group.keys()] if isinstance(group, dict) else []] *)
Definition keys_of (group : schema) : list string :=
  match group with
  | Mapping entries => map (fun e => skey_str (fst e)) entries
  | _ => []
  end.

(** [f"{config[:55]}..." if len(config) > 55 else config] *)
Definition preview (config : string) : string :=
  if (55 <? String.length config)%nat then (Str.take 55 config ++ "...")%string else config.

(** [if key:] *)
Definition key_truthy (key : Data.pkey) : bool :=
  match key with
  | Data.KStr EmptyString => false
  | Data.KIdx O => false
  | _ => true
  end.

(** [msg.endswith((".", "!", "?"))] *)
Definition ends_sentence (msg : string) : bool :=
  match Str.last msg with
  | Some c => Ascii.eqb c "." || Ascii.eqb c "!" || Ascii.eqb c "?"
  | None => false
  end.

(** [*path, key = error.path] *)
Fixpoint split_last (path : list Data.pkey) : option (list Data.pkey * Data.pkey) :=
  match path with
  | [] => None
  | [key] => Some ([], key)
  | p :: rest =>
      match split_last rest with
      | Some (path', key) => Some (p :: path', key)
      | None => None
      end
  end.

(** ["".join(map(lambda s: f"[{s}]", path))] *)
Fixpoint brackets (path : list Data.pkey) : string :=
  match path with
  | [] => EmptyString
  | p :: rest => ("[" ++ Data.pkey_str p ++ "]" ++ brackets rest)%string
  end.

Definition extra_keys : string := "extra keys not allowed".

(** The outcome of [validate], and what the process does with it. *)
Inductive outcome : Type :=
| Returns (validated : Data.json)
| Exits (status : Z) (printed : list line)
| Raises (e : Py.exn) (printed : list line).

Section Library.

(** [difflib.get_close_matches(word, possibilities, n=1, cutoff=0.5)] *)
Variable get_close_matches : string -> list string -> list string.

(** [str(value).encode("unicode_escape").decode()] *)
Variable escaped_str : Data.json -> string.

(** [validator(configuration)]: the validated configuration, or the
    errors of the [Invalid] it raises. *)
Variable call : schema -> Data.json -> list error + Data.json.

Definition walk_similar_key (schema_ : schema) (config : Data.json)
    (path : list Data.pkey) (key : Data.pkey) : Py.result (option (string * string)) :=
  match schema_ with
  | Wrapper root =>
      (let! found := walk root config path in
       match get_close_matches (Data.pkey_str key) (keys_of (fst found)) with
       | m :: _ =>
           let! value := config_item (snd found) key in
           Py.ok (Some (m, preview (escaped_str value)))
       | [] => Py.ok None
       end)%py
  | _ => Py.raise Py.AttributeError
  end.

(** The field of an error, with the path and the key the walk gets. *)
Definition field_of (e : error) : string * list Data.pkey * option Data.pkey :=
  match split_last (error_path e) with
  | Some (path, key) =>
      (("[<>]" ++ brackets path ++ " > " ++ Data.pkey_str key)%string, path, Some key)
  | None => ("No error path found!", [], None)
  end.

(** The message of an error once a walk has returned. *)
Definition hinted (msg : string) (key : Data.pkey) (found : option (string * string)) : string :=
  match found with
  | Some (m, config) => (msg ++ ". Did you mean: `" ++ m ++ ": " ++ config ++ "`?")%string
  | None => (msg ++ ". No close matches found for `" ++ Data.pkey_str key ++ "`")%string
  end.

Definition closed (msg : string) : string :=
  if ends_sentence msg then msg else (msg ++ ".")%string.

(** One iteration of the loop of [print_validation_error]: what it prints,
    and the exception that ends it if the walk raises. *)
Definition print_error (schema_ : schema) (configuration : Data.json) (e : error)
  : list line * option Py.exn :=
  let '(field, path, key) := field_of e in
  let head := Field ("[" ++ error_class e ++ "] ")%string field in
  let hint :=
    match key with
    | Some key =>
        if String.eqb (error_msg e) extra_keys && key_truthy key
        then match walk_similar_key schema_ configuration path key with
             | inr found => inr (hinted (error_msg e) key found)
             | inl exc => inl exc
             end
        else inr (error_msg e)
    | None => inr (error_msg e)
    end in
  match hint with
  | inr msg => ([head; Error (closed msg)], None)
  | inl exc => ([head], Some exc)
  end.

Fixpoint print_validation_error (schema_ : schema) (configuration : Data.json)
    (errors : list error) : list line * option Py.exn :=
  match errors with
  | [] => ([], None)
  | e :: rest =>
      match print_error schema_ configuration e with
      | (printed, Some exc) => (printed, Some exc)
      | (printed, None) =>
          let '(printed', exc) := print_validation_error schema_ configuration rest in
          (printed ++ printed', exc)
      end
  end.

(** [validate(configuration, validator)] *)
Definition validate (configuration : Data.json) (validator : schema) : outcome :=
  match configuration with
  | Data.JDict _ =>
      match call validator configuration with
      | inr validated => Returns validated
      | inl errors =>
          match print_validation_error validator configuration errors with
          | (printed, None) => Exits 2 printed
          | (printed, Some exc) => Raises exc printed
          end
      end
  | _ => Raises (Py.Raised "AssertionError") []
  end.

End Library.

(** [main]: the exit status of a start that ends in [validate]; an
    [Exception] is caught and the process exits with 1. *)
Definition exit_status (o : outcome) : option Z :=
  match o with
  | Returns _ => None
  | Exits status _ => Some status
  | Raises _ _ => Some 1
  end.

(** The schema node and the configuration value a path leads to, where
    every step of the path is a key of a mapping or an index of a
    sequence on both sides. *)
Inductive leads_to : schema -> Data.json -> list Data.pkey -> schema -> Data.json -> Prop :=
| leads_here (g : schema) (c : Data.json) : leads_to g c [] g c
| leads_key (entries : list (skey * schema)) (d : Data.dict) (s : string)
    (g : schema) (c : Data.json) (path : list Data.pkey) (g' : schema) (c' : Data.json) :
    named_item s entries = Some g ->
    Data.dict_get s d = Some c ->
    leads_to (unwrap g) c path g' c' ->
    leads_to (Mapping entries) (Data.JDict d) (Data.KStr s :: path) g' c'
| leads_index (items : list schema) (l : list Data.json) (n : nat)
    (g : schema) (c : Data.json) (path : list Data.pkey) (g' : schema) (c' : Data.json) :
    nth_error items (Nat.min n (List.length items - 1)) = Some g ->
    nth_error l n = Some c ->
    leads_to (unwrap g) c path g' c' ->
    leads_to (Sequence items) (Data.JList l) (Data.KIdx n :: path) g' c'.

End Validation.

(** ** Running examples *)

Module Examples.

Import Data.

Definition settings : Task.Settings :=
  {| Task.nested_attr_seperator := ".";
     Task.allow_none_metric := false;
     Task.disable_outputs := false |}.

(** The record [{"a": 1, "b": 2, "c": 3}]. *)
Definition abc : dict := [("a", JInt 1); ("b", JInt 2); ("c", JInt 3)].

(** A task extracting the metrics ["a"] and ["b"]. *)
Definition task_ab (static : dict) : Task.config :=
  {| Task.name := "task";
     Task.result_metrics := Some ["a"; "b"];
     Task.result_attributes := None;
     Task.static_attributes := Some static;
     Task.max_retries := 2 |}.

(** A store holding that record under the reference [0]. *)
Definition heap : Task.records := {[ 0%nat := abc ]}.

(** A task with patterns of its own, and no static attributes. *)
Definition task_patterns (patterns : list string) : Task.config :=
  {| Task.name := "task";
     Task.result_metrics := Some patterns;
     Task.result_attributes := None;
     Task.static_attributes := Some [];
     Task.max_retries := 2 |}.

(** The settings with another separator, and with metrics that may be
    [None]. *)
Definition settings_separator (sep : string) : Task.Settings :=
  {| Task.nested_attr_seperator := sep;
     Task.allow_none_metric := false;
     Task.disable_outputs := false |}.

Definition settings_allowing_none : Task.Settings :=
  {| Task.nested_attr_seperator := ".";
     Task.allow_none_metric := true;
     Task.disable_outputs := false |}.

(** The records [{"a": 1, "ab": 2, "c": 3}], [{"c": [1, 2]}],
    [{"a": {"b": 1}, "a.b": 2}] and [{"a": {"k": 1}}]. *)
Definition a_ab_c : dict := [("a", JInt 1); ("ab", JInt 2); ("c", JInt 3)].

Definition with_sequence : dict := [("c", JList [JInt 1; JInt 2])].

Definition with_dotted_key : dict := [("a", JDict [("b", JInt 1)]); ("a.b", JInt 2)].

Definition nested_ak : dict := [("a", JDict [("k", JInt 1)])].

(** A task with a retry budget of its own. *)
Definition task_retries (n : Z) : Task.config :=
  {| Task.name := "task";
     Task.result_metrics := Some ["metric"];
     Task.result_attributes := None;
     Task.static_attributes := Some [];
     Task.max_retries := n |}.

(** An Input whose every call raises; the outside counts the calls. *)
Definition failing_input : Pipeline.input_module nat :=
  {| Pipeline.in_name := "source";
     Pipeline.in_modifiers := {| Pipeline.time_modulus := 1; Pipeline.time_offset := 0 |};
     Pipeline.in_call := fun calls h => (S calls, h, Py.raise (Py.Raised "ConnectionError")) |}.

Definition no_processors : Pipeline.flow nat :=
  {| Pipeline.transforms := []; Pipeline.outputs := [] |}.

(** An Input that hands over the record [{"a": 1, "b": 2, "c": 3}], a
    Transform that leaves the frame as it is, and an Output whose every
    call raises. *)
Definition working_input : Pipeline.input_module nat :=
  {| Pipeline.in_name := "source";
     Pipeline.in_modifiers := {| Pipeline.time_modulus := 1; Pipeline.time_offset := 0 |};
     Pipeline.in_call := fun calls h => (S calls, <[0%nat := abc]> h, Py.ok (Task.One 0%nat)) |}.

Definition unfiltered (kind : Routing.category) : Routing.processor :=
  {| Routing.kind := kind;
     Routing.config_enabled := true;
     Routing.include_inputs := None;
     Routing.exclude_inputs := None;
     Routing.include_tasks := None;
     Routing.exclude_tasks := None |}.

Definition idle_transform : Pipeline.processor_module nat :=
  {| Pipeline.pm_name := "idle";
     Pipeline.pm_routing := unfiltered Routing.Transform;
     Pipeline.pm_modifiers := {| Pipeline.time_modulus := 0; Pipeline.time_offset := 0 |};
     Pipeline.pm_call := fun calls fs _ => (calls, Py.ok fs) |}.

Definition failing_sink : Pipeline.processor_module nat :=
  {| Pipeline.pm_name := "sink";
     Pipeline.pm_routing := unfiltered Routing.Output;
     Pipeline.pm_modifiers := {| Pipeline.time_modulus := 0; Pipeline.time_offset := 0 |};
     Pipeline.pm_call := fun calls _ _ => (calls, Py.raise (Py.Raised "TimeoutError")) |}.

Definition flow_to_sink : Pipeline.flow nat :=
  {| Pipeline.transforms := [idle_transform]; Pipeline.outputs := [failing_sink] |}.

(** An Input that raises [Ignore]. *)
Definition ignoring_input : Pipeline.input_module nat :=
  {| Pipeline.in_name := "source";
     Pipeline.in_modifiers := {| Pipeline.time_modulus := 1; Pipeline.time_offset := 0 |};
     Pipeline.in_call := fun calls h => (S calls, h, Py.raise Py.Ignore) |}.

Definition world0 : Pipeline.world nat :=
  {| Pipeline.ext := 0%nat; Pipeline.frames := ∅; Pipeline.heap := ∅;
     Pipeline.last_module := EmptyString |}.

(** Both clocks advance by one tick with each call of the Input. *)
Definition ticks (calls : nat) : Z := Z.of_nat calls.

(** The sequences of the template example: [[{name: a}, {name: b}]] and
    [[{name: a, x: 1}, {name: c}]]. *)
Definition item (name : string) (more : dict) : json :=
  JDict (("name", JStr name) :: more).

Definition base_ab : list json := [item "a" []; item "b" []].

Definition extension_ac : list json := [item "a" [("x", JInt 1)]; item "c" []].

(** An environment where [A] holds a reference to [B]. *)
Definition os_chain : Os.t :=
  {| Os.environ := {[ "A" := "${B}"; "B" := "x" ]};
     Os.home_of_uid := None;
     Os.passwd := ∅ |}.

(** An environment where [A] holds a reference to itself and more. *)
Definition os_loop : Os.t :=
  {| Os.environ := {[ "A" := "${A}x" ]};
     Os.home_of_uid := None;
     Os.passwd := ∅ |}.

(** An environment with a home directory and a variable [NAME]. *)
Definition os_home : Os.t :=
  {| Os.environ := {[ "HOME" := "/home/u/"; "NAME" := "v" ]};
     Os.home_of_uid := None;
     Os.passwd := ∅ |}.

(** [str] as the requested leaf type. *)
Definition as_str (s : string) : Py.result string := Py.ok s.

(** A frame store with the fresh frame of a run. *)
Definition data : Frame.ref := fst (Frame.new_frame ∅ "task" 0).
Definition frames : Frame.store := snd (Frame.new_frame ∅ "task" 0).

(** The schema of a flow with one PostgreSQL input, as [FlowSchema] and
    the [ModuleValidator] of ["input"] hold it when validation has failed.
    [connection] is the object the module's [connection_schema] returns, a
    [Switch] of two mappings.  Nodes that no walk below visits are
    abridged. *)
Definition connection_a : Validation.schema :=
  Validation.Mapping
    [(Validation.Named "dbname", Validation.Wrapper Validation.Opaque_);
     (Validation.Named "host", Validation.Wrapper Validation.Opaque_);
     (Validation.Named "port", Validation.Wrapper Validation.Opaque_);
     (Validation.Named "auth",
      Validation.Mapping [(Validation.Named "username", Validation.Opaque_);
                          (Validation.Named "password", Validation.Opaque_)]);
     (Validation.Named "min_size", Validation.Opaque_);
     (Validation.Named "max_size", Validation.Opaque_)].

Definition module_schema (connection : Validation.schema) : Validation.schema :=
  Validation.Mapping
    [(Validation.Named "type", Validation.Opaque_);
     (Validation.Named "name", Validation.Opaque_);
     (Validation.Named "enabled", Validation.Opaque_);
     (Validation.Named "connection", connection);
     (Validation.Named "tasks", Validation.Wrapper (Validation.Sequence [Validation.Opaque_]));
     (Validation.Named "modifiers",
      Validation.Mapping [(Validation.Named "time_modulus", Validation.Wrapper Validation.Opaque_);
                          (Validation.Named "time_offset", Validation.Wrapper Validation.Opaque_)])].

Definition flow_schema (connection : Validation.schema) : Validation.schema :=
  Validation.Wrapper
    (Validation.Mapping
       [(Validation.Named "flow",
         Validation.Mapping [(Validation.Named "version", Validation.Opaque_);
                             (Validation.Named "extends", Validation.Wrapper (Validation.Sequence [Validation.Opaque_]));
                             (Validation.Named "settings", Validation.Wrapper (Validation.Mapping []))]);
        (Validation.Named "env",
         Validation.Wrapper (Validation.Mapping [(Validation.Other "<class 'str'>", Validation.Wrapper Validation.Opaque_)]));
        (Validation.Named "input",
         Validation.Wrapper (Validation.Sequence [Validation.Wrapper (module_schema connection)]));
        (Validation.Named "transform", Validation.Wrapper (Validation.Sequence []));
        (Validation.Named "output", Validation.Wrapper (Validation.Sequence []))]).

(** The [Switch] object as the walk sees it: an object without a [schema]
    attribute, or one whose [schema] attribute is the [Schema] that
    compiled it, which leads back to the mapping of the module. *)
Definition switch_plain : Validation.schema := Validation.Opaque_.
Definition switch_compiled : Validation.schema :=
  Validation.Wrapper (Validation.Wrapper (module_schema Validation.Opaque_)).

(** The configuration of [tests/test_modules/test_postgresql.py] with
    ["username"] misspelled. *)
Definition postgres_config : Data.json :=
  Data.JDict
    [("flow", Data.JDict [("version", Data.JStr "v1")]);
     ("input",
      Data.JList
        [Data.JDict
           [("type", Data.JStr "postgresql");
            ("connection",
             Data.JDict
               [("dbname", Data.JStr "test");
                ("auth", Data.JDict [("usernme", Data.JStr "test"); ("password", Data.JStr "test")]);
                ("host", Data.JStr "localhost");
                ("port", Data.JInt 5432)]);
            ("tasks", Data.JList [])]]);
     ("output", Data.JList [Data.JDict [("type", Data.JStr "debug"); ("name", Data.JStr "debug")]])].

Definition auth_path : list Data.pkey :=
  [Data.KStr "input"; Data.KIdx 0; Data.KStr "connection"; Data.KStr "auth"].

(** The errors of the misspelled key. *)
Definition postgres_errors : list Validation.error :=
  [{| Validation.error_class := "Invalid";
      Validation.error_path := auth_path ++ [Data.KStr "usernme"];
      Validation.error_msg := Validation.extra_keys |};
   {| Validation.error_class := "RequiredFieldInvalid";
      Validation.error_path := auth_path ++ [Data.KStr "username"];
      Validation.error_msg := "required key not provided" |}].

(** The schema and the configuration of [test_walk_keys]. *)
Definition walk_schema : Validation.schema :=
  Validation.Wrapper
    (Validation.Mapping
       [(Validation.Named "a",
         Validation.Mapping
           [(Validation.Named "b",
             Validation.Mapping [(Validation.Named "ccc", Validation.Opaque_);
                                 (Validation.Named "ddd", Validation.Opaque_)])])]).

Definition walk_config : Data.json :=
  Data.JDict [("a", Data.JDict [("b", Data.JDict [("ccd", Data.JInt 10)])])].

(** The processor of the routing example of the specification. *)
Definition routing_example : Routing.processor :=
  {| Routing.kind := Routing.Output;
     Routing.config_enabled := true;
     Routing.include_inputs := None;
     Routing.exclude_inputs := None;
     Routing.include_tasks := Some ["foo*"];
     Routing.exclude_tasks := Some ["foobar"] |}.

(** A task that keeps the attribute ["c"] only and has a static
    attribute. *)
Definition task_listed : Task.config :=
  {| Task.name := "task";
     Task.result_metrics := Some ["a"];
     Task.result_attributes := Some ["c"];
     Task.static_attributes := Some [("env", Data.JStr "prod")];
     Task.max_retries := 2 |}.

End Examples.

(** ** Settings ([core/settings.py])

    The class attributes of [Settings] and the keys of
    [Settings.Persistent] are the state; the validators of
    [Settings.__annotations__] are a parameter. *)

Module CoreSettings.

Record state : Type := {
  values : gmap string Data.json;
  persistent : list string
}.

Section Annotations.

(** [Settings.__annotations__[key]]: the validator of a setting, which
    returns the value to store or raises; [None] for a key that has no
    annotation. *)
Variable annotations : string -> option (Data.json -> Py.result Data.json).

(** [Settings.set(key, value, persistent)] *)
Definition set (key : string) (value : Data.json) (persistent_ : bool) (s : state)
  : Py.result state :=
  if existsb (String.eqb key) (persistent s) then Py.ok s
  else
    match annotations key with
    | None => Py.raise Py.KeyError
    | Some validator =>
        match validator value with
        | inr v =>
            Py.ok {| values := <[key := v]> (values s);
                     persistent := if persistent_ then persistent s ++ [key]
                                   else persistent s |}
        | inl e => Py.raise e
        end
    end.

(** [Settings.extend(mapping)]: the settings as the loop leaves them, and
    the exception that ended it, if any. *)
Fixpoint extend (mapping : Data.dict) (s : state) : state * Py.result unit :=
  match mapping with
  | [] => (s, Py.ok tt)
  | (key, value) :: rest =>
      match set key value false s with
      | inr s' => extend rest s'
      | inl e => (s, Py.raise e)
      end
  end.

(** The loop of [load_argv] over the arguments that were passed. *)
Fixpoint load_argv (passed : list (string * Data.json)) (s : state) : state * Py.result unit :=
  match passed with
  | [] => (s, Py.ok tt)
  | (key, value) :: rest =>
      match set key value true s with
      | inr s' => load_argv rest s'
      | inl e => (s, Py.raise e)
      end
  end.

End Annotations.

End CoreSettings.

(** ** Loading extensions ([core/flow.py], [load_extensions])

    The extension files are given by the documents [yaml.safe_load] reads
    from them, in the order of [extension_paths]. *)

Module Flow.

(** A value that is neither a mapping nor a sequence. *)
Definition scalar (v : Data.json) : bool :=
  match v with
  | Data.JList _ | Data.JDict _ => false
  | _ => true
  end.

(** How [load_extensions] ends: with the configuration and the settings,
    with the exit of a failed validation, or with an exception. *)
Inductive loading : Type :=
| Loaded (configuration : Data.json) (settings : CoreSettings.state)
| Exited (status : Z)
| Raised (e : Py.exn).

(** [self.configuration.get("flow", {}).get("settings", {})], as the
    mapping [Settings.extend] iterates. *)
Definition flow_settings (configuration : Data.json) : Py.result Data.dict :=
  match configuration with
  | Data.JDict d =>
      match Data.dict_get "flow" d with
      | None => Py.ok []
      | Some (Data.JDict f) =>
          match Data.dict_get "settings" f with
          | None => Py.ok []
          | Some (Data.JDict m) => Py.ok m
          | Some _ => Py.raise Py.AttributeError
          end
      | Some _ => Py.raise Py.AttributeError
      end
  | _ => Py.raise Py.AttributeError
  end.

Section LoadExtensions.

Variable get_close_matches : string -> list string -> list string.
Variable escaped_str : Data.json -> string.
Variable call : Validation.schema -> Data.json -> list Validation.error + Data.json.
Variable annotations : string -> option (Data.json -> Py.result Data.json).

(** [FlowSchema(required=False)] *)
Variable noreq_schema : Validation.schema.

(** The loop over the documents, in the order it visits them. *)
Fixpoint apply_templates (templates : list Data.json) (configuration : Data.json)
    (s : CoreSettings.state) : loading :=
  match templates with
  | [] => Loaded configuration s
  | template :: rest =>
      if negb (Template.truthy template) then apply_templates rest configuration s
      else
        match Validation.validate get_close_matches escaped_str call template noreq_schema with
        | Validation.Returns _ =>
            match Template.extend configuration template with
            | inr configuration' =>
                match flow_settings configuration' with
                | inr mapping =>
                    match CoreSettings.extend annotations mapping s with
                    | (s', inr _) => apply_templates rest configuration' s'
                    | (_, inl e) => Raised e
                    end
                | inl e => Raised e
                end
            | inl e => Raised e
            end
        | Validation.Exits status _ => Exited status
        | Validation.Raises e _ => Raised e
        end
  end.

(** [load_extensions(extension_paths)] *)
Definition load_extensions (templates : list Data.json) (configuration : Data.json)
    (s : CoreSettings.state) : loading :=
  match Validation.validate get_close_matches escaped_str call configuration noreq_schema with
  | Validation.Returns _ => apply_templates (rev templates) configuration s
  | Validation.Exits status _ => Exited status
  | Validation.Raises e _ => Raised e
  end.

End LoadExtensions.

End Flow.

(** ** Helpers ([core/helpers.py]) *)

Module Helpers.

Import Data.

(** [reduce(operator.getitem, chain, v)] for a chain of [flatten]: a key
    indexes a mapping, an index a sequence. *)
Fixpoint get_chain (chain : list pkey) (v : json) : option json :=
  match chain with
  | [] => Some v
  | KStr k :: rest =>
      match v with
      | JDict d =>
          match dict_get k d with
          | Some x => get_chain rest x
          | None => None
          end
      | _ => None
      end
  | KIdx i :: rest =>
      match v with
      | JList l =>
          match nth_error l i with
          | Some x => get_chain rest x
          | None => None
          end
      | _ => None
      end
  end.

(** A value as Python holds it: no mapping in it has a key twice. *)
Fixpoint unique_keys (v : json) : Prop :=
  match v with
  | JDict d =>
      List.NoDup (map fst d) /\
      (fix all (d : dict) : Prop :=
         match d with
         | [] => True
         | (_, x) :: d' => unique_keys x /\ all d'
         end) d
  | JList l =>
      (fix all (l : list json) : Prop :=
         match l with
         | [] => True
         | x :: l' => unique_keys x /\ all l'
         end) l
  | _ => True
  end.

(** The loops of [flatten] over the items of a sequence and the entries
    of a mapping. *)
Fixpoint flatten_elements (k_chain : list pkey) (i : nat) (l : list json)
  : list (list pkey * json) :=
  match l with
  | [] => []
  | x :: l' => flatten_item (k_chain ++ [KIdx i]) x ++ flatten_elements k_chain (S i) l'
  end.

Fixpoint flatten_entries (k_chain : list pkey) (d : dict) : list (list pkey * json) :=
  match d with
  | [] => []
  | (k, x) :: d' => flatten_item (k_chain ++ [KStr k]) x ++ flatten_entries k_chain d'
  end.

(** A character that is not the separator [c]. *)
Definition other_than (c x : ascii) : bool := negb (Ascii.eqb x c).

(** The keyword arguments that [parse_cron] passes to [crontab]. *)
Record cron_fields : Type := {
  minute : string;
  hour : string;
  day_of_month : string;
  month_of_year : string;
  day_of_week : string
}.

(** [parse_cron(cron_str)], up to the call of [crontab]. *)
Definition parse_cron (cron_str : string) : cron_fields :=
  let parts := split_go " " 0 EmptyString cron_str in
  {| minute := nth 0 parts "*";
     hour := nth 1 parts "*";
     day_of_month := nth 2 parts "*";
     month_of_year := nth 3 parts "*";
     day_of_week := nth 4 parts "*" |}.

End Helpers.

(** ** Routes of a flow ([core/flow.py], [check_filters]; [core/task.py],
      [get_chain])

    A Transform or an Output is given by its name and its filters. *)

Module Routes.

Definition module : Type := (string * Routing.processor)%type.

(** What [check_filters] logs. *)
Inductive warning : Type :=
| NoInput (module_name pattern : string)   (* does not match any Input names *)
| NoTask (module_name pattern : string).   (* does not match any Task names *)

(** [mod.filters[key] or []] *)
Definition filters_or_empty (f : option (list string)) : list string :=
  match f with
  | Some l => l
  | None => []
  end.

(** The filters [f] with [not any(fnmatch(i, f) for i in names)]. *)
Definition unmatched (names patterns : list string) : list string :=
  List.filter (fun f => negb (existsb (fun i => Fnmatch.fnmatch i f) names)) patterns.

(** The body of the loop of [check_filters] for one module. *)
Definition check_module (input_names task_names : list string) (m : module)
  : list warning :=
  map (NoInput (fst m))
      (unmatched input_names
         (filters_or_empty (Routing.include_inputs (snd m))
          ++ filters_or_empty (Routing.exclude_inputs (snd m))))
  ++ map (NoTask (fst m))
      (unmatched task_names
         (filters_or_empty (Routing.include_tasks (snd m))
          ++ filters_or_empty (Routing.exclude_tasks (snd m)))).

(** [check_filters()] *)
Definition check_filters (input_names task_names : list string)
    (transforms outputs : list module) : list warning :=
  flat_map (check_module input_names task_names) (transforms ++ outputs).

(** [get_chain(include_input=False, ignore_enabled)]: the modules after
    the Input. *)
Definition get_chain (disable_outputs : bool) (input_name task_name : string)
    (transforms outputs : list module) (ignore_enabled : bool) : list module :=
  List.filter
    (fun m => Routing.accepts_from disable_outputs (snd m) input_name task_name ignore_enabled)
    (transforms ++ outputs).

(** A character of a pattern that stands for itself. *)
Definition plain_char (c : ascii) : bool :=
  negb (Ascii.eqb c "*" || Ascii.eqb c "?" || Ascii.eqb c "[").

(** A processor without one of its exclude patterns for Inputs. *)
Definition without_exclude_input (f : string) (m : Routing.processor) : Routing.processor :=
  {| Routing.kind := Routing.kind m;
     Routing.config_enabled := Routing.config_enabled m;
     Routing.include_inputs := Routing.include_inputs m;
     Routing.exclude_inputs :=
       option_map (List.filter (fun p => negb (String.eqb p f))) (Routing.exclude_inputs m);
     Routing.include_tasks := Routing.include_tasks m;
     Routing.exclude_tasks := Routing.exclude_tasks m |}.

End Routes.

(** ** Names of modules and tasks ([core/validation/validators.py],
      [ModuleName]) *)

Module Names.

(** [ascii_letters + digits + "_-.+"] *)
Definition allowed : string :=
  "abcdefghijklmnopqrstuvwxyzABCDEFGHIJKLMNOPQRSTUVWXYZ0123456789_-.+".

(** [c in allowed] *)
Definition is_allowed (c : ascii) : bool := Str.mem c allowed.

(** A character of ASCII, on which [str.lower] is the lowering of the
    letters [A] to [Z]. *)
Definition is_ascii (c : ascii) : bool := (nat_of_ascii c <? 128)%nat.

(** [ModuleName(allow_uppercase)(value)] *)
Definition ModuleName (allow_uppercase : bool) (value : Validators.leaf) : Py.result string :=
  match value with
  | Validators.Text s =>
      let s := if allow_uppercase then s else Validators.lower s in
      if Str.all is_allowed s then Py.ok s
      else Py.raise (Py.ValueInvalid
                       ("Module `" ++ s ++ "` contains invalid characters. Allowed: `"
                        ++ allowed ++ "`.")%string)
  | _ =>
      Py.raise (Py.ValueInvalid
                  ("Module name `" ++ Validators.py_str value ++ "` must be a string.")%string)
  end.

End Names.

(** ** Schemas ([core/validation/schemas.py]) *)

Module Schemas.

(** [KeyCount]: [self.keys] and the two bounds of [self.range]. *)
Record KeyCount : Type := {
  keys : list string;
  range_min : Z;
  range_max : Z
}.

(** [KeyCount.__init__(schema, _min, _max)], for the keys of [schema];
    [_max = None] stands for the default [math.inf]. *)
Definition key_count (schema_keys : list string) (_min : Z) (_max : option Z) : KeyCount :=
  {| keys := schema_keys;
     range_min := _min;
     range_max := match _max with
                  | Some m => Z.min m (Z.of_nat (length schema_keys))
                  | None => Z.of_nat (length schema_keys)
                  end |}.

(** [sum(key in v for key in self.keys)] *)
Definition count (self : KeyCount) (v : Data.dict) : Z :=
  Z.of_nat (length (List.filter (fun key => Data.dict_has key v) (keys self))).

(** [repr] of a list of keys that need no escape. *)
Definition repr_keys (l : list string) : string :=
  ("[" ++ String.concat ", " (map (fun k => "'" ++ k ++ "'") l) ++ "]")%string.

Definition count_message (self : KeyCount) : string :=
  ("Only " ++ Str.of_Z (range_min self) ++ " to " ++ Str.of_Z (range_max self)
   ++ " items of " ++ repr_keys (keys self) ++ " can be present")%string.

(** [KeyCount.validate_count(v)]: [v], or the errors of the
    [MultipleInvalid]. *)
Definition validate_count (self : KeyCount) (v : Data.dict)
  : list Validation.error + Data.dict :=
  if (range_min self <=? count self v) && (count self v <=? range_max self)
  then inr v
  else inl (map (fun key => {| Validation.error_class := "ValueInvalid";
                               Validation.error_path := [Data.KStr key];
                               Validation.error_msg := count_message self |})
                (keys self)).

(** The two counts [ModuleValidator.validate] applies to a Transform or
    an Output. *)
Definition conf_tasks : KeyCount :=
  key_count ["include_tasks"; "exclude_tasks"] 0 (Some 1).

Definition conf_inputs : KeyCount :=
  key_count ["include_inputs"; "exclude_inputs"] 0 (Some 1).

(** [check_length(config)] of [repeat_schema], after the coercion of the
    values to lists of strings: the loop over the items, with [first] and
    [length] once they are set. *)
Fixpoint check_lengths (first : string) (length_ : nat) (items : list (string * list string))
  : option Py.exn :=
  match items with
  | [] => None
  | (k, v) :: rest =>
      if Nat.eqb length_ (length v) then check_lengths first length_ rest
      else Some (Py.ValueInvalid
                   ("Length of " ++ k ++ " (" ++ Str.of_Z (Z.of_nat (length v))
                    ++ ") is unequal to " ++ first ++ " (" ++ Str.of_Z (Z.of_nat length_)
                    ++ ")")%string)
  end.

Definition check_length (config : list (string * list string))
  : Py.result (list (string * list string)) :=
  match config with
  | [] => Py.ok config
  | (first, v) :: _ =>
      match check_lengths first (length v) config with
      | Some e => Py.raise e
      | None => Py.ok config
      end
  end.

End Schemas.

(** ** The environment ([core/helpers.py], [load_env_pairs]; the names
      [os.path.expandvars] looks up) *)

Module Environ.

(** The names [expandvars] looks up in a path, in the order of the scan. *)
Fixpoint references_go (skip : nat) (path : string) : list string :=
  match path with
  | EmptyString => []
  | String c rest =>
      match skip with
      | S k => references_go k rest
      | O =>
          if Ascii.eqb c "$" then
            match Os.parse_var rest with
            | Os.Var name n => name :: references_go n rest
            | Os.Unclosed => []
            | Os.NoVar => references_go O rest
            end
          else references_go O rest
      end
  end.

Definition references (path : string) : list string := references_go O path.

(** [load_env_pairs(items)]: [os.environ] after [os.environ |= items]. *)
Definition load_env_pairs (items : list (string * string)) (environ : gmap string string)
  : gmap string string :=
  fold_left (fun env kv => <[fst kv := snd kv]> env) items environ.

(** The operating system after [load_env_pairs(items)]. *)
Definition loaded (items : list (string * string)) (os : Os.t) : Os.t :=
  {| Os.environ := load_env_pairs items (Os.environ os);
     Os.home_of_uid := Os.home_of_uid os;
     Os.passwd := Os.passwd os |}.

End Environ.

(** * Properties *)

(** ** Pattern matching *)

Example fnmatch_star : Fnmatch.fnmatch "foobar_extra" "foo*" = true.
Proof. reflexivity. Qed.

Example fnmatch_class :
  Fnmatch.fnmatch "b" "[a-c]" = true /\ Fnmatch.fnmatch "d" "[a-c]" = false /\
  Fnmatch.fnmatch "d" "[!a-c]" = true /\ Fnmatch.fnmatch "[x" "[?" = true.
Proof. repeat split; reflexivity. Qed.

(** ** Routing *)

Lemma any_match_exists (name : string) (fi : list string) :
  Routing.any_match name fi = true <->
  exists p, In p fi /\ Fnmatch.fnmatch name p = true.
Proof.
  unfold Routing.any_match. rewrite existsb_exists. reflexivity.
Qed.

Lemma any_match_none (name : string) (fi : list string) :
  Routing.any_match name fi = false <->
  forall p, In p fi -> Fnmatch.fnmatch name p = false.
Proof.
  unfold Routing.any_match. split.
  - intros H p Hp. destruct (Fnmatch.fnmatch name p) eqn:E; [|reflexivity].
    assert (existsb (fun q => Fnmatch.fnmatch name q) fi = true) as Hx
      by (apply existsb_exists; exists p; auto).
    congruence.
  - intros H. destruct (existsb _ fi) eqn:E; [|reflexivity].
    apply existsb_exists in E as (p & Hp & Hm). rewrite (H p Hp) in Hm. discriminate.
Qed.

(** C2. Routing: [accepts_from] is the ordered rule of the specification
    (disabled, include sources, exclude sources, include tasks, exclude
    tasks, the first rejecting step deciding); it accepts exactly when the
    processor is enabled or enablement is ignored, some include pattern
    matches whenever an include list is set, and no exclude pattern matches.
    With [include_tasks = ["foo*"]] and [exclude_tasks = ["foobar"]], task
    ["foobar_extra"] is accepted and task ["foobar"] is rejected, at the
    exclude step. *)
Theorem routing_decision :
  (forall d m src task ig,
      Routing.accepts_from d m src task ig =
      match Routing.route d m src task ig with
      | Routing.Accepted => true
      | Routing.Rejected _ => false
      end) /\
  (forall d m src task ig,
      Routing.accepts_from d m src task ig = true <->
      (Routing.enabled d m = true \/ ig = true) /\
      (forall fi, Routing.include_inputs m = Some fi ->
                  exists p, In p fi /\ Fnmatch.fnmatch src p = true) /\
      (forall fi, Routing.exclude_inputs m = Some fi ->
                  forall p, In p fi -> Fnmatch.fnmatch src p = false) /\
      (forall fi, Routing.include_tasks m = Some fi ->
                  exists p, In p fi /\ Fnmatch.fnmatch task p = true) /\
      (forall fi, Routing.exclude_tasks m = Some fi ->
                  forall p, In p fi -> Fnmatch.fnmatch task p = false)) /\
  (forall src, Routing.accepts_from false Examples.routing_example src "foobar_extra" false = true) /\
  (forall src, Routing.route false Examples.routing_example src "foobar" false = Routing.Rejected 5) /\
  (forall src, Routing.accepts_from false Examples.routing_example src "foobar" false = false).
Proof.
  split; [|split; [|repeat split; reflexivity]].
  - intros d m src task ig.
    unfold Routing.accepts_from, Routing.route, Routing.steps,
      Routing.include_rejects, Routing.exclude_rejects, Routing.any_match.
    simpl.
    destruct (negb (Routing.enabled d m) && negb ig); [reflexivity|].
    destruct (Routing.include_inputs m) as [fi|];
      [destruct (negb (existsb _ fi)); [reflexivity|]|];
    (destruct (Routing.exclude_inputs m) as [fe|];
      [destruct (existsb _ fe); [reflexivity|]|]);
    (destruct (Routing.include_tasks m) as [ti|];
      [destruct (negb (existsb _ ti)); [reflexivity|]|]);
    (destruct (Routing.exclude_tasks m) as [te|];
      [destruct (existsb _ te); reflexivity|reflexivity]).
  - intros d m src task ig. unfold Routing.accepts_from.
    destruct (Routing.enabled d m) eqn:En, ig eqn:Ig; simpl;
      try (split; [discriminate | intros [[?|?] _]; discriminate]).
    all: destruct (Routing.include_inputs m) as [fi|];
      destruct (Routing.exclude_inputs m) as [fe|];
      destruct (Routing.include_tasks m) as [ti|];
      destruct (Routing.exclude_tasks m) as [te|].
    all: repeat match goal with
      | |- context [Routing.any_match ?n ?l] =>
          let E := fresh "E" in destruct (Routing.any_match n l) eqn:E; simpl
      end.
    all: repeat match goal with
      | H : Routing.any_match _ _ = true |- _ => apply any_match_exists in H
      | H : Routing.any_match _ _ = false |- _ =>
          pose proof (proj1 (any_match_none _ _) H); clear H
      end.
    all: split;
      [ try discriminate; intros _; repeat split; auto;
        intros ? [= <-]; auto
      | try reflexivity; intros (_ & Hii & Hei & Hit & Het) ].
    all: exfalso.
    all: repeat match goal with
      | H : forall fi, Some ?l = Some fi -> _ |- _ => specialize (H l eq_refl)
      end.
    all: repeat match goal with
      | H : exists p, _ /\ _ |- _ => destruct H as (? & ? & ?)
      end.
    all: repeat match goal with
      | H : forall p, In p ?l -> Fnmatch.fnmatch ?n p = false,
        H1 : In ?q ?l, H2 : Fnmatch.fnmatch ?n ?q = true |- _ =>
          rewrite (H q H1) in H2; discriminate
      end.
Qed.

(** ** Dictionaries and paths *)

(** Induction on a value and the values it holds. *)
Lemma json_induction (P : Data.json -> Prop) :
  P Data.JNull -> (forall b, P (Data.JBool b)) -> (forall z, P (Data.JInt z)) ->
  (forall s, P (Data.JStr s)) ->
  (forall l, Forall P l -> P (Data.JList l)) ->
  (forall d, Forall (fun kv => P (snd kv)) d -> P (Data.JDict d)) ->
  forall v, P v.
Proof.
  intros Hnull Hbool Hint Hstr Hlist Hdict.
  fix IH 1. intros [| b | z | s | l | d].
  - exact Hnull.
  - apply Hbool.
  - apply Hint.
  - apply Hstr.
  - apply Hlist. induction l as [|x l IHl]; constructor; [apply IH|exact IHl].
  - apply Hdict. induction d as [|[k x] d IHd]; constructor; [apply IH|exact IHd].
Qed.


Section DictFacts.

Import Data.

Lemma dict_get_del_same (k : string) (d : dict) :
  dict_get k (dict_del k d) = None.
Proof.
  induction d as [|[k' v] d IH]; simpl; [reflexivity|].
  destruct (String.eqb k k') eqn:E; simpl; [exact IH|].
  rewrite E. exact IH.
Qed.

Lemma dict_get_del_other (k k' : string) (d : dict) :
  k <> k' -> dict_get k' (dict_del k d) = dict_get k' d.
Proof.
  intros Hne. induction d as [|[k0 v] d IH]; simpl; [reflexivity|].
  destruct (String.eqb k k0) eqn:E; simpl.
  - apply String.eqb_eq in E. subst k0.
    destruct (String.eqb k' k) eqn:E'; [|exact IH].
    apply String.eqb_eq in E'. congruence.
  - rewrite IH. reflexivity.
Qed.

Lemma dict_get_set_same (k : string) (v : json) (d : dict) :
  dict_get k (dict_set k v d) = Some v.
Proof.
  induction d as [|[k' v'] d IH]; simpl.
  - rewrite String.eqb_refl. reflexivity.
  - destruct (String.eqb k k') eqn:E; simpl; rewrite E; [reflexivity|exact IH].
Qed.

Lemma dict_get_set_other (k k' : string) (v : json) (d : dict) :
  k <> k' -> dict_get k' (dict_set k v d) = dict_get k' d.
Proof.
  intros Hne. induction d as [|[k0 v0] d IH]; simpl.
  - destruct (String.eqb k' k) eqn:E; [|reflexivity].
    apply String.eqb_eq in E. congruence.
  - destruct (String.eqb k k0) eqn:E; simpl.
    + apply String.eqb_eq in E. subst k0.
      destruct (String.eqb k' k) eqn:E'; [|reflexivity].
      apply String.eqb_eq in E'. congruence.
    + rewrite IH. reflexivity.
Qed.

(** A pop removes the path it was asked for. *)
Lemma pop_path_absent (chain : list string) (top : string) :
  forall v x v',
    pop_path chain top v = inr (x, v') ->
    has_path (chain ++ [top]) v' = false.
Proof.
  induction chain as [|k chain IH]; intros v x v' H; simpl in *.
  - destruct v; try discriminate.
    unfold dict_pop in H. destruct (dict_get top entries); [|discriminate].
    injection H as <- <-. rewrite dict_get_del_same. reflexivity.
  - destruct v; try discriminate.
    destruct (dict_get k entries) as [child|]; [|discriminate].
    destruct (pop_path chain top child) as [e|[y child']] eqn:E; [discriminate|].
    injection H as <- <-. rewrite dict_get_set_same. eapply IH; eauto.
Qed.

(** A pop adds nothing: a path that was absent stays absent. *)
Lemma pop_path_keeps_absent (chain : list string) (top : string) :
  forall path v x v',
    has_path path v = false ->
    pop_path chain top v = inr (x, v') ->
    has_path path v' = false.
Proof.
  induction chain as [|k chain IH]; intros path v x v' Habs H; simpl in *.
  - destruct v; try discriminate.
    unfold dict_pop in H. destruct (dict_get top entries); [|discriminate].
    injection H as <- <-.
    destruct path as [|q path]; [discriminate|]. simpl in *.
    destruct (String.eqb_spec top q) as [->|Hne].
    + rewrite dict_get_del_same. reflexivity.
    + rewrite dict_get_del_other by exact Hne. exact Habs.
  - destruct v; try discriminate.
    destruct (dict_get k entries) as [child|] eqn:Ek; [|discriminate].
    destruct (pop_path chain top child) as [e|[y child']] eqn:E; [discriminate|].
    injection H as <- <-.
    destruct path as [|q path]; [discriminate|]. simpl in *.
    destruct (String.eqb_spec k q) as [->|Hne].
    + rewrite dict_get_set_same. rewrite Ek in Habs. eapply IH; eauto.
    + rewrite dict_get_set_other by exact Hne. exact Habs.
Qed.

Lemma pop_record_path (chain : list string) (top : string) (obj obj' : dict) (x : json) :
  pop_record chain top obj = inr (x, obj') ->
  pop_path chain top (JDict obj) = inr (x, JDict obj').
Proof.
  destruct chain as [|k chain]; simpl.
  - destruct (dict_pop top obj) as [[y d']|]; [|discriminate].
    intros [= <- <-]. reflexivity.
  - destruct (dict_get k obj) as [child|]; [|discriminate].
    destruct (pop_path chain top child) as [e|[y child']]; [discriminate|].
    intros [= <- <-]. reflexivity.
Qed.

Lemma split_go_nonempty (sep : string) :
  forall s skip cur, split_go sep skip cur s <> [].
Proof.
  induction s as [|c s IH]; intros skip cur; cbn [split_go]; [easy|].
  destruct skip; [|apply IH].
  destruct (String.prefix sep (String c s)); [easy|apply IH].
Qed.

Lemma split_nonempty (sep s : string) (parts : list string) :
  split sep s = inr parts -> parts <> [].
Proof.
  unfold split. destruct sep; [discriminate|].
  intros [= <-]. apply split_go_nonempty.
Qed.

End DictFacts.

(** ** Metric extraction *)

Section Extraction.

Import Data.

Variable sep : string.

(** Whatever its outcome, the inner loop only removes entries. *)
Lemma claim_keeps_absent (matched : list string) :
  forall obj keys obj' keys' r,
    Task.claim sep matched obj keys = (obj', keys', r) ->
    forall path, has_path path (JDict obj) = false ->
                 has_path path (JDict obj') = false.
Proof.
  induction matched as [|key rest IH]; intros obj keys obj' keys' r H path Habs;
    simpl in H.
  - injection H as <- <- <-. exact Habs.
  - destruct (split sep key) as [e|parts]; simpl in H.
    { injection H as <- <- <-. exact Habs. }
    destruct (pop_record _ _ obj) as [e|[value obj1]] eqn:Epop.
    { injection H as <- <- <-. exact Habs. }
    destruct (Task.claim sep rest obj1 _) as [[obj2 keys2] r2] eqn:Erest.
    injection H as <- <- <-.
    eapply IH; [exact Erest|].
    eapply pop_path_keeps_absent; [exact Habs|].
    apply pop_record_path. exact Epop.
Qed.

Lemma claim_spec (matched : list string) :
  forall obj keys obj' keys' ys,
    Task.claim sep matched obj keys = (obj', keys', inr ys) ->
    map fst ys = matched /\
    keys' = List.filter
              (fun k => negb (existsb (fun key => String.eqb key k) matched)) keys /\
    (forall key, In key matched -> Task.lacks_key sep key obj' = true).
Proof.
  induction matched as [|key rest IH]; intros obj keys obj' keys' ys H; simpl in H.
  - injection H as <- <- <-. repeat split.
    + simpl. induction keys as [|k keys IHk]; simpl; congruence.
    + intros key [].
  - destruct (split sep key) as [e|parts] eqn:Esplit; simpl in H; [discriminate|].
    destruct (pop_record _ _ obj) as [e|[value obj1]] eqn:Epop; [discriminate|].
    destruct (Task.claim sep rest obj1 _) as [[obj2 keys2] r2] eqn:Erest.
    destruct r2 as [e|ys2]; [discriminate|].
    injection H as <- <- <-.
    destruct (IH _ _ _ _ _ Erest) as (Hfst & Hkeys & Hlack).
    repeat split.
    + simpl. rewrite Hfst. reflexivity.
    + rewrite Hkeys. clear.
      induction keys as [|k keys IHk]; simpl; [reflexivity|].
      destruct (String.eqb key k); simpl; [exact IHk|].
      destruct (existsb _ rest); simpl; [exact IHk|]. rewrite IHk. reflexivity.
    + intros k [<-|Hin]; [|apply Hlack; exact Hin].
      unfold Task.lacks_key. rewrite Esplit.
      apply negb_true_iff.
      eapply claim_keeps_absent; [exact Erest|].
      rewrite (app_removelast_last EmptyString (split_nonempty _ _ _ Esplit)).
      eapply pop_path_absent. apply pop_record_path. exact Epop.
Qed.

(** The pool after one pattern: the keys it did not match. *)
Lemma pool_after_pattern (keys : list string) (p : string) :
  List.filter
    (fun k => negb (existsb (fun key => String.eqb key k) (Fnmatch.filter keys p)))
    keys
  = List.filter (fun k => negb (Fnmatch.fnmatch k p)) keys.
Proof.
  apply filter_ext_in. intros k Hk. f_equal.
  destruct (Fnmatch.fnmatch k p) eqn:E.
  - apply existsb_exists. exists k. split; [|apply String.eqb_refl].
    unfold Fnmatch.filter. apply filter_In. auto.
  - destruct (existsb _ _) eqn:Ex; [|reflexivity].
    apply existsb_exists in Ex as (k' & Hin & Heq).
    apply String.eqb_eq in Heq. subst k'.
    unfold Fnmatch.filter in Hin. apply filter_In in Hin as [_ Hm]. congruence.
Qed.

Lemma extract_loop_keeps_absent (patterns : list string) :
  forall obj keys obj' r,
    Task.extract_loop sep patterns obj keys = (obj', r) ->
    forall path, has_path path (JDict obj) = false ->
                 has_path path (JDict obj') = false.
Proof.
  induction patterns as [|p rest IH]; intros obj keys obj' r H path Habs; simpl in H.
  - injection H as <- <-. exact Habs.
  - destruct (Task.claim sep _ obj keys) as [[obj1 keys1] r1] eqn:Eclaim.
    pose proof (claim_keeps_absent _ _ _ _ _ _ Eclaim path Habs) as H1.
    destruct r1 as [e|ys]; [injection H as <- <-; exact H1|].
    destruct (Task.extract_loop sep rest obj1 keys1) as [obj2 r2] eqn:Erest.
    injection H as <- <-. eapply IH; eauto.
Qed.

Lemma extract_loop_spec (patterns : list string) :
  forall obj keys obj' pairs,
    Task.extract_loop sep patterns obj keys = (obj', inr pairs) ->
    map fst pairs = Task.claimed patterns keys /\
    (forall key, In key (map fst pairs) -> Task.lacks_key sep key obj' = true).
Proof.
  induction patterns as [|p rest IH]; intros obj keys obj' pairs H; simpl in H.
  - injection H as <- <-. split; [reflexivity|intros key []].
  - destruct (Task.claim sep _ obj keys) as [[obj1 keys1] r1] eqn:Eclaim.
    destruct r1 as [e|ys]; [discriminate|].
    destruct (Task.extract_loop sep rest obj1 keys1) as [obj2 r2] eqn:Erest.
    destruct r2 as [e|zs]; [discriminate|].
    injection H as <- <-.
    destruct (claim_spec _ _ _ _ _ _ Eclaim) as (Hfst & Hkeys & Hlack).
    rewrite pool_after_pattern in Hkeys. subst keys1.
    destruct (IH _ _ _ _ Erest) as (Hfst2 & Hlack2).
    split.
    + simpl. rewrite map_app, Hfst, Hfst2. reflexivity.
    + intros key Hin. rewrite map_app in Hin. apply in_app_iff in Hin as [Hin|Hin].
      * rewrite Hfst in Hin. specialize (Hlack key Hin).
        unfold Task.lacks_key in *.
        destruct (split sep key) as [e|parts]; [reflexivity|].
        apply negb_true_iff. apply negb_true_iff in Hlack.
        eapply extract_loop_keeps_absent; eauto.
      * apply Hlack2. exact Hin.
Qed.

End Extraction.

(** The keys the patterns claim are keys of the pool that some pattern
    matches, and each is claimed once. *)
Lemma claimed_In (patterns pool : list string) (k : string) :
  In k (Task.claimed patterns pool) <->
  In k pool /\ exists p, In p patterns /\ Fnmatch.fnmatch k p = true.
Proof.
  revert pool. induction patterns as [|p rest IH]; intros pool; simpl.
  - split; [intros []|intros (_ & q & [] & _)].
  - rewrite in_app_iff, IH. unfold Fnmatch.filter. rewrite !filter_In. split.
    + intros [[Hin Hm]|[[Hin Hn] (q & Hq & Hm)]].
      * split; [exact Hin|]. exists p. auto.
      * split; [exact Hin|]. exists q. auto.
    + intros (Hin & q & [<-|Hq] & Hm).
      * left. auto.
      * destruct (Fnmatch.fnmatch k p) eqn:E; [left; auto|].
        right. repeat split; auto. exists q. auto.
Qed.

Lemma claimed_NoDup (patterns pool : list string) :
  List.NoDup pool -> List.NoDup (Task.claimed patterns pool).
Proof.
  revert pool. induction patterns as [|p rest IH]; intros pool Hnd; simpl.
  - constructor.
  - apply List.NoDup_app.
    + apply List.NoDup_filter. exact Hnd.
    + apply IH. apply List.NoDup_filter. exact Hnd.
    + intros k Hin Hin2. unfold Fnmatch.filter in Hin.
      apply filter_In in Hin as [_ Hm].
      apply claimed_In in Hin2 as [Hin2 _].
      apply filter_In in Hin2 as [_ Hn]. rewrite Hm in Hn. discriminate.
Qed.

Lemma uniq_In (l : list string) (x : string) : In x (Data.uniq l) <-> In x l.
Proof.
  induction l as [|y l IH]; simpl; [reflexivity|].
  rewrite filter_In, IH. split.
  - intros [->|[H _]]; auto.
  - intros [->|H]; [auto|].
    destruct (String.eqb_spec y x) as [->|Hne]; [auto|].
    right. split; [exact H|]. reflexivity.
Qed.

Lemma uniq_NoDup (l : list string) : List.NoDup (Data.uniq l).
Proof.
  induction l as [|x l IH]; simpl; constructor.
  - intros Hin. apply filter_In in Hin as [_ Hne].
    rewrite String.eqb_refl in Hne. discriminate.
  - apply List.NoDup_filter. exact IH.
Qed.

Section ProcessFrame.

Import Data.

Lemma dict_get_app (k : string) (d e : dict) :
  dict_get k (d ++ e) =
  match dict_get k d with Some v => Some v | None => dict_get k e end.
Proof.
  induction d as [|[k' v] d IH]; simpl; [reflexivity|].
  destruct (String.eqb k k'); [reflexivity|exact IH].
Qed.

Lemma dict_set_fresh (k : string) (v : json) (d : dict) :
  dict_get k d = None -> dict_set k v d = d ++ [(k, v)].
Proof.
  induction d as [|[k' v'] d IH]; simpl; [reflexivity|].
  destruct (String.eqb k k'); [discriminate|].
  intros H. rewrite IH by exact H. reflexivity.
Qed.

Lemma dict_get_not_In (k : string) (d : dict) :
  ~ In k (map fst d) -> dict_get k d = None.
Proof.
  induction d as [|[k' v] d IH]; simpl; [reflexivity|].
  intros H. destruct (String.eqb_spec k k') as [->|Hne]; [tauto|].
  apply IH. tauto.
Qed.

(** [d | e] appends [e] when its keys are new and distinct. *)
Lemma dict_union_fresh (e : dict) :
  forall d,
    List.NoDup (map fst e) ->
    (forall k, In k (map fst e) -> dict_get k d = None) ->
    dict_union d e = d ++ e.
Proof.
  unfold dict_union.
  induction e as [|[k v] e IH]; intros d Hnd Hfresh; simpl.
  - rewrite app_nil_r. reflexivity.
  - simpl in Hnd. apply List.NoDup_cons_iff in Hnd as [Hk Hnd].
    rewrite dict_set_fresh by (apply Hfresh; simpl; auto).
    rewrite IH.
    + rewrite <- app_assoc. reflexivity.
    + exact Hnd.
    + intros k' Hin. rewrite dict_get_app, Hfresh by (simpl; auto). simpl.
      destruct (String.eqb_spec k' k) as [->|Hne]; [tauto|reflexivity].
Qed.

Lemma dict_of_pairs_NoDup (pairs : list (string * json)) :
  List.NoDup (map fst pairs) -> dict_of_pairs pairs = pairs.
Proof.
  intros Hnd. unfold dict_of_pairs. rewrite dict_union_fresh; auto.
Qed.

(** [d | e] leaves alone the keys [e] does not have. *)
Lemma dict_get_union_other (k : string) (e : dict) :
  forall d, dict_has k e = false -> dict_get k (dict_union d e) = dict_get k d.
Proof.
  unfold dict_union, dict_has.
  induction e as [|[k' v] e IH]; intros d H; simpl in *; [reflexivity|].
  destruct (String.eqb_spec k k') as [->|Hne]; [discriminate|].
  rewrite IH by exact H. apply dict_get_set_other. congruence.
Qed.

Lemma dict_get_filter_key (f : string -> bool) (k : string) (d : dict) :
  dict_get k (List.filter (fun kv => f (fst kv)) d) =
  if f k then dict_get k d else None.
Proof.
  induction d as [|[k' v] d IH]; simpl; [destruct (f k); reflexivity|].
  destruct (f k') eqn:Ef; simpl.
  - destruct (String.eqb_spec k k') as [->|Hne]; [rewrite Ef; reflexivity|exact IH].
  - destruct (String.eqb_spec k k') as [->|Hne]; [rewrite IH, Ef; reflexivity|exact IH].
Qed.

Lemma keep_attributes_absent (cfg : Task.config) (frame : dict) (path : list string) :
  has_path path (JDict frame) = false ->
  has_path path (JDict (Task.keep_attributes cfg frame)) = false.
Proof.
  unfold Task.keep_attributes.
  destruct (Task.result_attributes cfg) as [attr|]; [|auto].
  destruct path as [|k path]; simpl; [auto|].
  rewrite (dict_get_filter_key (fun k => existsb (String.eqb k) attr)).
  destruct (existsb _ attr); auto.
Qed.

Lemma append_metrics_spec (st : Task.Settings) (cfg : Task.config) (frame : dict) :
  forall entries ms,
    Task.append_metrics st cfg frame entries = inr ms ->
    map (fun m => (Frame.metric_field_name m, Frame.metric m)) ms = entries /\
    (forall m static, In m ms -> Task.static_attributes cfg = Some static ->
                      Frame.attributes m = dict_union frame static) /\
    (entries <> [] -> exists static, Task.static_attributes cfg = Some static).
Proof.
  induction entries as [|[nm value] rest IH]; intros ms H; simpl in H.
  - injection H as <-. repeat split; [intros m static []|congruence].
  - unfold Task.attributes_of in H.
    destruct (Task.static_attributes cfg) as [static|] eqn:Es; [|discriminate].
    simpl in H.
    destruct (Frame.new_metric _ _ value nm) as [e|m] eqn:Em; [discriminate|].
    simpl in H.
    destruct (Task.append_metrics st cfg frame rest) as [e|ms'] eqn:Er; [discriminate|].
    simpl in H. injection H as <-.
    destruct (IH _ eq_refl) as (Hmap & Hattr & _).
    assert (Frame.metric_field_name m = nm /\ Frame.metric m = value /\
            Frame.attributes m = dict_union frame static) as (Hn & Hv & Ha).
    { unfold Frame.new_metric in Em.
      destruct value; try (injection Em as <-; auto).
      destruct (Task.allow_none_metric st); [|discriminate].
      injection Em as <-; auto. }
    repeat split.
    + simpl. rewrite Hn, Hv, Hmap. reflexivity.
    + intros m0 static0 [<-|Hin] [= <-]; [exact Ha|].
      apply Hattr; [exact Hin|reflexivity].
    + intros _. exists static. reflexivity.
Qed.

Lemma metric_entries_nonempty (metrics : dict) : Task.metric_entries metrics <> [].
Proof. destruct metrics; simpl; easy. Qed.

End ProcessFrame.

Lemma process_frame_spec (st : Task.Settings) (cfg : Task.config)
    (obj obj' : Data.dict) (ms : list Frame.Metric) :
  Task.process_frame st cfg obj = (obj', inr ms) ->
  exists pairs static,
    Task.extract_metrics obj (Task.nested_attr_seperator st)
      (Task.result_metrics cfg) = (obj', inr pairs) /\
    Task.static_attributes cfg = Some static /\
    map fst pairs =
      Task.claimed (match Task.result_metrics cfg with Some l => l | None => [] end)
        (Task.flat_keys (Task.nested_attr_seperator st) obj) /\
    List.NoDup (map fst pairs) /\
    map (fun m => (Frame.metric_field_name m, Frame.metric m)) ms =
      Task.metric_entries pairs /\
    (forall k, In k (map fst pairs) ->
               Task.lacks_key (Task.nested_attr_seperator st) k obj' = true) /\
    (forall m, In m ms ->
       Frame.attributes m =
         Data.dict_union (Task.keep_attributes cfg obj') static /\
       forall k, In k (map fst pairs) ->
         Data.dict_has (Task.top_key (Task.nested_attr_seperator st) k) static = false ->
         Task.lacks_key (Task.nested_attr_seperator st) k (Frame.attributes m) = true).
Proof.
  intros H. unfold Task.process_frame in H.
  destruct (Task.extract_metrics obj _ _) as [obj1 r] eqn:Eex.
  destruct r as [e|pairs]; [discriminate|].
  injection H as <- Happ.
  unfold Task.extract_metrics in Eex.
  destruct (extract_loop_spec _ _ _ _ _ _ Eex) as (Hfst & Hlack).
  assert (List.NoDup (map fst pairs)) as Hnd.
  { rewrite Hfst. apply claimed_NoDup. apply uniq_NoDup. }
  rewrite dict_of_pairs_NoDup in Happ by exact Hnd.
  destruct (append_metrics_spec _ _ _ _ _ Happ) as (Hmap & Hattr & Hstatic).
  destruct (Hstatic (metric_entries_nonempty pairs)) as [static Es].
  exists pairs, static.
  split; [reflexivity|]. split; [exact Es|]. split; [exact Hfst|].
  split; [exact Hnd|]. split; [exact Hmap|]. split; [exact Hlack|].
  intros m Hm. split; [apply Hattr; assumption|].
  intros k Hk Htop. specialize (Hlack k Hk).
  rewrite (Hattr m static) by assumption.
  unfold Task.lacks_key, Task.top_key in *.
  destruct (Data.split _ k) as [e|parts]; [reflexivity|].
  apply negb_true_iff. apply negb_true_iff in Hlack.
  apply (keep_attributes_absent cfg) in Hlack.
  destruct parts as [|top parts]; [discriminate|].
  simpl in *. rewrite dict_get_union_other by exact Htop. exact Hlack.
Qed.

(** ** Extraction in place *)

Section InPlace.

Import Data.

Lemma shrinks_refl (a : dict) : Task.shrinks a a.
Proof. intros path H. exact H. Qed.

Lemma shrinks_trans (a b c : dict) :
  Task.shrinks a b -> Task.shrinks b c -> Task.shrinks a c.
Proof. intros Hab Hbc path H. apply Hbc, Hab, H. Qed.

Lemma lacks_key_shrinks (sep k : string) (a b : dict) :
  Task.shrinks a b -> Task.lacks_key sep k a = true -> Task.lacks_key sep k b = true.
Proof.
  unfold Task.lacks_key. intros Hs H.
  destruct (split sep k) as [e|parts]; [reflexivity|].
  apply negb_true_iff. apply negb_true_iff in H. apply Hs, H.
Qed.

(** Whatever its outcome, the loop body only removes entries from the
    record. *)
Lemma process_frame_shrinks (st : Task.Settings) (cfg : Task.config)
    (obj obj' : dict) (r : Py.result (list Frame.Metric)) :
  Task.process_frame st cfg obj = (obj', r) -> Task.shrinks obj obj'.
Proof.
  unfold Task.process_frame, Task.extract_metrics.
  destruct (Task.extract_loop _ _ obj _) as [obj1 r1] eqn:E.
  intros H path Habs.
  assert (obj' = obj1) as -> by (destruct r1; congruence).
  eapply extract_loop_keeps_absent; eauto.
Qed.

Lemma field_name_claimed (pairs : list (string * json)) (ms : list Frame.Metric)
    (m : Frame.Metric) (k : string) :
  map (fun m => (Frame.metric_field_name m, Frame.metric m)) ms =
    Task.metric_entries pairs ->
  In m ms -> Frame.metric_field_name m = Some k -> In k (map fst pairs).
Proof.
  intros Hmap Hin Hk.
  assert (In (Some k) (map fst (Task.metric_entries pairs))) as H.
  { rewrite <- Hmap, map_map. simpl. rewrite <- Hk.
    apply (in_map Frame.metric_field_name). exact Hin. }
  clear Hmap Hin Hk.
  destruct pairs as [|p pairs]; simpl in H.
  - destruct H as [H|[]]. discriminate.
  - destruct H as [H|H]; [left; congruence|]. right.
    apply in_map_iff in H as (kv & Hkv1 & Hkv2).
    apply in_map_iff in Hkv2 as (kv' & <- & Hkv2). simpl in Hkv1.
    injection Hkv1 as <-. apply in_map. exact Hkv2.
Qed.

Variables (st : Task.Settings) (cfg : Task.config).

Abbreviation patterns := (match Task.result_metrics cfg with Some l => l | None => [] end).

Lemma process_frames_spec (refs : list nat) :
  forall heap heap' r,
    Task.process_frames st cfg heap refs = (heap', r) ->
    (forall x, ~ In x refs -> heap' !! x = heap !! x) /\
    (forall x obj, heap !! x = Some obj ->
                   exists obj', heap' !! x = Some obj' /\ Task.shrinks obj obj') /\
    (forall queue, r = inr queue ->
       (exists visits,
           map (fun v => fst (fst v)) visits = refs /\
           concat (map snd visits) = queue /\
           Forall (Task.visit_ok st cfg refs heap heap') visits) /\
       (forall x, In x refs ->
          exists obj final,
            heap !! x = Some obj /\ heap' !! x = Some final /\ Task.shrinks obj final /\
            (forall k, In k (Task.claimed patterns
                               (Task.flat_keys (Task.nested_attr_seperator st) obj)) ->
                       Task.lacks_key (Task.nested_attr_seperator st) k final = true) /\
            (count_occ Nat.eq_dec refs x = 1%nat ->
             exists ms, Task.process_frame st cfg obj = (final, inr ms)))).
Proof.
  induction refs as [|x refs IH]; intros heap heap' r H; simpl in H.
  - injection H as <- <-. repeat split; auto.
    + intros y obj Hy. exists obj. split; [exact Hy|apply shrinks_refl].
    + injection H as <-. exists []. repeat split; constructor.
    + intros y [].
  - destruct (heap !! x) as [obj|] eqn:Hx.
    2:{ injection H as <- <-. repeat split; auto.
        - intros y o Hy. exists o. split; [exact Hy|apply shrinks_refl].
        - discriminate.
        - discriminate. }
    destruct (Task.process_frame st cfg obj) as [obj1 res] eqn:Epf.
    pose proof (process_frame_shrinks _ _ _ _ _ Epf) as Hsh.
    assert (forall y o, heap !! y = Some o ->
              exists o1, <[x:=obj1]> heap !! y = Some o1 /\ Task.shrinks o o1) as Hstep.
    { intros y o Hy. destruct (decide (x = y)) as [<-|Hne].
      - rewrite lookup_insert_eq. exists obj1. split; [reflexivity|].
        rewrite Hx in Hy. injection Hy as <-. exact Hsh.
      - rewrite lookup_insert_ne by exact Hne. exists o.
        split; [exact Hy|apply shrinks_refl]. }
    destruct res as [e|ms].
    { injection H as <- <-. split; [|split].
      - intros y Hy. apply lookup_insert_ne. intros ->. apply Hy. left. reflexivity.
      - exact Hstep.
      - intros queue [=]. }
    destruct (Task.process_frames st cfg (<[x:=obj1]> heap) refs) as [heap2 res2] eqn:Erest.
    assert (heap' = heap2) as -> by (destruct res2; congruence).
    destruct (IH _ _ _ Erest) as (Hout & Hin & Hvis).
    split; [|split].
    + intros y Hy. rewrite Hout by (intros Hy'; apply Hy; right; exact Hy').
      apply lookup_insert_ne. intros ->. apply Hy. left. reflexivity.
    + intros y o Hy. destruct (Hstep y o Hy) as (o1 & Ho1 & Hs1).
      destruct (Hin y o1 Ho1) as (o2 & Ho2 & Hs2).
      exists o2. split; [exact Ho2|eapply shrinks_trans; eauto].
    + intros queue Hq. subst r. cbv [Py.raise Py.ok] in H.
      destruct res2 as [e|ms2]; [discriminate|].
      injection H as <-.
      destruct (Hvis ms2 eq_refl) as ((visits & Hrefs & Hqueue & Hall) & Horig).
      destruct (process_frame_spec _ _ _ _ _ Epf)
        as (pairs & static & Hex & Hst & Hclaimed & _ & Hmap & Hlack & Hattr).
      destruct (Hin x obj1 (lookup_insert_eq _ _ _)) as (final & Hfinal & Hsf).
      assert (count_occ Nat.eq_dec (x :: refs) x = 1%nat -> final = obj1) as Honce.
      { simpl. destruct (Nat.eq_dec x x) as [_|[]]; [|reflexivity].
        intros [= Hc]. apply (count_occ_not_In Nat.eq_dec) in Hc.
        rewrite (Hout x Hc), lookup_insert_eq in Hfinal. congruence. }
      assert (forall k, In k (map fst pairs) ->
                Task.lacks_key (Task.nested_attr_seperator st) k final = true) as Hgone.
      { intros k Hk. eapply lacks_key_shrinks; [exact Hsf|]. apply Hlack. exact Hk. }
      split.
      * exists ((x, obj1, ms) :: visits). split; [simpl; congruence|].
        split; [simpl; congruence|].
        constructor.
        -- split; [left; reflexivity|].
           exists obj, obj, pairs, static, final.
           split; [exact Hx|]. split; [apply shrinks_refl|]. split; [exact Hex|].
           split; [exact Hclaimed|]. split; [exact Hmap|]. split; [exact Hst|].
           split; [intros m Hm; apply Hattr; exact Hm|].
           split; [exact Hfinal|]. split; [exact Hsf|]. split; [exact Honce|exact Hgone].
        -- eapply List.Forall_impl; [|exact Hall].
           intros [[y leftover] msy]
             (Hy & orig1 & before & prs & stat & fin & H1 & H2 & H3 & H4 & H5 & H6 & H7
                 & H8 & H9 & H10 & H11).
           split; [right; exact Hy|].
           assert (exists orig, heap !! y = Some orig /\ Task.shrinks orig before)
             as (orig & Ho & Hso).
           { destruct (decide (x = y)) as [<-|Hne].
             - rewrite lookup_insert_eq in H1. injection H1 as <-.
               exists obj. split; [exact Hx|eapply shrinks_trans; eauto].
             - rewrite lookup_insert_ne in H1 by exact Hne. exists orig1. auto. }
           exists orig, before, prs, stat, fin.
           repeat (split; [assumption|]). split; [|exact H11].
           simpl. destruct (Nat.eq_dec x y) as [->|Hne]; [|exact H10].
           intros [= Hc]. apply (count_occ_not_In Nat.eq_dec) in Hc. contradiction.
      * intros y Hy. destruct (decide (x = y)) as [<-|Hne].
        -- exists obj, final. split; [exact Hx|]. split; [exact Hfinal|].
           split; [eapply shrinks_trans; eauto|]. split.
           ++ intros k Hk. apply Hgone. rewrite Hclaimed. exact Hk.
           ++ intros Hc. rewrite (Honce Hc). exists ms. exact Epf.
        -- destruct Hy as [Hy|Hy]; [congruence|].
           destruct (Horig y Hy) as (o & fin & Ho & Hf & Hs & Hk & Hc).
           rewrite lookup_insert_ne in Ho by exact Hne.
           exists o, fin. repeat (split; [assumption|]).
           simpl. destruct (Nat.eq_dec x y) as [->|_]; [congruence|exact Hc].
Qed.

End InPlace.

(** ** Retries *)

Section Retries.

Context {E : Type} (wall_clock perf_counter : E -> Z).
Context (st : Task.Settings) (cfg : Task.config)
        (inp : Pipeline.input_module E) (fl : Pipeline.flow E).

Abbreviation worker := (Pipeline.worker E wall_clock perf_counter st cfg inp fl).
Abbreviation run := (Pipeline.run E wall_clock st cfg inp fl).
Abbreviation streamlet_exec := (Pipeline.streamlet_exec E wall_clock st cfg inp fl).
Abbreviation before_start := (Pipeline.before_start E perf_counter).
Abbreviation attempt := (Pipeline.attempt E wall_clock perf_counter st cfg inp fl).
Abbreviation fails_at := (Pipeline.fails_at E wall_clock perf_counter st cfg inp fl).
Abbreviation failing_module := (Pipeline.failing_module E st cfg inp fl).
Abbreviation task_module := (Pipeline.task_module E st cfg inp fl).
Abbreviation triple := (Pipeline.triple E).
Abbreviation last_module := (Pipeline.last_module E).

(** The worker, one attempt at a time. *)
Lemma worker_unfold (retries : Z) (w : Pipeline.world E) :
  worker retries w =
  match run retries (fst (before_start w)) with
  | (w', Pipeline.Returns code) =>
      (w', [Pipeline.Invoked retries], Pipeline.SUCCESS code)
  | (w', Pipeline.Raises e) =>
      let elapsed := perf_counter (Pipeline.ext E w') - snd (before_start w) in
      match e with
      | Py.Reject => (w', [Pipeline.Invoked retries], Pipeline.REJECTED)
      | Py.Ignore => (w', [Pipeline.Invoked retries], Pipeline.IGNORED)
      | _ => (w', [Pipeline.Invoked retries;
                   Pipeline.OnFailure e (Pipeline.last_module E w') elapsed],
              Pipeline.FAILED e (Pipeline.last_module E w') elapsed)
      end
  | (w', Pipeline.Retries e) =>
      let elapsed := perf_counter (Pipeline.ext E w') - snd (before_start w) in
      let '(w'', log, fin) := worker (retries + 1) w' in
      (w'', Pipeline.Invoked retries
              :: Pipeline.OnRetry e (Pipeline.last_module E w') elapsed (retries + 1)
              :: log, fin)
  end.
Proof.
  funelim (worker retries w).
  all: match goal with
       | H : Pipeline.run _ _ _ _ _ _ _ _ = _ |- _ => rewrite H
       end; reflexivity.
Qed.

(** *** The module a failure names *)

Lemma triple_bind {A B} (pre : Pipeline.world E -> Prop) (m : Pipeline.M E A)
    (mid : A -> Pipeline.world E -> Prop) (k : A -> Pipeline.M E B)
    (post : B -> Pipeline.world E -> Prop) (epost : Py.exn -> Pipeline.world E -> Prop) :
  triple pre m mid epost -> (forall a, triple (mid a) (k a) post epost) ->
  triple pre (Pipeline.bind E m k) post epost.
Proof.
  intros Hm Hk w w' r Hpre H. unfold Pipeline.bind in H.
  destruct (m w) as [w1 [e|a]] eqn:Em.
  - injection H as <- <-. exact (Hm w w1 (inl e) Hpre Em).
  - exact (Hk a w1 w' r (Hm w w1 (inr a) Hpre Em) H).
Qed.

Lemma triple_ret {A} (a : A) (pre : Pipeline.world E -> Prop)
    (epost : Py.exn -> Pipeline.world E -> Prop) :
  triple pre (Pipeline.ret E a) (fun _ => pre) epost.
Proof. intros w w' r Hpre [= <- <-]. exact Hpre. Qed.

Lemma triple_weaken {A} (pre pre' : Pipeline.world E -> Prop) (m : Pipeline.M E A)
    (post post' : A -> Pipeline.world E -> Prop)
    (epost epost' : Py.exn -> Pipeline.world E -> Prop) :
  triple pre m post epost ->
  (forall w, pre' w -> pre w) ->
  (forall a w, post a w -> post' a w) ->
  (forall e w, epost e w -> epost' e w) ->
  triple pre' m post' epost'.
Proof.
  intros Hm Hpre Hpost Hepost w w' r Hw H.
  specialize (Hm w w' r (Hpre w Hw) H). destruct r; auto.
Qed.

Lemma triple_for_each {A} (l : list A) (body : A -> Pipeline.M E unit)
    (inv : Pipeline.world E -> Prop) (epost : Py.exn -> Pipeline.world E -> Prop) :
  (forall a, In a l -> triple inv (body a) (fun _ => inv) epost) ->
  triple inv (Pipeline.for_each E l body) (fun _ => inv) epost.
Proof.
  induction l as [|a l IH]; intros Hb; cbn [Pipeline.for_each].
  - apply triple_ret.
  - eapply triple_bind; [apply Hb; left; reflexivity|].
    intros ?. apply IH. intros b Hin. apply Hb. right. exact Hin.
Qed.

Lemma triple_set_last_module (name : string) (pre : Pipeline.world E -> Prop)
    (epost : Py.exn -> Pipeline.world E -> Prop) :
  triple pre (Pipeline.set_last_module E name) (fun _ w => last_module w = name) epost.
Proof. intros w w' r _ [= <- <-]. reflexivity. Qed.

Lemma frame_raises_unbound : Pipeline.frame_raises Py.Unbound.
Proof. exists ∅, 0%nat. left. reflexivity. Qed.

(** The steps that leave the metadata alone: what holds of the name they
    start under holds of the name they end under, and what they raise is
    theirs. *)
Lemma triple_modify (mods : Pipeline.modifiers) (data : Frame.ref) (P : string -> Prop) :
  triple (fun w => P (last_module w)) (Pipeline.modify E mods data)
    (fun _ w => P (last_module w))
    (fun e w => P (last_module w) /\ Pipeline.frame_raises e).
Proof.
  intros w w' r Hw H. unfold Pipeline.modify, Pipeline.on_frames in H.
  destruct (Pipeline.frames E w !! data) as [f|] eqn:Ef.
  - destruct (Frame.mutate _ data _) as [e|fs'] eqn:Em; injection H as <- <-.
    + split; [exact Hw|]. exists (Pipeline.frames E w), data. do 3 right. eauto.
    + exact Hw.
  - injection H as <- <-. split; [exact Hw|apply frame_raises_unbound].
Qed.

Lemma triple_call_input (P : string -> Prop) :
  triple (fun w => P (last_module w)) (Pipeline.call_input E inp)
    (fun _ w => P (last_module w))
    (fun e w => P (last_module w) /\ Pipeline.input_raises E st cfg inp e).
Proof.
  intros w w' r Hw H. unfold Pipeline.call_input in H.
  destruct (Pipeline.in_call E inp _ _) as [[x h] r0] eqn:Ec.
  injection H as <- <-. destruct r0 as [e|res]; [|exact Hw].
  split; [exact Hw|]. left. eauto.
Qed.

Lemma triple_process_result (data : Frame.ref) (result : Task.source_result)
    (P : string -> Prop) :
  triple (fun w => P (last_module w)) (Pipeline.process_result E st cfg data result)
    (fun _ w => P (last_module w))
    (fun e w => P (last_module w) /\ Pipeline.input_raises E st cfg inp e).
Proof.
  intros w w' r Hw H. unfold Pipeline.process_result in H.
  destruct (Task.process_result _ _ _ _ _ _) as [h [e|fs]] eqn:Ep; injection H as <- <-.
  - split; [exact Hw|]. right. left. eauto 6.
  - exact Hw.
Qed.

Lemma triple_len (data : Frame.ref) (P : string -> Prop) :
  triple (fun w => P (last_module w))
    (Pipeline.on_frames E (fun fs =>
       match Frame.len fs data with
       | inr n => Py.ok (n, fs)
       | inl e => Py.raise e
       end))
    (fun _ w => P (last_module w))
    (fun e w => P (last_module w) /\ Pipeline.frame_raises e).
Proof.
  intros w w' r Hw H. unfold Pipeline.on_frames in H.
  destruct (Frame.len _ data) as [e|n] eqn:El; injection H as <- <-.
  - split; [exact Hw|]. exists (Pipeline.frames E w), data. left. exact El.
  - exact Hw.
Qed.

Lemma triple_freeze (data : Frame.ref) (P : string -> Prop) :
  triple (fun w => P (last_module w))
    (Pipeline.on_frames E (fun fs =>
       match Frame.freeze fs data with
       | inr fs' => Py.ok (tt, fs')
       | inl e => Py.raise e
       end))
    (fun _ w => P (last_module w))
    (fun e w => P (last_module w) /\ Pipeline.frame_raises e).
Proof.
  intros w w' r Hw H. unfold Pipeline.on_frames in H.
  destruct (Frame.freeze _ data) as [e|fs'] eqn:El; injection H as <- <-.
  - split; [exact Hw|]. exists (Pipeline.frames E w), data. right. left. exact El.
  - exact Hw.
Qed.

Lemma triple_copy (data : Frame.ref) (P : string -> Prop) :
  triple (fun w => P (last_module w))
    (Pipeline.on_frames E (fun fs => Frame.copy fs data))
    (fun _ w => P (last_module w))
    (fun e w => P (last_module w) /\ Pipeline.frame_raises e).
Proof.
  intros w w' r Hw H. unfold Pipeline.on_frames in H.
  destruct (Frame.copy _ data) as [e|[r' fs']] eqn:El; injection H as <- <-.
  - split; [exact Hw|]. exists (Pipeline.frames E w), data. right. right. left. exact El.
  - exact Hw.
Qed.

Lemma triple_call_processor (m : Pipeline.processor_module E) (data : Frame.ref)
    (P : string -> Prop) :
  triple (fun w => P (last_module w)) (Pipeline.call_processor E m data)
    (fun _ w => P (last_module w))
    (fun e w => P (last_module w) /\ Pipeline.processor_raises E m e).
Proof.
  intros w w' r Hw H. unfold Pipeline.call_processor in H.
  destruct (Pipeline.pm_call E m _ _ _) as [x [e|fs]] eqn:Ec; injection H as <- <-.
  - split; [exact Hw|]. left. eauto 6.
  - exact Hw.
Qed.

(** A failure of the frame is laid on the module the metadata names. *)
Lemma frame_failure (name : string) (e : Py.exn) :
  task_module name -> Pipeline.frame_raises e -> failing_module name e.
Proof.
  intros [->|(m & Hm & ->)] He.
  - left. split; [reflexivity|]. right. right. exact He.
  - right. exists m. split; [exact Hm|]. split; [reflexivity|]. right. exact He.
Qed.

Lemma accepting_app (i t : string) (l1 l2 : list (Pipeline.processor_module E)) :
  Pipeline.accepting E st i t (l1 ++ l2)
  = Pipeline.accepting E st i t l1 ++ Pipeline.accepting E st i t l2.
Proof. unfold Pipeline.accepting. apply List.filter_app. Qed.

(** The body of a loop of [streamlet_exec] for one module: the metadata
    names the module from then on. *)
Lemma triple_processor (m : Pipeline.processor_module E) (k : Pipeline.M E unit) :
  In m (Pipeline.accepting E st (Pipeline.in_name E inp) (Task.name cfg)
          (Pipeline.transforms E fl ++ Pipeline.outputs E fl)) ->
  triple (fun w => last_module w = Pipeline.pm_name E m) k
    (fun _ w => last_module w = Pipeline.pm_name E m)
    (fun e w => last_module w = Pipeline.pm_name E m /\ Pipeline.processor_raises E m e) ->
  triple (fun w => task_module (last_module w))
    (Pipeline.bind E (Pipeline.set_last_module E (Pipeline.pm_name E m)) (fun _ => k))
    (fun _ w => task_module (last_module w))
    (fun e w => failing_module (last_module w) e).
Proof.
  intros Hm Hk. eapply triple_bind; [apply triple_set_last_module|].
  intros ?. eapply triple_weaken; [exact Hk|auto|..].
  - intros ? w ->. right. exists m. auto.
  - intros e w [-> He]. right. exists m. auto.
Qed.

(** When the body raises, the metadata names the failing module: the
    exception was raised by the work done under that name. *)
Lemma failure_names_module (w w' : Pipeline.world E) (e : Py.exn) :
  streamlet_exec w = (w', inl e) -> failing_module (last_module w') e.
Proof.
  assert (triple (fun _ => True) streamlet_exec (fun _ _ => True)
            (fun e w => failing_module (last_module w) e)) as Ht.
  { unfold Pipeline.streamlet_exec.
    eapply triple_bind with (mid := fun _ _ => True).
    { intros w0 w1 r _ H. unfold Pipeline.on_frames in H.
      destruct (Frame.new_frame _ _ _) as [data fs]. injection H as <- <-. exact I. }
    intros static_data.
    eapply triple_bind; [apply triple_set_last_module|]. intros ?.
    assert (forall e0 w0,
               last_module w0 = Pipeline.in_name E inp /\
               Pipeline.input_raises E st cfg inp e0 ->
               failing_module (last_module w0) e0) as Hin
      by (intros e0 w0 [-> He]; left; auto).
    assert (forall e0 w0,
               last_module w0 = Pipeline.in_name E inp /\ Pipeline.frame_raises e0 ->
               failing_module (last_module w0) e0) as Hfr
      by (intros e0 w0 [-> He]; left; split; [reflexivity|right; right; exact He]).
    assert (forall e0 w0,
               task_module (last_module w0) /\ Pipeline.frame_raises e0 ->
               failing_module (last_module w0) e0) as Htm
      by (intros e0 w0 [Hn He]; apply frame_failure; assumption).
    eapply triple_bind with (mid := fun _ w0 => last_module w0 = Pipeline.in_name E inp).
    { eapply triple_weaken;
        [apply (triple_modify _ _ (fun n => n = Pipeline.in_name E inp))|auto..]. }
    intros ?.
    eapply triple_bind with (mid := fun _ w0 => last_module w0 = Pipeline.in_name E inp).
    { eapply triple_weaken;
        [apply (triple_call_input (fun n => n = Pipeline.in_name E inp))|auto..]. }
    intros result.
    eapply triple_bind with (mid := fun _ w0 => last_module w0 = Pipeline.in_name E inp).
    { eapply triple_weaken;
        [apply (triple_process_result _ _ (fun n => n = Pipeline.in_name E inp))|auto..]. }
    intros ?.
    eapply triple_bind with (mid := fun _ w0 => last_module w0 = Pipeline.in_name E inp).
    { eapply triple_weaken;
        [apply (triple_len _ (fun n => n = Pipeline.in_name E inp))|auto..]. }
    intros [|n].
    { eapply triple_weaken with (pre := fun _ => True) (post := fun _ _ => True)
                                (epost := fun _ _ => False);
        [apply triple_ret|auto|auto|intros ? ? []]. }
    eapply triple_bind with (mid := fun _ w0 => task_module (last_module w0)).
    { eapply triple_weaken with (pre := fun w0 => task_module (last_module w0))
                                (post := fun _ w0 => task_module (last_module w0))
                                (epost := fun e0 w0 => failing_module (last_module w0) e0);
        [|intros w0 Hw0; left; exact Hw0|auto..].
      apply triple_for_each. intros m Hm. apply triple_processor.
      - rewrite accepting_app. apply in_app_iff. left. exact Hm.
      - apply (triple_call_processor _ _ (fun n => n = Pipeline.pm_name E m)). }
    intros ?. eapply triple_bind with (mid := fun _ w0 => task_module (last_module w0)).
    { eapply triple_weaken; [apply (triple_freeze _ task_module)|auto..]. }
    intros ?. eapply triple_bind with (mid := fun _ w0 => task_module (last_module w0)).
    { apply triple_for_each. intros m Hm. apply triple_processor.
      - rewrite accepting_app. apply in_app_iff. right. exact Hm.
      - eapply triple_bind
          with (mid := fun _ w0 => last_module w0 = Pipeline.pm_name E m).
        { eapply triple_weaken;
            [apply (triple_copy _ (fun n => n = Pipeline.pm_name E m))|auto..].
          intros e0 w0 [Hn He]. split; [exact Hn|right; exact He]. }
        intros finished.
        eapply triple_bind
          with (mid := fun _ w0 => last_module w0 = Pipeline.pm_name E m).
        { eapply triple_weaken;
            [apply (triple_modify _ _ (fun n => n = Pipeline.pm_name E m))|auto..].
          intros e0 w0 [Hn He]. split; [exact Hn|right; exact He]. }
        intros ?. apply (triple_call_processor _ _ (fun n => n = Pipeline.pm_name E m)). }
    intros ?. eapply triple_weaken with (pre := fun _ => True) (post := fun _ _ => True)
                                (epost := fun _ _ => False);
        [apply triple_ret|auto|auto|intros ? ? []]. }
  intros H. exact (Ht w w' (inl e) I H).
Qed.

(** *** The attempts of a request *)

Lemma attempt_shift (n : nat) (w : Pipeline.world E) :
  attempt n (attempt 1 w) = attempt (S n) w.
Proof.
  induction n as [|n IH]; [reflexivity|].
  change (attempt (S n) (attempt 1 w))
    with (fst (streamlet_exec (fst (before_start (attempt n (attempt 1 w)))))).
  rewrite IH. reflexivity.
Qed.

(** A body that raises something else than a [TaskPredicate] sends the
    exception to [retry]. *)
Lemma run_failing (retries : Z) (w w' : Pipeline.world E) (e : Py.exn) :
  streamlet_exec w = (w', inl e) -> Py.is_task_predicate e = false ->
  run retries w = (w', Pipeline.retry (Task.max_retries cfg) retries e).
Proof.
  intros H Hne. unfold Pipeline.run. rewrite H, Hne. reflexivity.
Qed.

(** A body that raises a [TaskPredicate] lets it out, whatever the
    budget. *)
Lemma run_predicate (retries : Z) (w w' : Pipeline.world E) (e : Py.exn) :
  streamlet_exec w = (w', inl e) -> Py.is_task_predicate e = true ->
  run retries w = (w', Pipeline.Raises e).
Proof.
  intros H He. unfold Pipeline.run. rewrite H, He. reflexivity.
Qed.

Lemma worker_failing (k : nat) :
  forall retries w,
    Z.to_nat (Task.max_retries cfg - retries) = k ->
    (forall n, (n <= k)%nat -> fails_at n w) ->
    exists w' e log,
      worker retries w =
        (w', log,
         Pipeline.FAILED e (last_module w')
           (perf_counter (Pipeline.ext E w') - perf_counter (Pipeline.ext E (attempt k w)))) /\
      streamlet_exec (fst (before_start (attempt k w))) = (w', inl e) /\
      Py.is_task_predicate e = false /\
      Pipeline.invocations log = S k.
Proof.
  induction k as [|k IH]; intros retries w Hk Hfail.
  - destruct (Hfail 0%nat (Nat.le_refl _)) as (e & He & Hne).
    cbn [Pipeline.attempt] in He |- *.
    destruct (streamlet_exec (fst (before_start w))) as [w' r] eqn:Hex.
    cbn [snd] in He. subst r.
    exists w', e. rewrite worker_unfold, (run_failing _ _ _ _ Hex Hne).
    unfold Pipeline.retry.
    destruct (Z.ltb_spec (Task.max_retries cfg) (retries + 1)); [|lia].
    eexists. split; [|split; [reflexivity|split; [exact Hne|]]].
    + destruct e; try discriminate; reflexivity.
    + destruct e; try discriminate; reflexivity.
  - destruct (Hfail 0%nat (Nat.le_0_l _)) as (e1 & He1 & Hne1).
    cbn [Pipeline.attempt] in He1.
    destruct (streamlet_exec (fst (before_start w))) as [w1 r1] eqn:Hex.
    cbn [snd] in He1. subst r1.
    assert (attempt 1 w = w1) as H1 by (cbn [Pipeline.attempt]; rewrite Hex; reflexivity).
    destruct (IH (retries + 1) w1 ltac:(lia)) as (w' & e & log & Hw & Hl & Hne' & Hinv).
    { intros n Hn. specialize (Hfail (S n) ltac:(lia)).
      unfold Pipeline.fails_at in *. rewrite <- H1, attempt_shift. exact Hfail. }
    rewrite <- H1 in Hw at 2. rewrite <- H1 in Hl. rewrite attempt_shift in Hw, Hl.
    exists w', e. rewrite worker_unfold, (run_failing _ _ _ _ Hex Hne1).
    unfold Pipeline.retry.
    destruct (Z.ltb_spec (Task.max_retries cfg) (retries + 1)); [lia|].
    rewrite Hw. eexists. split; [reflexivity|]. split; [exact Hl|]. split; [exact Hne'|].
    unfold Pipeline.invocations in *. simpl. rewrite Hinv. reflexivity.
Qed.

(** A frame that is not frozen takes the modifiers of an Input or an
    Output. *)
Lemma modify_fresh (mods : Pipeline.modifiers) (w : Pipeline.world E) (r : Frame.ref) (f : Frame.MetricFrame) :
  Pipeline.frames E w !! r = Some f -> Frame.frozen f = false ->
  exists w', Pipeline.modify E mods r w = (w', Py.ok tt) /\
     Pipeline.ext E w' = Pipeline.ext E w /\ Pipeline.heap E w' = Pipeline.heap E w /\
     Pipeline.last_module E w' = Pipeline.last_module E w.
Proof.
  intros Hf Hfr. unfold Pipeline.modify, Pipeline.on_frames, Frame.mutate.
  rewrite Hf, Hfr. cbn. eexists. split; [reflexivity|]. cbn. auto.
Qed.

(** When the call of the Input raises, the body raises that exception
    and the metadata names the Input. *)
Lemma input_failure (w : Pipeline.world E) x' h' e :
  Pipeline.in_call E inp (Pipeline.ext E w) (Pipeline.heap E w) = (x', h', inl e) ->
  exists w', Pipeline.streamlet_exec E wall_clock st cfg inp fl w = (w', inl e) /\
     Pipeline.last_module E w' = Pipeline.in_name E inp.
Proof.
  intros Hcall. unfold Pipeline.streamlet_exec.
  unfold Pipeline.bind at 1. unfold Pipeline.on_frames at 1.
  destruct (Frame.new_frame _ _ _) as [data fs] eqn:Enew. cbn [Py.ok].
  unfold Pipeline.bind at 1. unfold Pipeline.set_last_module at 1.
  unfold Pipeline.bind at 1.
  match goal with |- context [Pipeline.modify E ?m ?d ?w0] =>
    destruct (modify_fresh m w0 d
      {| Frame.name := Task.name cfg; Frame.creation_timestamp := wall_clock (Pipeline.ext E w);
         Frame.metrics := []; Frame.frozen := false |}) as (w1 & -> & Hx & Hh & Hl)
  end.
  { cbn. unfold Frame.new_frame in Enew. injection Enew as <- <-. apply lookup_insert_eq. }
  { reflexivity. }
  unfold Pipeline.bind at 1. unfold Pipeline.call_input.
  cbn in Hx, Hh, Hl. rewrite Hx, Hh, Hcall. eexists. split; [reflexivity|]. cbn. rewrite Hl. reflexivity.
Qed.

End Retries.

(** C3 (amended). Retries: a request whose every attempt raises, and never
    a [TaskPredicate], is invoked [1 + max 0 max_retries] times (three times
    for [max_retries = 2]) and ends [FAILED], with the exception of the last
    attempt, the name of the failing module (the module of the task under
    whose name the exception was raised, which is the one the body reached
    last) and the time since the last attempt's start.  A [TaskPredicate]
    goes through [run] at once, whatever the budget: nothing is retried and
    the request ends after that one invocation, [IGNORED] for an [Ignore],
    [REJECTED] for a [Reject] and [FAILED] for a plain [TaskPredicate].  With
    [max_retries = 2], a source that always fails is run three times and
    named, and so is a sink that always fails behind a working source and a
    transform. *)
Theorem retry_semantics :
  (forall (E : Type) (wall_clock perf_counter : E -> Z) st cfg inp fl w,
      (forall n, (n <= Z.to_nat (Task.max_retries cfg))%nat ->
                 Pipeline.fails_at E wall_clock perf_counter st cfg inp fl n w) ->
      exists w' e name log,
        Pipeline.worker E wall_clock perf_counter st cfg inp fl 0 w =
          (w', log,
           Pipeline.FAILED e name
             (perf_counter (Pipeline.ext E w')
              - perf_counter
                  (Pipeline.ext E
                     (Pipeline.attempt E wall_clock perf_counter st cfg inp fl
                        (Z.to_nat (Task.max_retries cfg)) w)))) /\
        Pipeline.streamlet_exec E wall_clock st cfg inp fl
          (fst (Pipeline.before_start E perf_counter
                  (Pipeline.attempt E wall_clock perf_counter st cfg inp fl
                     (Z.to_nat (Task.max_retries cfg)) w))) = (w', inl e) /\
        name = Pipeline.last_module E w' /\
        Pipeline.failing_module E st cfg inp fl name e /\
        Z.of_nat (Pipeline.invocations log) = 1 + Z.max 0 (Task.max_retries cfg)) /\
  (forall (E : Type) (wall_clock perf_counter : E -> Z) st cfg inp fl retries w w' e,
      Pipeline.streamlet_exec E wall_clock st cfg inp fl
        (fst (Pipeline.before_start E perf_counter w)) = (w', inl e) ->
      Py.is_task_predicate e = true ->
      Pipeline.run E wall_clock st cfg inp fl retries
        (fst (Pipeline.before_start E perf_counter w)) = (w', Pipeline.Raises e) /\
      Pipeline.invocations
        (snd (fst (Pipeline.worker E wall_clock perf_counter st cfg inp fl retries w)))
      = 1%nat /\
      snd (Pipeline.worker E wall_clock perf_counter st cfg inp fl retries w)
      = match e with
        | Py.Reject => Pipeline.REJECTED
        | Py.Ignore => Pipeline.IGNORED
        | _ => Pipeline.FAILED e (Pipeline.last_module E w')
                 (perf_counter (Pipeline.ext E w') - perf_counter (Pipeline.ext E w))
        end) /\
  (snd (Pipeline.worker nat Examples.ticks Examples.ticks Examples.settings
          (Examples.task_retries 2) Examples.failing_input Examples.no_processors
          0 Examples.world0) =
     Pipeline.FAILED (Py.Raised "ConnectionError") "source" 1 /\
   Pipeline.invocations
     (snd (fst (Pipeline.worker nat Examples.ticks Examples.ticks Examples.settings
                  (Examples.task_retries 2) Examples.failing_input
                  Examples.no_processors 0 Examples.world0))) = 3%nat) /\
  (snd (Pipeline.worker nat Examples.ticks Examples.ticks Examples.settings
          (Examples.task_ab []) Examples.working_input Examples.flow_to_sink
          0 Examples.world0) =
     Pipeline.FAILED (Py.Raised "TimeoutError") "sink" 1 /\
   Pipeline.invocations
     (snd (fst (Pipeline.worker nat Examples.ticks Examples.ticks Examples.settings
                  (Examples.task_ab []) Examples.working_input
                  Examples.flow_to_sink 0 Examples.world0))) = 3%nat).
Proof.
  split; [|split; [|split]].
  - intros E wall_clock perf_counter st cfg inp fl w Hfail.
    destruct (worker_failing wall_clock perf_counter st cfg inp fl
                (Z.to_nat (Task.max_retries cfg)) 0 w)
      as (w' & e & log & Hw & Hex & Hne & Hinv).
    { rewrite Z.sub_0_r. reflexivity. }
    { exact Hfail. }
    exists w', e, (Pipeline.last_module E w'), log.
    split; [exact Hw|]. split; [exact Hex|]. split; [reflexivity|].
    split; [eapply failure_names_module; exact Hex|].
    rewrite Hinv. lia.
  - intros E wall_clock perf_counter st cfg inp fl retries w w' e H He.
    pose proof (run_predicate wall_clock st cfg inp fl retries _ _ _ H He) as Hrun.
    split; [exact Hrun|]. rewrite worker_unfold, Hrun.
    destruct e; try discriminate; split; reflexivity.
  - split; vm_compute; reflexivity.
  - split; vm_compute; reflexivity.
Qed.

Lemma retry_semantics_witness :
  exists w' name log,
    Pipeline.worker nat Examples.ticks Examples.ticks Examples.settings
      (Examples.task_ab []) Examples.working_input Examples.flow_to_sink
      0 Examples.world0
    = (w', log, Pipeline.FAILED (Py.Raised "TimeoutError") name 1) /\
    Pipeline.failing_module nat Examples.settings (Examples.task_ab [])
      Examples.working_input Examples.flow_to_sink name (Py.Raised "TimeoutError") /\
    Z.of_nat (Pipeline.invocations log) = 3.
Proof.
  destruct (proj1 retry_semantics nat Examples.ticks Examples.ticks Examples.settings
              (Examples.task_ab []) Examples.working_input Examples.flow_to_sink
              Examples.world0)
    as (w' & e & name & log & Hw & Hex & Hname & Hmod & Hinv).
  { intros n Hn. exists (Py.Raised "TimeoutError").
    destruct n as [|[|[|n]]]; [split; vm_compute; reflexivity..|].
    exfalso. change (Z.to_nat (Task.max_retries (Examples.task_ab []))) with 2%nat in Hn.
    lia. }
  vm_compute in Hex. injection Hex as <- <-.
  eexists. exists name, log. split; [|split; [exact Hmod|exact Hinv]].
  rewrite Hw. reflexivity.
Defined.

(** C3 as first stated does not hold for a negative [max_retries], which
    the task schema accepts: the body is invoked once, not [1 + max_retries]
    times. *)
Lemma negative_budget_runs_once :
  Pipeline.fails_at nat Examples.ticks Examples.ticks Examples.settings
    (Examples.task_retries (-1)) Examples.failing_input Examples.no_processors
    0 Examples.world0 /\
  Pipeline.invocations
    (snd (fst (Pipeline.worker nat Examples.ticks Examples.ticks Examples.settings
                 (Examples.task_retries (-1)) Examples.failing_input
                 Examples.no_processors 0 Examples.world0))) = 1%nat /\
  snd (Pipeline.worker nat Examples.ticks Examples.ticks Examples.settings
         (Examples.task_retries (-1)) Examples.failing_input
         Examples.no_processors 0 Examples.world0)
  = Pipeline.FAILED (Py.Raised "ConnectionError") "source" 1 /\
  1 + Task.max_retries (Examples.task_retries (-1)) = 0.
Proof.
  split; [|split; [|split]]; try (vm_compute; reflexivity).
  exists (Py.Raised "ConnectionError"). split; vm_compute; reflexivity.
Qed.

(** ** Frames *)

Section Frames.

Implicit Types (st : Frame.store) (r c : Frame.ref) (f : Frame.MetricFrame).

Lemma fresh_unbound st : st !! fresh (dom st) = None.
Proof. apply not_elem_of_dom. apply is_fresh. Qed.

Lemma mutate_frozen st r f (mu : Frame.mutation) :
  st !! r = Some f -> Frame.frozen f = true -> Frame.mutate st r mu = inl Py.TypeError.
Proof. intros Hr Hf. unfold Frame.mutate. rewrite Hr, Hf. reflexivity. Qed.

(** A mutation changes the frame it is sent to and no other. *)
Lemma mutate_other st st' r c (mu : Frame.mutation) :
  Frame.mutate st c mu = inr st' -> r <> c -> st' !! r = st !! r.
Proof.
  unfold Frame.mutate. intros H Hne.
  destruct (st !! c) as [f|]; [|discriminate].
  destruct (Frame.frozen f); [discriminate|].
  destruct (Frame.apply_mutation mu f) as [e|f']; [discriminate|].
  injection H as <-. apply lookup_insert_ne. congruence.
Qed.

Lemma mutate_append st r f (m : Frame.Metric) :
  st !! r = Some f -> Frame.frozen f = false ->
  Frame.mutate st r (Frame.Append m) =
    inr (<[r := {| Frame.name := Frame.name f;
                   Frame.creation_timestamp := Frame.creation_timestamp f;
                   Frame.metrics := Frame.metrics f ++ [m];
                   Frame.frozen := false |}]> st).
Proof.
  intros Hr Hf. unfold Frame.mutate. rewrite Hr, Hf. simpl. rewrite Hf. reflexivity.
Qed.

Lemma mutate_replace st r f (ms : list Frame.Metric) :
  st !! r = Some f -> Frame.frozen f = false ->
  Frame.mutate st r (Frame.ReplaceAll ms) =
    inr (<[r := {| Frame.name := Frame.name f;
                   Frame.creation_timestamp := Frame.creation_timestamp f;
                   Frame.metrics := ms;
                   Frame.frozen := false |}]> st).
Proof.
  intros Hr Hf. unfold Frame.mutate. rewrite Hr, Hf. simpl. rewrite Hf. reflexivity.
Qed.

Lemma copy_spec st r f :
  st !! r = Some f ->
  exists c, Frame.copy st r = inr (c, <[c := Frame.thawed f]> st) /\ st !! c = None.
Proof.
  intros Hr. unfold Frame.copy. rewrite Hr. exists (fresh (dom st)).
  split; [reflexivity|apply fresh_unbound].
Qed.

End Frames.

(** C4. Frames, as the specification describes the absent
    [core/metric.py]: a frame that is not frozen takes an append and a
    whole-range replace; once frozen, every mutation of it raises; a copy
    of the frozen frame is a new frame with the same Metrics that is not
    frozen, and a mutation of one copy changes neither the frozen original
    nor another copy. *)
Theorem frame_freeze :
  forall (st : Frame.store) (r : Frame.ref) (f : Frame.MetricFrame),
    st !! r = Some f -> Frame.frozen f = false ->
    (forall m, exists st', Frame.mutate st r (Frame.Append m) = inr st' /\
               (Frame.metrics <$> st' !! r) = Some (Frame.metrics f ++ [m])) /\
    (forall ms, exists st', Frame.mutate st r (Frame.ReplaceAll ms) = inr st' /\
                (Frame.metrics <$> st' !! r) = Some ms) /\
    exists st1,
      Frame.freeze st r = inr st1 /\
      (forall mu, Frame.mutate st1 r mu = inl Py.TypeError) /\
      exists c1 st2 c2 st3,
        Frame.copy st1 r = inr (c1, st2) /\
        Frame.copy st2 r = inr (c2, st3) /\
        c1 <> r /\ c2 <> r /\ c1 <> c2 /\
        st3 !! c1 = Some (Frame.thawed f) /\ st3 !! c2 = Some (Frame.thawed f) /\
        (forall m, exists st4, Frame.mutate st3 c1 (Frame.Append m) = inr st4) /\
        (forall mu st4,
            Frame.mutate st3 c1 mu = inr st4 ->
            st4 !! r = Some (Frame.iced f) /\
            st4 !! c2 = Some (Frame.thawed f) /\
            forall mu', Frame.mutate st4 r mu' = inl Py.TypeError).
Proof.
  intros st r f Hr Hf.
  split; [|split].
  - intros m. eexists. split; [apply mutate_append; eassumption|].
    rewrite lookup_insert_eq. reflexivity.
  - intros ms. eexists. split; [apply mutate_replace; eassumption|].
    rewrite lookup_insert_eq. reflexivity.
  - exists (<[r := Frame.iced f]> st).
    split; [unfold Frame.freeze; rewrite Hr; reflexivity|].
    assert (<[r := Frame.iced f]> st !! r = Some (Frame.iced f)) as Hr1 by apply lookup_insert_eq.
    split; [intros mu; eapply mutate_frozen; [exact Hr1|reflexivity]|].
    destruct (copy_spec _ _ _ Hr1) as (c1 & Hc1 & Hn1).
    assert (c1 <> r) as Hne1 by (intros ->; congruence).
    assert (<[c1 := Frame.thawed (Frame.iced f)]> (<[r := Frame.iced f]> st) !! r = Some (Frame.iced f)) as Hr2
      by (rewrite lookup_insert_ne by exact Hne1; exact Hr1).
    destruct (copy_spec _ _ _ Hr2) as (c2 & Hc2 & Hn2).
    assert (c2 <> r) as Hne2 by (intros ->; congruence).
    assert (c1 <> c2) as Hne12.
    { intros ->. rewrite lookup_insert_eq in Hn2. discriminate. }
    eexists c1, _, c2, _. split; [exact Hc1|]. split; [exact Hc2|].
    split; [exact Hne1|]. split; [exact Hne2|]. split; [exact Hne12|].
    assert (forall st0 : Frame.store, <[c2 := Frame.thawed (Frame.iced f)]> (<[c1 := Frame.thawed (Frame.iced f)]> st0) !! c1
                        = Some (Frame.thawed f)) as Hl1.
    { intros st0. rewrite lookup_insert_ne by congruence. apply lookup_insert_eq. }
    split; [apply Hl1|]. split; [apply lookup_insert_eq|].
    split.
    + intros m. eexists. eapply mutate_append; [apply Hl1|reflexivity].
    + intros mu st4 Hmu.
      assert (st4 !! r = Some (Frame.iced f)) as Hr4.
      { rewrite (mutate_other _ _ r c1 mu Hmu) by congruence.
        rewrite lookup_insert_ne by congruence. exact Hr2. }
      split; [exact Hr4|]. split.
      * rewrite (mutate_other _ _ c2 c1 mu Hmu) by congruence. apply lookup_insert_eq.
      * intros mu'. eapply mutate_frozen; [exact Hr4|reflexivity].
Qed.

Lemma frame_freeze_witness :
  exists st1,
    Frame.freeze Examples.frames Examples.data = inr st1 /\
    forall mu, Frame.mutate st1 Examples.data mu = inl Py.TypeError.
Proof.
  destruct (frame_freeze Examples.frames Examples.data
              {| Frame.name := "task"; Frame.creation_timestamp := 0;
                 Frame.metrics := []; Frame.frozen := false |}
              ltac:(vm_compute; reflexivity) eq_refl)
    as (_ & _ & st1 & Hfr & Hmut & _).
  exists st1. split; [exact Hfr|exact Hmut].
Defined.

(** ** Template extensions *)

Section TemplateFacts.

Import Data Template.

Lemma extend_nil (base : json) : extend base (JList []) = inr base.
Proof. reflexivity. Qed.

Lemma extend_cons (base item : json) (rest : list json) :
  extend base (JList (item :: rest)) =
  match
    match named item with
    | Some name =>
        match base with
        | JList bs =>
            match merge_named name (fun b => extend b item) bs with
            | inr (Some bs') => Py.ok (JList bs')
            | inr None => append base item
            | inl e => Py.raise e
            end
        | JDict _ | JStr _ => Py.raise Py.AttributeError
        | _ => Py.raise Py.TypeError
        end
    | None => append base item
    end
  with
  | inr base' => extend base' (JList rest)
  | inl e => Py.raise e
  end.
Proof. reflexivity. Qed.

Lemma extend_entry (base : json) (k : string) (v : json) (rest : dict) :
  extend base (JDict ((k, v) :: rest)) =
  match base with
  | JDict bd =>
      match extend (match dict_get k bd with Some x => x | None => JDict [] end) v with
      | inr x => extend (JDict (dict_set k x bd)) (JDict rest)
      | inl e => Py.raise e
      end
  | _ => Py.raise Py.AttributeError
  end.
Proof. reflexivity. Qed.

(** A mapping merged with a mapping is a mapping. *)
Lemma extend_mapping (d : dict) :
  forall bd x, extend (JDict bd) (JDict d) = inr x -> is_mapping x.
Proof.
  induction d as [|[k v] d IH]; intros bd x H.
  - injection H as <-. exact I.
  - rewrite extend_entry in H.
    destruct (extend _ v) as [e|y]; [discriminate|]. eapply IH; eauto.
Qed.

(** Over mappings, the loop with its break finds the first item of that
    name. *)
Lemma merge_named_index (name : json) (merge : json -> Py.result json)
    (bs : list json) :
  Forall is_mapping bs ->
  merge_named name merge bs =
  match index_of_name name bs with
  | Some i =>
      match bs !! i with
      | Some b =>
          match merge b with
          | inr b' => Py.ok (Some (<[i := b']> bs))
          | inl e => Py.raise e
          end
      | None => Py.ok None
      end
  | None => Py.ok None
  end.
Proof.
  induction 1 as [|b bs Hb Hbs IH]; simpl; [reflexivity|].
  destruct b as [| | | | |bd]; try contradiction.
  destruct (py_eq name (name_of bd)); simpl.
  - destruct (merge (JDict bd)); reflexivity.
  - rewrite IH. destruct (index_of_name name bs) as [i|]; simpl; [|reflexivity].
    destruct (bs !! i) as [b|]; simpl; [|reflexivity].
    destruct (merge b); reflexivity.
Qed.

Lemma index_of_name_lookup (name : json) (bs : list json) (i : nat) :
  Forall is_mapping bs ->
  index_of_name name bs = Some i ->
  exists bd, bs !! i = Some (JDict bd) /\ py_eq name (name_of bd) = true.
Proof.
  intros Hbs. revert i. induction Hbs as [|b bs Hb Hbs IH]; intros i H; simpl in H.
  - discriminate.
  - destruct b as [| | | | |bd]; try contradiction.
    destruct (py_eq name (name_of bd)) eqn:E.
    + injection H as <-. exists bd. auto.
    + destruct (index_of_name name bs) as [j|]; [|discriminate].
      injection H as <-. apply IH. reflexivity.
Qed.

(** One extension item, over mappings: the code does what [merge_item]
    says, and the sequence still holds mappings only. *)
Lemma extend_item (bs : list json) (item : json) :
  Forall is_mapping bs -> is_mapping item ->
  match named item with
  | Some name =>
      match merge_named name (fun b => extend b item) bs with
      | inr (Some bs') => Py.ok (JList bs')
      | inr None => append (JList bs) item
      | inl e => Py.raise e
      end
  | None => append (JList bs) item
  end
  = match merge_item bs item with
    | inr bs' => Py.ok (JList bs')
    | inl e => Py.raise e
    end
  /\ forall bs', merge_item bs item = inr bs' -> Forall is_mapping bs'.
Proof.
  intros Hbs Hitem. unfold merge_item.
  destruct (named item) as [name|].
  2:{ split; [reflexivity|]. intros bs' [= <-].
      apply Forall_app. split; [exact Hbs|]. constructor; [exact Hitem|constructor]. }
  rewrite merge_named_index by exact Hbs.
  destruct (index_of_name name bs) as [i|] eqn:Ei.
  2:{ split; [reflexivity|]. intros bs' [= <-].
      apply Forall_app. split; [exact Hbs|]. constructor; [exact Hitem|constructor]. }
  destruct (index_of_name_lookup _ _ _ Hbs Ei) as (bd & Hi & _). rewrite Hi.
  destruct (extend (JDict bd) item) as [e|merged] eqn:Em.
  { split; [reflexivity|]. intros bs' [=]. }
  split; [reflexivity|]. intros bs' [= <-].
  apply Forall_insert; [exact Hbs|].
  destruct item as [| | | | |d]; try contradiction. eapply extend_mapping; eauto.
Qed.

Lemma extend_sequences (items : list json) :
  forall bs,
    Forall is_mapping bs -> Forall is_mapping items ->
    extend (JList bs) (JList items) =
    match merge_sequences bs items with
    | inr result => Py.ok (JList result)
    | inl e => Py.raise e
    end.
Proof.
  induction items as [|item rest IH]; intros bs Hbs Hitems.
  - reflexivity.
  - apply Forall_cons in Hitems as [Hitem Hrest].
    rewrite extend_cons. simpl merge_sequences.
    destruct (extend_item bs item Hbs Hitem) as [-> Hinv].
    destruct (merge_item bs item) as [e|bs']; [reflexivity|].
    apply IH; [apply Hinv; reflexivity|exact Hrest].
Qed.

(** The base items stay where they are: the result is at least as long,
    and an item that no extension item names is the same at the same
    place. *)
Lemma merge_sequences_order (items : list json) :
  forall bs result,
    Forall is_mapping bs -> Forall is_mapping items ->
    merge_sequences bs items = inr result ->
    (length bs <= length result)%nat /\
    forall i bd,
      bs !! i = Some (JDict bd) ->
      (forall item name, In item items -> named item = Some name ->
                         py_eq name (name_of bd) = false) ->
      result !! i = Some (JDict bd).
Proof.
  induction items as [|item rest IH]; intros bs result Hbs Hitems H; simpl in H.
  - injection H as <-. split; [lia|]. intros i bd Hi _. exact Hi.
  - apply Forall_cons in Hitems as [Hitem Hrest].
    destruct (merge_item bs item) as [e|bs'] eqn:Em; [discriminate|].
    destruct (extend_item bs item Hbs Hitem) as [_ Hinv].
    destruct (IH bs' result (Hinv _ Em) Hrest H) as [Hlen Hkeep].
    assert ((length bs <= length bs')%nat /\
            forall i bd, bs !! i = Some (JDict bd) ->
                         (forall name, named item = Some name ->
                                       py_eq name (name_of bd) = false) ->
                         bs' !! i = Some (JDict bd)) as [Hlen' Hkeep'].
    { unfold merge_item in Em.
      destruct (named item) as [name|].
      2:{ injection Em as <-. rewrite length_app. split; [lia|].
          intros i bd Hi _. apply lookup_app_l_Some. exact Hi. }
      destruct (index_of_name name bs) as [j|] eqn:Ej.
      2:{ injection Em as <-. rewrite length_app. split; [lia|].
          intros i bd Hi _. apply lookup_app_l_Some. exact Hi. }
      destruct (index_of_name_lookup _ _ _ Hbs Ej) as (bj & Hj & Heq).
      rewrite Hj in Em.
      destruct (extend (JDict bj) item) as [e|merged]; [discriminate|].
      injection Em as <-. rewrite length_insert. split; [lia|].
      intros i bd Hi Hno. destruct (decide (j = i)) as [->|Hne].
      - rewrite Hj in Hi. injection Hi as ->.
        rewrite (Hno name eq_refl) in Heq. discriminate.
      - rewrite list_lookup_insert_ne by exact Hne. exact Hi. }
    split; [lia|]. intros i bd Hi Hno.
    apply Hkeep.
    + apply Hkeep'; [exact Hi|]. intros name Hn. eapply Hno; [left; reflexivity|exact Hn].
    + intros it name Hin Hn. eapply Hno; [right; exact Hin|exact Hn].
Qed.

End TemplateFacts.




(** ** Environment variables *)

Section EnvironmentVarFacts.

Context {A : Type} (schema : string -> Py.result A) (os : Os.t).

Abbreviation expand := (Validators.expand schema os).
Abbreviation pass := (Validators.pass os).

Lemma expand_unfold (value : string) (max_depth : Z) :
  expand value max_depth =
  if max_depth <? 0 then Py.raise Validators.max_depth_reached
  else if String.eqb (pass value) value then schema value
       else expand (pass value) (max_depth - 1).
Proof.
  funelim (expand value max_depth).
  - destruct (Z.ltb_spec max_depth 0); [reflexivity|lia].
  - destruct (Z.ltb_spec max_depth 0); [lia|].
    match goal with H : String.eqb _ _ = true |- _ => rewrite H end. reflexivity.
  - destruct (Z.ltb_spec max_depth 0); [lia|].
    match goal with H : String.eqb _ _ = false |- _ => rewrite H end. reflexivity.
Qed.

Lemma iter_pass (j : nat) (value : string) :
  Nat.iter j pass (pass value) = Nat.iter (S j) pass value.
Proof.
  induction j as [|j IH]; [reflexivity|]. simpl in *. rewrite IH. reflexivity.
Qed.

(** When the [k]-th pass is the first that changes nothing, and [k] is
    within the depth, the result is the leaf type applied to the value
    after [k] passes. *)
Lemma expand_settles (k : nat) :
  forall value max_depth,
    Z.of_nat k <= max_depth ->
    (forall j, (j < k)%nat -> pass (Nat.iter j pass value) <> Nat.iter j pass value) ->
    pass (Nat.iter k pass value) = Nat.iter k pass value ->
    expand value max_depth = schema (Nat.iter k pass value).
Proof.
  induction k as [|k IH]; intros value max_depth Hd Hchg Hfix; rewrite expand_unfold.
  - destruct (Z.ltb_spec max_depth 0); [lia|].
    simpl in *. rewrite Hfix, String.eqb_refl. reflexivity.
  - destruct (Z.ltb_spec max_depth 0); [lia|].
    destruct (String.eqb_spec (pass value) value) as [Heq|_].
    { exfalso. apply (Hchg O); [lia|exact Heq]. }
    rewrite <- iter_pass. apply IH.
    + lia.
    + intros j Hj. rewrite !iter_pass. apply Hchg. lia.
    + rewrite !iter_pass. exact Hfix.
Qed.

(** When more passes change the value than the depth allows, the call
    raises. *)
Lemma expand_exceeds (n : nat) :
  forall value max_depth,
    max_depth < Z.of_nat n ->
    (forall j, (j < n)%nat -> pass (Nat.iter j pass value) <> Nat.iter j pass value) ->
    expand value max_depth = Py.raise Validators.max_depth_reached.
Proof.
  induction n as [|n IH]; intros value max_depth Hd Hchg; rewrite expand_unfold.
  - destruct (Z.ltb_spec max_depth 0); [reflexivity|lia].
  - destruct (Z.ltb_spec max_depth 0); [reflexivity|].
    destruct (String.eqb_spec (pass value) value) as [Heq|_].
    { exfalso. apply (Hchg O); [lia|exact Heq]. }
    apply IH; [lia|]. intros j Hj. rewrite !iter_pass. apply Hchg. lia.
Qed.

End EnvironmentVarFacts.

(** C7. Environment-variable expansion: the validator built with the
    default depth 16 expands the value pass after pass; when the first pass
    that changes nothing is reached after at most 16 passes that changed
    the value, the result is the requested leaf type applied to the final
    string; when 17 passes in a row change the value, the call raises the
    validation error.  With [A="${B}"] and [B="x"], ["${A}"] resolves to
    ["x"]; with [A="${A}x"], ["${A}"] raises. *)
Theorem environment_expansion :
  (forall (A : Type) (schema : string -> Py.result A) os value (k : nat),
      (k <= 16)%nat ->
      (forall j, (j < k)%nat ->
                 Validators.pass os (Nat.iter j (Validators.pass os) (Validators.py_str value))
                 <> Nat.iter j (Validators.pass os) (Validators.py_str value)) ->
      Validators.pass os (Nat.iter k (Validators.pass os) (Validators.py_str value))
      = Nat.iter k (Validators.pass os) (Validators.py_str value) ->
      Validators.EnvironmentVar schema 16 os value None =
      schema (Nat.iter k (Validators.pass os) (Validators.py_str value))) /\
  (forall (A : Type) (schema : string -> Py.result A) os value,
      (forall j, (j < 17)%nat ->
                 Validators.pass os (Nat.iter j (Validators.pass os) (Validators.py_str value))
                 <> Nat.iter j (Validators.pass os) (Validators.py_str value)) ->
      Validators.EnvironmentVar schema 16 os value None =
      Py.raise Validators.max_depth_reached) /\
  Validators.EnvironmentVar Examples.as_str 16 Examples.os_chain
    (Validators.Text "${A}") None = Py.ok "x" /\
  Validators.EnvironmentVar Examples.as_str 16 Examples.os_loop
    (Validators.Text "${A}") None = Py.raise Validators.max_depth_reached.
Proof.
  split; [|split; [|split]].
  - intros A schema os value k Hk Hchg Hfix. unfold Validators.EnvironmentVar.
    apply expand_settles; [lia|exact Hchg|exact Hfix].
  - intros A schema os value Hchg. unfold Validators.EnvironmentVar.
    apply (expand_exceeds schema os 17); [lia|exact Hchg].
  - vm_compute. reflexivity.
  - vm_compute. reflexivity.
Qed.

Lemma environment_expansion_witness :
  Validators.EnvironmentVar Examples.as_str 16 Examples.os_chain
    (Validators.Text "${A}") None =
  Py.ok (Nat.iter 2 (Validators.pass Examples.os_chain) "${A}").
Proof.
  apply (proj1 environment_expansion string Examples.as_str Examples.os_chain
           (Validators.Text "${A}") 2%nat).
  - lia.
  - intros j Hj. destruct j as [|[|j]]; [vm_compute; discriminate ..|lia].
  - vm_compute. reflexivity.
Defined.

(** ** What a pass expands *)

Section PassFacts.

Lemma take_while_word (name rest : string) :
  Str.all Os.is_word name = true ->
  match Str.first rest with Some c => Os.is_word c = false | None => True end ->
  Str.take_while Os.is_word (name ++ rest)%string = name.
Proof.
  intros Hname Hrest. induction name as [|c name IH]; simpl in *.
  - destruct rest as [|d rest]; simpl in *; [reflexivity|]. rewrite Hrest. reflexivity.
  - apply andb_true_iff in Hname as [Hc Hname]. rewrite Hc, IH by exact Hname.
    reflexivity.
Qed.

Lemma expandvars_skip (env : gmap string string) (name rest : string) :
  Os.expandvars_go env (String.length name) (name ++ rest)%string =
  Os.expandvars_go env O rest.
Proof.
  induction name as [|c name IH]; simpl.
  - destruct rest; reflexivity.
  - exact IH.
Qed.

Lemma take_app (name rest : string) :
  Str.take (String.length name) (name ++ rest)%string = name.
Proof. induction name as [|c name IH]; simpl; [destruct rest|rewrite IH]; reflexivity. Qed.

(** The match after a ["$"] that is followed by a name without braces. *)
Lemma parse_var_bare (name rest : string) :
  name <> EmptyString ->
  Str.all Os.is_word name = true ->
  match Str.first rest with Some c => Os.is_word c = false | None => True end ->
  Os.parse_var (name ++ rest)%string = Os.Var name (String.length name).
Proof.
  intros Hne Hname Hrest.
  pose proof (take_while_word name rest Hname Hrest) as Htw.
  destruct name as [|c name]; [congruence|].
  unfold Os.parse_var. change (String c name ++ rest)%string with (String c (name ++ rest)%string) in *.
  destruct (Ascii.eqb_spec c "{") as [->|Hc].
  { simpl in Hname. discriminate. }
  rewrite Htw. destruct c as [[] [] [] [] [] [] [] []]; try reflexivity. congruence.
Qed.

(** [$NAME] without braces is expanded. *)
Lemma expandvars_bare (os : Os.t) (name rest value : string) :
  name <> EmptyString ->
  Str.all Os.is_word name = true ->
  match Str.first rest with Some c => Os.is_word c = false | None => True end ->
  Os.environ os !! name = Some value ->
  Os.expandvars os (String "$" (name ++ rest)) =
  (value ++ Os.expandvars os rest)%string.
Proof.
  intros Hne Hname Hrest Henv. unfold Os.expandvars.
  cbn [Os.expandvars_go]. change (Ascii.eqb "$" "$") with true. cbv iota.
  rewrite parse_var_bare by assumption. rewrite Henv, expandvars_skip. reflexivity.
Qed.

(** A leading [~] is replaced by the home directory. *)
Lemma expanduser_home (os : Os.t) (rest home : string) :
  Os.environ os !! "HOME" = Some home ->
  Os.expanduser os (String "~" (String "/" rest)) =
  (Str.rstrip "/" home ++ String "/" rest)%string.
Proof.
  intros Hhome. unfold Os.expanduser. simpl Str.find. cbv iota.
  rewrite Hhome. simpl Str.drop.
  destruct (Str.rstrip "/" home); reflexivity.
Qed.

End PassFacts.

(** C9. What the expander substitutes besides [${NAME}]: each pass is
    [expanduser] after [expandvars], so a [$NAME] without braces whose name
    is in the environment is replaced by its value, and a leading [~/] by
    the home directory; an input that is not a string goes through [str]
    first.  With [HOME="/home/u/"] and [NAME="v"], ["~/$NAME"] resolves to
    ["/home/u/v"]; the number [42] is expanded as ["42"]. *)
Theorem expander_extras :
  (forall os value, Validators.pass os value = Os.expanduser os (Os.expandvars os value)) /\
  (forall os name rest value,
      name <> EmptyString ->
      Str.all Os.is_word name = true ->
      match Str.first rest with Some c => Os.is_word c = false | None => True end ->
      Os.environ os !! name = Some value ->
      Os.expandvars os (String "$" (name ++ rest)) =
      (value ++ Os.expandvars os rest)%string) /\
  (forall os rest home,
      Os.environ os !! "HOME" = Some home ->
      Os.expanduser os (String "~" (String "/" rest)) =
      (Str.rstrip "/" home ++ String "/" rest)%string) /\
  (forall (A : Type) (schema : string -> Py.result A) depth os value max_depth,
      Validators.EnvironmentVar schema depth os value max_depth =
      Validators.EnvironmentVar schema depth os
        (Validators.Text (Validators.py_str value)) max_depth) /\
  Validators.EnvironmentVar Examples.as_str 16 Examples.os_home
    (Validators.Text "~/$NAME") None = Py.ok "/home/u/v" /\
  Validators.EnvironmentVar Examples.as_str 16 Examples.os_home
    (Validators.Number 42) None = Py.ok "42" /\
  Validators.EnvironmentVar Examples.as_str 16 Examples.os_home
    (Validators.Flag true) None = Py.ok "True".
Proof.
  split; [reflexivity|].
  split; [intros; apply expandvars_bare; assumption|].
  split; [intros; apply expanduser_home; assumption|].
  split; [reflexivity|].
  repeat split; vm_compute; reflexivity.
Qed.

Lemma expander_extras_witness :
  Os.expandvars Examples.os_home "$NAME/x" =
  ("v" ++ Os.expandvars Examples.os_home "/x")%string.
Proof.
  refine (proj1 (proj2 expander_extras) Examples.os_home "NAME" "/x" "v" _ _ _ _).
  - discriminate.
  - reflexivity.
  - reflexivity.
  - reflexivity.
Defined.

(** ** Durations *)

Section Durations.

Import Validators.

Lemma string_app_cons (x : ascii) (a b : string) :
  (String x a ++ b)%string = String x (a ++ b)%string.
Proof. reflexivity. Qed.

Lemma string_app_empty (b : string) : ("" ++ b)%string = b.
Proof. reflexivity. Qed.

Lemma all_app (p : ascii -> bool) (a b : string) :
  Str.all p (a ++ b)%string = Str.all p a && Str.all p b.
Proof.
  induction a as [|c a IH]; [reflexivity|].
  rewrite string_app_cons. cbn [Str.all]. rewrite IH. apply andb_assoc.
Qed.

Lemma string_app_assoc (a b c : string) : ((a ++ b) ++ c = a ++ (b ++ c))%string.
Proof.
  induction a as [|x a IH]; [reflexivity|].
  rewrite !string_app_cons, IH. reflexivity.
Qed.

Lemma string_app_nil (a : string) : (a ++ "")%string = a.
Proof.
  induction a as [|x a IH]; [reflexivity|].
  rewrite string_app_cons, IH. reflexivity.
Qed.

(** *** Integer texts *)

Lemma uint_digits (d : Decimal.uint) :
  Str.all is_digit (NilEmpty.string_of_uint d) = true.
Proof. induction d; simpl; auto. Qed.

Lemma uint_text_digits (d : Decimal.uint) :
  isdigit (NilZero.string_of_uint d) = true.
Proof.
  destruct d; try reflexivity;
    unfold NilZero.string_of_uint, isdigit; cbn [NilEmpty.string_of_uint];
    cbn [Str.all]; apply uint_digits.
Qed.

Lemma isdigit_no_minus (s : string) :
  isdigit s = true -> removeprefix_minus s = s.
Proof.
  destruct s as [|c s]; [reflexivity|]. unfold isdigit. cbn [Str.all].
  intros H. apply andb_true_iff in H as [Hc _].
  destruct (Ascii.eqb_spec c "-") as [->|Hne]; [discriminate|].
  unfold removeprefix_minus.
  destruct c as [[] [] [] [] [] [] [] []]; try reflexivity; congruence.
Qed.

(** The text of an integer is read back as that integer. *)
Lemma integer_text (z : Z) :
  TimeToSeconds (Str_ (Str.of_Z z)) = Py.ok (Int z).
Proof.
  unfold TimeToSeconds, Str.of_Z.
  assert (isdigit (removeprefix_minus (NilZero.string_of_int (Z.to_int z))) = true) as ->.
  { destruct (Z.to_int z) as [d|d]; simpl NilZero.string_of_int.
    - rewrite isdigit_no_minus; apply uint_text_digits.
    - apply uint_text_digits. }
  unfold py_int. rewrite NilZero.isi.
  - rewrite DecimalZ.of_to. reflexivity.
  - destruct z; simpl; try discriminate.
    intros [= H]. revert H. apply DecimalPos.Unsigned.to_uint_nonnil.
  - destruct z; simpl; try discriminate.
    intros [= H]. revert H. apply DecimalPos.Unsigned.to_uint_nonnil.
Qed.

(** *** Texts of tokens *)

Lemma digit_facts (c : ascii) :
  is_digit c = true ->
  no_colon c = true /\ not_upper c = true /\ is_space c = false /\
  is_alpha c = false /\ Ascii.eqb c "." = false /\ Ascii.eqb c "-" = false.
Proof.
  destruct c as [[] [] [] [] [] [] [] []]; vm_compute; intros H;
    try discriminate; repeat split.
Qed.

Lemma unit_facts (u : time_unit) :
  Str.all no_colon (unit_text u) = true /\
  Str.all not_upper (unit_text u) = true /\
  Str.all is_alpha (unit_text u) = true /\
  factors (unit_text u) = Some (unit_factor u) /\
  exists c r, unit_text u = String c r /\ is_alpha c = true /\ is_digit c = false /\
              Ascii.eqb c "." = false.
Proof.
  destruct u; repeat split; eexists _, _; repeat split.
Qed.

Lemma all_impl (p q : ascii -> bool) (s : string) :
  (forall c, p c = true -> q c = true) -> Str.all p s = true -> Str.all q s = true.
Proof.
  intros Hpq. induction s as [|c s IH]; simpl; [reflexivity|].
  intros H. apply andb_true_iff in H as [Hc Hs].
  rewrite (Hpq c Hc), IH by exact Hs. reflexivity.
Qed.

Lemma take_while_all (p : ascii -> bool) (a b : string) :
  Str.all p a = true ->
  match b with String c _ => p c = false | EmptyString => True end ->
  Str.take_while p (a ++ b)%string = a.
Proof.
  intros Ha Hb. induction a as [|c a IH]; simpl in *.
  - destruct b as [|d b]; [reflexivity|]. simpl. rewrite Hb. reflexivity.
  - apply andb_true_iff in Ha as [Hc Ha]. rewrite Hc, IH by exact Ha. reflexivity.
Qed.

Lemma drop_app (a b : string) : Str.drop (String.length a) (a ++ b)%string = b.
Proof. induction a as [|c a IH]; simpl; [destruct b; reflexivity|exact IH]. Qed.

Lemma lower_fixed (s : string) : Str.all not_upper s = true -> lower s = s.
Proof.
  induction s as [|c s IH]; simpl; [reflexivity|].
  intros H. apply andb_true_iff in H as [Hc Hs]. rewrite IH by exact Hs.
  unfold lower_char. unfold not_upper in Hc. apply negb_true_iff in Hc.
  rewrite Hc. reflexivity.
Qed.

(** A token is read as its digits and its unit. *)
Lemma search_token (digits : string) (u : time_unit) :
  isdigit digits = true ->
  search (digits ++ unit_text u)%string = Some (digits, unit_text u).
Proof.
  intros Hd. destruct (unit_facts u) as (_ & _ & Halpha & _ & c & r & Hu & Hc & Hcd & _).
  destruct digits as [|d digits]; [discriminate|].
  unfold isdigit in Hd. pose proof Hd as Hall. cbn [Str.all] in Hd.
  apply andb_true_iff in Hd as [Hd0 _].
  change (String d digits ++ unit_text u)%string
    with (String d (digits ++ unit_text u)%string).
  cbn [search]. rewrite Hd0.
  change (String d (digits ++ unit_text u)%string)
    with (String d digits ++ unit_text u)%string.
  rewrite take_while_all; [|exact Hall|rewrite Hu; exact Hcd].
  rewrite drop_app.
  replace (Str.take_while is_alpha (unit_text u)) with (unit_text u).
  - rewrite Hu. reflexivity.
  - rewrite <- (string_app_nil (unit_text u)) at 2.
    rewrite take_while_all; [reflexivity|exact Halpha|exact I].
Qed.

Lemma token_part (t : string * time_unit) :
  isdigit (fst t) = true ->
  Str.all is_space (token_text t) = false /\
  part_seconds (token_text t) = Py.ok (token_seconds t) /\
  Str.all is_space (String "-" (token_text t)) = false /\
  part_seconds (String "-" (token_text t)) = Py.ok (token_seconds t) /\
  Str.all no_colon (token_text t) = true.
Proof.
  destruct t as [digits u]. unfold token_text. cbn [fst snd]. intros Hd.
  destruct (unit_facts u) as (Hcolon & Hupper & _ & Hfac & _).
  assert (Str.all is_digit digits = true) as Hall by (destruct digits; [discriminate|exact Hd]).
  assert (lower (digits ++ unit_text u) = (digits ++ unit_text u)%string) as Hlow.
  { apply lower_fixed. rewrite all_app, Hupper, andb_true_r.
    eapply all_impl; [|exact Hall]. intros c Hc. apply digit_facts in Hc. tauto. }
  split; [|split; [|split; [reflexivity|split]]].
  - destruct digits as [|d digits]; [discriminate|]. cbn [Str.all] in Hall |- *.
    apply andb_true_iff in Hall as [Hd0 _]. apply digit_facts in Hd0.
    simpl. destruct Hd0 as (_ & _ & -> & _). reflexivity.
  - unfold part_seconds. rewrite Hlow, search_token, Hfac by exact Hd. reflexivity.
  - unfold part_seconds. cbn [lower]. rewrite Hlow.
    change (lower_char "-") with "-"%char. cbn [search].
    change (is_digit "-") with false. cbv iota.
    rewrite search_token, Hfac by exact Hd. reflexivity.
  - rewrite all_app, Hcolon, andb_true_r.
    eapply all_impl; [|exact Hall]. intros c Hc. apply digit_facts in Hc. tauto.
Qed.

(** Splitting at [":"] gives back the parts that were joined. *)
Lemma split_part (p rest cur : string) :
  Str.all no_colon p = true ->
  Data.split_go ":" 0 cur (p ++ rest)%string =
  Data.split_go ":" 0 (cur ++ p)%string rest.
Proof.
  revert cur. induction p as [|c p IH]; intros cur Hp; simpl in Hp.
  - simpl. rewrite string_app_nil. reflexivity.
  - apply andb_true_iff in Hp as [Hc Hp].
    change (String c p ++ rest)%string with (String c (p ++ rest)%string).
    cbn [Data.split_go]. unfold no_colon in Hc. apply negb_true_iff in Hc.
    assert (String.prefix ":" (String c (p ++ rest)) = false) as ->.
    { cbn [String.prefix]. destruct (ascii_dec ":" c) as [E|_]; [|reflexivity].
      subst c. discriminate Hc. }
    rewrite IH by exact Hp. rewrite string_app_assoc. reflexivity.
Qed.

Lemma prefix_colon (s : string) : String.prefix ":" (String ":" s) = true.
Proof.
  cbn [String.prefix].
  destruct (ascii_dec ":" ":"); [destruct s; reflexivity|congruence].
Qed.

Lemma prefix_minus (s : string) : String.prefix ":" (String "-" s) = false.
Proof.
  cbn [String.prefix].
  destruct (ascii_dec ":" "-"); [discriminate|reflexivity].
Qed.

Lemma split_joined (parts : list string) :
  forall cur p,
    Forall (fun q => Str.all no_colon q = true) (p :: parts) ->
    Data.split_go ":" 0 cur (String.concat ":" (p :: parts)) = (cur ++ p)%string :: parts.
Proof.
  induction parts as [|q parts IH]; intros cur p Hall.
  - apply Forall_cons in Hall as [Hp _]. simpl.
    rewrite <- (string_app_nil p) at 1. rewrite split_part by exact Hp. reflexivity.
  - apply Forall_cons in Hall as [Hp Hrest].
    change (String.concat ":" (p :: q :: parts))
      with (p ++ String ":" (String.concat ":" (q :: parts)))%string.
    rewrite split_part by exact Hp. cbn [Data.split_go].
    rewrite prefix_colon. change (String.length ":" - 1)%nat with O.
    rewrite IH by exact Hrest. reflexivity.
Qed.

Lemma sum_tokens (tokens : list (string * time_unit)) :
  forall acc,
    Forall (fun t => isdigit (fst t) = true) tokens ->
    sum_parts (map token_text tokens) acc =
    Py.ok (fold_left (fun acc t => add acc (token_seconds t)) tokens acc).
Proof.
  induction tokens as [|t tokens IH]; intros acc Hall; [reflexivity|].
  apply Forall_cons in Hall as [Ht Hrest].
  destruct (token_part t Ht) as (Hblank & Hpart & _).
  simpl. rewrite Hblank, Hpart. apply IH. exact Hrest.
Qed.

Lemma isdigit_false (s : string) : Str.all is_digit s = false -> isdigit s = false.
Proof. destruct s; [reflexivity|exact (fun H => H)]. Qed.

(** A text of tokens is neither an integer text nor a float text. *)
Lemma tokens_not_number (t : string * time_unit) (rest : string) :
  isdigit (fst t) = true ->
  isdigit (token_text t ++ rest) = false /\
  isdigit (remove_dot (token_text t ++ rest)) = false /\
  removeprefix_minus (token_text t ++ rest) = (token_text t ++ rest)%string.
Proof.
  destruct t as [digits u]. unfold token_text. cbn [fst snd]. intros Hd.
  destruct (unit_facts u) as (_ & _ & _ & _ & c & r & Hu & _ & Hcd & Hdot).
  rewrite Hu, string_app_assoc.
  change (String c r ++ rest)%string with (String c (r ++ rest)%string).
  assert (Str.all is_digit digits = true) as Hall by (destruct digits; [discriminate|exact Hd]).
  assert (forall tail, Str.all is_digit (digits ++ String c tail) = false) as Hnot.
  { intros tail. rewrite all_app. simpl. rewrite Hcd, andb_false_r. reflexivity. }
  assert (remove_dot (digits ++ String c (r ++ rest))
          = (digits ++ String c (remove_dot (r ++ rest)))%string) as Hrm.
  { clear Hd Hnot. induction digits as [|d digits IH]; simpl in *.
    - rewrite Hdot. reflexivity.
    - apply andb_true_iff in Hall as [Hd0 Hall]. apply digit_facts in Hd0.
      destruct Hd0 as (_ & _ & _ & _ & -> & _). rewrite IH by exact Hall. reflexivity. }
  split; [|split].
  - apply isdigit_false, Hnot.
  - rewrite Hrm. apply isdigit_false, Hnot.
  - destruct digits as [|d digits]; [discriminate|].
    cbn [Str.all] in Hall. apply andb_true_iff in Hall as [Hd0 _].
    apply digit_facts in Hd0. destruct Hd0 as (_ & _ & _ & _ & _ & Hm).
    simpl. destruct d as [[] [] [] [] [] [] [] []]; try reflexivity; discriminate.
Qed.

(** A text of tokens is read as the sum of its tokens, negated after a
    leading ["-"]. *)
Lemma duration_tokens (negative : bool) (tokens : list (string * time_unit)) :
  tokens <> [] ->
  Forall (fun t => isdigit (fst t) = true) tokens ->
  TimeToSeconds (Str_ (duration_text negative tokens)) =
  Py.ok (total_seconds negative tokens).
Proof.
  intros Hne Hall. destruct tokens as [|t tokens]; [congruence|]. clear Hne.
  pose proof Hall as Hall'. apply Forall_cons in Hall' as [Ht Hrest].
  assert (exists rest, String.concat ":" (map token_text (t :: tokens))
                       = (token_text t ++ rest)%string) as [rest Hrest'].
  { destruct tokens; simpl; eexists; [symmetry; apply string_app_nil|reflexivity]. }
  destruct (tokens_not_number t rest Ht) as (Hn1 & Hn2 & Hrm).
  assert (Forall (fun q => Str.all no_colon q = true) (map token_text (t :: tokens))) as Hcol.
  { apply Forall_map. eapply List.Forall_impl; [|exact Hall].
    intros a Ha. destruct (token_part a Ha) as (_ & _ & _ & _ & Hc). exact Hc. }
  destruct (token_part t Ht) as (Hb & Hp & Hbm & Hpm & _).
  unfold TimeToSeconds, duration_text, total_seconds. destruct negative.
  - change ("-" ++ ?x)%string with (String "-" x).
    cbn [removeprefix_minus startswith_minus]. rewrite Hrest', Hn1, Hn2, <- Hrest'.
    change (String "-" (String.concat ":" (map token_text (t :: tokens))))
      with ("-" ++ String.concat ":" (map token_text (t :: tokens)))%string.
    cbn [map] in Hcol |- *.
    replace (Data.split_go ":" 0 "" ("-" ++ String.concat ":" (token_text t :: map token_text tokens)))
      with (String "-" (token_text t) :: map token_text tokens).
    + cbn [sum_parts]. rewrite Hbm, Hpm. unfold Py.ok at 1. cbv iota.
      rewrite sum_tokens by exact Hrest. reflexivity.
    + symmetry. change ("-" ++ ?x)%string with (String "-" x).
      cbn [Data.split_go].
      rewrite prefix_minus.
      rewrite split_joined by exact Hcol. reflexivity.
  - change ("" ++ ?x)%string with x.
    rewrite Hrest', Hrm, Hn1, Hn2, <- Hrest'.
    cbn [map] in Hcol |- *. rewrite split_joined by exact Hcol.
    change ("" ++ token_text t)%string with (token_text t).
    cbn [sum_parts]. rewrite Hb, Hp. unfold Py.ok at 1. cbv iota.
    rewrite sum_tokens by exact Hrest. unfold Py.ok at 1. cbv iota.
    destruct (startswith_minus _) eqn:Esm; [|reflexivity].
    exfalso. cbn [map] in Hrest'. rewrite Hrest' in Esm.
    destruct (token_text t ++ rest)%string as [|c0 s0] eqn:Etxt; [discriminate|].
    simpl in Hrm.
    destruct c0 as [[] [] [] [] [] [] [] []]; try discriminate.
    simpl in Hrm. simpl in Hn1.
    assert (String.length s0 = S (String.length s0)) as Hlen by (rewrite Hrm at 1; reflexivity).
    lia.
Qed.

End Durations.

(** C8 (duration parsing).  The text of an integer is returned as that
    integer and a number as it is; a text of [":"]-joined tokens of digits
    and a unit is the sum of the tokens, each the [float] of its digits times
    the factor of its unit, negated after a leading ["-"]; so ["1h:30m:15s"]
    is 5415, ["-5"] is -5 and ["2.5"] is 2.5.  A token whose number has a
    point is not read as that number: the pattern takes the digits next to
    the unit, so ["1.5h"] is 18000 seconds (five hours), not the 5400 of
    one and a half hours that the documented form [[int|decimal] + [unit]]
    stands for. *)
Theorem duration_parsing :
  (forall z : Z, Validators.TimeToSeconds (Validators.Str_ (Str.of_Z z))
                 = Py.ok (Validators.Int z)) /\
  (forall n, Validators.TimeToSeconds (Validators.Num n) = Py.ok n) /\
  (forall negative tokens,
      tokens <> [] ->
      Forall (fun t => Validators.isdigit (fst t) = true) tokens ->
      Validators.TimeToSeconds (Validators.Str_ (Validators.duration_text negative tokens))
      = Py.ok (Validators.total_seconds negative tokens)) /\
  Validators.TimeToSeconds (Validators.Str_ "1h:30m:15s")
  = Py.ok (Validators.Float (Validators.float_of_Z 5415)) /\
  Validators.TimeToSeconds (Validators.Str_ "-5") = Py.ok (Validators.Int (-5)) /\
  Validators.TimeToSeconds (Validators.Str_ "2.5")
  = Py.ok (Validators.Float (Validators.float_of_decimal false 25 1)) /\
  Validators.TimeToSeconds (Validators.Str_ "1.5h")
  = Py.ok (Validators.Float (Validators.float_of_Z 18000)) /\
  Validators.mul (Validators.Float (Validators.float_of_decimal false 15 1))
                 (Validators.unit_factor Validators.Hours)
  = Validators.Float (Validators.float_of_Z 5400) /\
  Validators.float_of_Z 18000 <> Validators.float_of_Z 5400.
Proof.
  split; [exact integer_text|].
  split; [reflexivity|].
  split; [exact duration_tokens|].
  repeat split; try (vm_compute; reflexivity).
  vm_compute. discriminate.
Qed.

(** ** Validation failures *)

Section ValidationFacts.

Import Validation.

Variable get_close_matches : string -> list string -> list string.
Variable escaped_str : Data.json -> string.
Variable call : schema -> Data.json -> list error + Data.json.

Lemma list_item_nth {A : Type} (l : list A) (n : nat) (x : A) :
  nth_error l n = Some x -> list_item l (Z.of_nat n) = Py.ok x.
Proof.
  intros H. unfold list_item.
  assert (n < List.length l)%nat as Hlt by (apply nth_error_Some; congruence).
  cbv zeta.
  rewrite (proj2 (Z.ltb_ge (Z.of_nat n) 0)) by lia. cbv iota.
  rewrite (proj2 (Z.ltb_ge (Z.of_nat n) 0)) by lia.
  rewrite (proj2 (Z.leb_gt (Z.of_nat (List.length l)) (Z.of_nat n))) by lia.
  cbn [orb]. rewrite Nat2Z.id, H. reflexivity.
Qed.

(** The loop follows a path that both sides have. *)
Lemma walk_leads (g : schema) (c : Data.json) (path : list Data.pkey)
    (g' : schema) (c' : Data.json) :
  leads_to g c path g' c' -> walk g c path = Py.ok (g', c').
Proof.
  induction 1 as [g c|entries d s g c path g' c' Hg Hc _ IH
                  |items l n g c path g' c' Hg Hc _ IH].
  - reflexivity.
  - cbn [walk is_list schema_item]. rewrite Hg.
    cbn [Py.bind Py.ok config_item]. rewrite Hc. exact IH.
  - cbn [walk is_list schema_element int_of_key Py.bind Py.ok].
    assert (Nat.min n (List.length items - 1) < List.length items)%nat as Hlt
        by (apply nth_error_Some; congruence).
    replace (Z.min (Z.of_nat n) (Z.of_nat (List.length items) - 1))
      with (Z.of_nat (Nat.min n (List.length items - 1))) by lia.
    rewrite (list_item_nth _ _ _ Hg).
    cbn [Py.bind Py.ok config_item]. rewrite (list_item_nth _ _ _ Hc). exact IH.
Qed.

(** The walk looks the key up among the keys of the mapping at the path. *)
Lemma walk_similar_key_leads (root : schema) (config : Data.json)
    (path : list Data.pkey) (entries : list (skey * schema)) (d : Data.dict)
    (key : string) (value : Data.json) :
  leads_to root config path (Mapping entries) (Data.JDict d) ->
  Data.dict_get key d = Some value ->
  walk_similar_key get_close_matches escaped_str (Wrapper root) config path (Data.KStr key)
  = Py.ok match get_close_matches key (map (fun e => skey_str (fst e)) entries) with
          | m :: _ => Some (m, preview (escaped_str value))
          | [] => None
          end.
Proof.
  intros Hl Hv. unfold walk_similar_key. rewrite (walk_leads _ _ _ _ _ Hl).
  cbn [Py.bind Py.ok fst snd keys_of Data.pkey_str].
  destruct (get_close_matches _ _); [reflexivity|].
  cbn [config_item]. rewrite Hv. reflexivity.
Qed.

Lemma split_last_snoc (path : list Data.pkey) (key : Data.pkey) :
  split_last (path ++ [key]) = Some (path, key).
Proof.
  induction path as [|p path IH]; [reflexivity|].
  cbn [app split_last]. rewrite IH.
  destruct (path ++ [key]) eqn:E; [destruct path; discriminate|reflexivity].
Qed.

Lemma last_app (a b : string) (c : ascii) :
  Str.last (a ++ String c b)%string = Str.last (String c b).
Proof.
  induction a as [|x a IH]; [reflexivity|].
  rewrite string_app_cons. cbn [Str.last]. rewrite IH.
  destruct (a ++ String c b)%string eqn:E; [destruct a; discriminate|reflexivity].
Qed.

Lemma closed_no_match (msg key : string) :
  closed (msg ++ ". No close matches found for `" ++ key ++ "`")
  = (msg ++ ". No close matches found for `" ++ key ++ "`.")%string.
Proof.
  unfold closed, ends_sentence.
  rewrite <- !string_app_assoc, last_app. cbn [Str.last].
  change (Ascii.eqb "`" "." || Ascii.eqb "`" "!" || Ascii.eqb "`" "?") with false.
  cbv iota. rewrite !string_app_assoc. reflexivity.
Qed.

Lemma closed_match (msg m config : string) :
  closed (msg ++ ". Did you mean: `" ++ m ++ ": " ++ config ++ "`?")
  = (msg ++ ". Did you mean: `" ++ m ++ ": " ++ config ++ "`?")%string.
Proof.
  unfold closed, ends_sentence.
  replace (msg ++ ". Did you mean: `" ++ m ++ ": " ++ config ++ "`?")%string
    with ((msg ++ ". Did you mean: `" ++ m ++ ": " ++ config ++ "`") ++ "?")%string
    by (rewrite !string_app_assoc; reflexivity).
  rewrite last_app. reflexivity.
Qed.

(** An error that is not an unrecognized key is printed with its field
    and its message. *)
Lemma print_error_plain (schema_ : schema) (configuration : Data.json) (e : error) :
  error_msg e <> extra_keys ->
  print_error get_close_matches escaped_str schema_ configuration e
  = ([Field ("[" ++ error_class e ++ "] ") (fst (fst (field_of e)));
      Error (closed (error_msg e))], None).
Proof.
  intros Hmsg. unfold print_error.
  destruct (field_of e) as [[field path] key]. cbn [fst].
  apply String.eqb_neq in Hmsg. rewrite Hmsg. cbn [andb].
  destruct key; reflexivity.
Qed.

(** An unrecognized key on a path that the schema and the configuration
    both have is printed with the near match among the keys of the
    schema at that path. *)
Lemma print_error_extra (root : schema) (configuration : Data.json) (e : error)
    (path : list Data.pkey) (key : string) (entries : list (skey * schema))
    (d : Data.dict) (value : Data.json) :
  error_path e = path ++ [Data.KStr key] ->
  error_msg e = extra_keys ->
  key <> EmptyString ->
  leads_to root configuration path (Mapping entries) (Data.JDict d) ->
  Data.dict_get key d = Some value ->
  print_error get_close_matches escaped_str (Wrapper root) configuration e
  = ([Field ("[" ++ error_class e ++ "] ") ("[<>]" ++ brackets path ++ " > " ++ key);
      Error match get_close_matches key (map (fun e => skey_str (fst e)) entries) with
            | m :: _ =>
                extra_keys ++ ". Did you mean: `" ++ m ++ ": "
                           ++ preview (escaped_str value) ++ "`?"
            | [] => extra_keys ++ ". No close matches found for `" ++ key ++ "`."
            end], None)%string.
Proof.
  intros Hpath Hmsg Hkey Hl Hv. unfold print_error, field_of.
  rewrite Hpath, split_last_snoc, Hmsg. cbn [Data.pkey_str].
  change (String.eqb extra_keys extra_keys) with true. cbn [andb].
  assert (key_truthy (Data.KStr key) = true) as -> by (destruct key; [congruence|reflexivity]).
  rewrite (walk_similar_key_leads _ _ _ _ _ _ _ Hl Hv). unfold Py.ok.
  destruct (get_close_matches _ _) as [|m ms]; unfold hinted; cbn [Data.pkey_str].
  - rewrite closed_no_match. reflexivity.
  - rewrite closed_match. reflexivity.
Qed.

Lemma print_all (schema_ : schema) (configuration : Data.json) (errors : list error) :
  Forall (fun e => snd (print_error get_close_matches escaped_str schema_ configuration e)
                   = None) errors ->
  print_validation_error get_close_matches escaped_str schema_ configuration errors
  = (flat_map (fun e => fst (print_error get_close_matches escaped_str
                                         schema_ configuration e)) errors, None).
Proof.
  induction 1 as [|e errors He _ IH]; [reflexivity|].
  cbn [print_validation_error flat_map].
  destruct (print_error _ _ _ _ e) as [printed exc]. cbn [fst snd] in *. subst exc.
  rewrite IH. reflexivity.
Qed.

Lemma print_raises (schema_ : schema) (configuration : Data.json) (errors : list error) :
  Exists (fun e => snd (print_error get_close_matches escaped_str schema_ configuration e)
                   <> None) errors ->
  snd (print_validation_error get_close_matches escaped_str schema_ configuration errors)
  <> None.
Proof.
  induction 1 as [e errors He|e errors _ IH]; cbn [print_validation_error].
  - destruct (print_error _ _ _ _ e) as [printed [exc|]]; [easy|]. cbn [snd] in He. congruence.
  - destruct (print_error _ _ _ _ e) as [printed [exc|]]; [easy|].
    destruct (print_validation_error _ _ _ _ errors) as [printed' exc']. exact IH.
Qed.

(** A failed validation exits with 2 when every walk returns, with the
    lines of every error, and otherwise ends in the exception of a walk. *)
Lemma validate_exit (d : Data.dict) (validator : schema) (errors : list error) :
  call validator (Data.JDict d) = inl errors ->
  (Forall (fun e => snd (print_error get_close_matches escaped_str validator (Data.JDict d) e)
                    = None) errors ->
   validate get_close_matches escaped_str call (Data.JDict d) validator
   = Exits 2 (flat_map (fun e => fst (print_error get_close_matches escaped_str
                                                  validator (Data.JDict d) e)) errors)) /\
  (Exists (fun e => snd (print_error get_close_matches escaped_str validator (Data.JDict d) e)
                    <> None) errors ->
   exit_status (validate get_close_matches escaped_str call (Data.JDict d) validator)
   = Some 1).
Proof.
  intros Hcall. unfold validate. rewrite Hcall. split.
  - intros Hall. rewrite (print_all _ _ _ Hall). reflexivity.
  - intros Hex. apply print_raises in Hex.
    destruct (print_validation_error _ _ _ _ errors) as [printed [exc|]]; [reflexivity|].
    cbn [snd] in Hex. congruence.
Qed.

End ValidationFacts.

(** C5 (validation failure).  When validation fails, every error is
    printed with its field and its message, an unrecognized key with the
    near match among the keys of the schema at its path and the preview of
    its value, and the process exits with status 2, as long as every walk
    through the schema returns: that is so on a path of mappings and
    sequences, as in the schema of [test_walk_keys].  A walk that raises ends
    the start with status 1 after the line of the field: the path of a
    misspelled key under the [auth] of a PostgreSQL connection leads
    through the [Switch] of the connection, which the walk cannot
    subscript; the same key in a connection that is a plain mapping gets
    its suggestion and status 2. *)
Theorem validation_failure
    (get_close_matches : string -> list string -> list string)
    (escaped_str : Data.json -> string)
    (call : Validation.schema -> Data.json -> list Validation.error + Data.json) :
  let print_error := Validation.print_error get_close_matches escaped_str in
  let validate := Validation.validate get_close_matches escaped_str call in
  (forall d validator errors,
      call validator (Data.JDict d) = inl errors ->
      (Forall (fun e => snd (print_error validator (Data.JDict d) e) = None) errors ->
       validate (Data.JDict d) validator
       = Validation.Exits 2
           (flat_map (fun e => fst (print_error validator (Data.JDict d) e)) errors)) /\
      (Exists (fun e => snd (print_error validator (Data.JDict d) e) <> None) errors ->
       Validation.exit_status (validate (Data.JDict d) validator) = Some 1)) /\
  (forall schema_ configuration e,
      Validation.error_msg e <> Validation.extra_keys ->
      print_error schema_ configuration e
      = ([Validation.Field ("[" ++ Validation.error_class e ++ "] ")
                           (fst (fst (Validation.field_of e)));
          Validation.Error (Validation.closed (Validation.error_msg e))], None)%string) /\
  (forall root configuration e path key entries d value,
      Validation.error_path e = path ++ [Data.KStr key] ->
      Validation.error_msg e = Validation.extra_keys ->
      key <> EmptyString ->
      Validation.leads_to root configuration path (Validation.Mapping entries) (Data.JDict d) ->
      Data.dict_get key d = Some value ->
      print_error (Validation.Wrapper root) configuration e
      = ([Validation.Field ("[" ++ Validation.error_class e ++ "] ")
                           ("[<>]" ++ Validation.brackets path ++ " > " ++ key);
          Validation.Error
            match get_close_matches key
                    (map (fun e => Validation.skey_str (fst e)) entries) with
            | m :: _ =>
                Validation.extra_keys ++ ". Did you mean: `" ++ m ++ ": "
                  ++ Validation.preview (escaped_str value) ++ "`?"
            | [] =>
                Validation.extra_keys ++ ". No close matches found for `" ++ key ++ "`."
            end], None)%string) /\
  (get_close_matches "ccd" ["ccc"; "ddd"] = ["ccc"] ->
   Validation.walk_similar_key get_close_matches escaped_str
     Examples.walk_schema Examples.walk_config [Data.KStr "a"; Data.KStr "b"] (Data.KStr "ccd")
   = Py.ok (Some ("ccc", Validation.preview (escaped_str (Data.JInt 10))))) /\
  (call (Examples.flow_schema Examples.switch_plain) Examples.postgres_config
   = inl Examples.postgres_errors ->
   validate Examples.postgres_config (Examples.flow_schema Examples.switch_plain)
   = Validation.Raises Py.TypeError
       [Validation.Field "[Invalid] " "[<>][input][0][connection][auth] > usernme"] /\
   Validation.exit_status
     (validate Examples.postgres_config (Examples.flow_schema Examples.switch_plain))
   = Some 1) /\
  (call (Examples.flow_schema Examples.switch_compiled) Examples.postgres_config
   = inl Examples.postgres_errors ->
   validate Examples.postgres_config (Examples.flow_schema Examples.switch_compiled)
   = Validation.Raises Py.KeyError
       [Validation.Field "[Invalid] " "[<>][input][0][connection][auth] > usernme"] /\
   Validation.exit_status
     (validate Examples.postgres_config (Examples.flow_schema Examples.switch_compiled))
   = Some 1) /\
  (call (Examples.flow_schema Examples.connection_a) Examples.postgres_config
   = inl Examples.postgres_errors ->
   get_close_matches "usernme" ["username"; "password"] = ["username"] ->
   validate Examples.postgres_config (Examples.flow_schema Examples.connection_a)
   = Validation.Exits 2
       [Validation.Field "[Invalid] " "[<>][input][0][connection][auth] > usernme";
        Validation.Error
          ("extra keys not allowed. Did you mean: `username: "
             ++ Validation.preview (escaped_str (Data.JStr "test")) ++ "`?")%string;
        Validation.Field "[RequiredFieldInvalid] "
          "[<>][input][0][connection][auth] > username";
        Validation.Error "required key not provided."]).
Proof.
  cbv zeta.
  split; [intros d validator errors; apply validate_exit|].
  split; [apply print_error_plain|].
  split; [apply print_error_extra|].
  split.
  { intros Hm. unfold Validation.walk_similar_key, Examples.walk_schema.
    cbn [Validation.walk Validation.is_list Examples.walk_config Validation.schema_item
         Validation.named_item String.eqb Ascii.eqb Bool.eqb Py.bind Py.ok Validation.config_item
         Data.dict_get Validation.unwrap fst snd Validation.keys_of map
         Validation.skey_str Data.pkey_str].
    rewrite Hm. reflexivity. }
  split; [|split].
  - intros Hcall. unfold Validation.validate.
    change Examples.postgres_config with (Data.JDict
      match Examples.postgres_config with Data.JDict d => d | _ => [] end) at 1 3.
    cbv iota. rewrite Hcall. vm_compute. split; reflexivity.
  - intros Hcall. unfold Validation.validate.
    change Examples.postgres_config with (Data.JDict
      match Examples.postgres_config with Data.JDict d => d | _ => [] end) at 1 3.
    cbv iota. rewrite Hcall. vm_compute. split; reflexivity.
  - intros Hcall Hm. unfold Validation.validate.
    change Examples.postgres_config with (Data.JDict
      match Examples.postgres_config with Data.JDict d => d | _ => [] end) at 1.
    cbv iota. rewrite Hcall.
    unfold Examples.postgres_errors, Examples.flow_schema.
    cbn [Validation.print_validation_error].
    match goal with
    | |- context [Validation.print_error _ _ (Validation.Wrapper ?root) _ _] =>
        assert (Validation.leads_to root Examples.postgres_config Examples.auth_path
                  (Validation.Mapping [(Validation.Named "username", Validation.Opaque_);
                                       (Validation.Named "password", Validation.Opaque_)])
                  (Data.JDict [("usernme", Data.JStr "test"); ("password", Data.JStr "test")]))
          as Hl
    end.
    { unfold Examples.postgres_config, Examples.auth_path.
      repeat (first [ eapply Validation.leads_key; [reflexivity|reflexivity|cbn [Validation.unwrap]]
                    | eapply Validation.leads_index; [reflexivity|reflexivity|cbn [Validation.unwrap]]
                    | apply Validation.leads_here ]). }
    erewrite print_error_extra
      with (path := Examples.auth_path) (key := "usernme") (value := Data.JStr "test")
           (entries := [(Validation.Named "username", Validation.Opaque_);
                        (Validation.Named "password", Validation.Opaque_)])
           (d := [("usernme", Data.JStr "test"); ("password", Data.JStr "test")]);
      [|reflexivity|reflexivity|easy|exact Hl|reflexivity].
    cbn [map fst Validation.skey_str]. rewrite Hm.
    rewrite print_error_plain by easy.
    vm_compute. reflexivity.
Qed.

(** * Further properties of the code *)

(** ** Merging a mapping into a mapping ([core/flow.py], [extend]) *)

Section ExtensionFacts.

Import Data Template.

Lemma extend_scalar (base v : json) : Flow.scalar v = true -> extend base v = Py.ok v.
Proof. destruct v; try reflexivity; discriminate. Qed.

(** Every key of the extension holds the merge of what the base held
    there (an empty mapping if nothing) with the value of the extension;
    the other keys are as in the base. *)
Lemma extend_mapping_entries (ed : dict) :
  forall bd r,
    List.NoDup (map fst ed) ->
    extend (JDict bd) (JDict ed) = inr r ->
    exists rd,
      r = JDict rd /\
      (forall k, dict_get k ed = None -> dict_get k rd = dict_get k bd) /\
      (forall k v, dict_get k ed = Some v ->
                   exists y,
                     extend (match dict_get k bd with Some x => x | None => JDict [] end) v
                     = inr y /\ dict_get k rd = Some y).
Proof.
  induction ed as [|[k' v'] ed IH]; intros bd r Hnd H.
  - injection H as <-. exists bd. split; [reflexivity|].
    split; [reflexivity|discriminate].
  - rewrite extend_entry in H.
    destruct (extend _ v') as [e|x] eqn:Ex; [discriminate|].
    cbn [map fst] in Hnd. apply List.NoDup_cons_iff in Hnd as [Hnotin Hnd].
    destruct (IH _ _ Hnd H) as (rd & -> & Hother & Hset).
    exists rd. split; [reflexivity|]. split.
    + intros k Hnone. cbn [dict_get] in Hnone.
      destruct (String.eqb k k') eqn:E; [discriminate|].
      apply String.eqb_neq in E.
      rewrite (Hother k Hnone). apply dict_get_set_other. congruence.
    + intros k v Hk. cbn [dict_get] in Hk.
      destruct (String.eqb k k') eqn:E.
      * apply String.eqb_eq in E. subst k. injection Hk as <-.
        exists x. split; [exact Ex|].
        rewrite (Hother k' (dict_get_not_In _ _ Hnotin)).
        apply dict_get_set_same.
      * apply String.eqb_neq in E.
        destruct (Hset k v Hk) as (y & Hy & Hget).
        rewrite dict_get_set_other in Hy by congruence.
        exists y. split; [exact Hy|exact Hget].
Qed.

Lemma extend_onto_empty_mapping (item : json) (items : list json) :
  extend (JDict []) (JList (item :: items)) = Py.raise Py.AttributeError.
Proof.
  rewrite extend_cons. destruct (named item); reflexivity.
Qed.

End ExtensionFacts.



(** X2.  An extension cannot add a sequence under a key the base does not
    have: the merge starts from an empty mapping, so a sequence with an
    item never merges (alone in the extension it raises [AttributeError]),
    and an empty sequence leaves an empty mapping under the key. *)
Theorem extension_cannot_add_sequence (bd ed : Data.dict) (k : string)
    (item : Data.json) (items : list Data.json) :
  Data.dict_get k bd = None ->
  (List.NoDup (map fst ed) ->
   Data.dict_get k ed = Some (Data.JList (item :: items)) ->
   forall r, Template.extend (Data.JDict bd) (Data.JDict ed) <> inr r) /\
  Template.extend (Data.JDict bd) (Data.JDict [(k, Data.JList (item :: items))])
  = Py.raise Py.AttributeError /\
  Template.extend (Data.JDict bd) (Data.JDict [(k, Data.JList [])])
  = Py.ok (Data.JDict (bd ++ [(k, Data.JDict [])])).
Proof.
  intros Hk. split; [|split].
  - intros Hnd Hed r H.
    destruct (extend_mapping_entries ed bd r Hnd H) as (rd & _ & _ & Hset).
    destruct (Hset k _ Hed) as (y & Hy & _).
    rewrite Hk, extend_onto_empty_mapping in Hy. discriminate.
  - rewrite extend_entry, Hk, extend_onto_empty_mapping. reflexivity.
  - rewrite extend_entry, Hk. cbn. rewrite dict_set_fresh by exact Hk. reflexivity.
Qed.

Lemma extension_cannot_add_sequence_witness :
  Template.extend (Data.JDict [("input", Data.JList [])])
    (Data.JDict [("transform", Data.JList [Data.JDict [("type", Data.JStr "debug")]])])
  = Py.raise Py.AttributeError.
Proof.
  refine (proj1 (proj2 (extension_cannot_add_sequence
                          [("input", Data.JList [])] [] "transform"
                          (Data.JDict [("type", Data.JStr "debug")]) [] _))).
  reflexivity.
Defined.

(** ** Settings that cannot be changed any more ([core/settings.py]) *)

Section SettingsFacts.

Variable annotations : string -> option (Data.json -> Py.result Data.json).

Lemma set_keeps_persistent (key : string) (value : Data.json) (p : bool)
    (s s' : CoreSettings.state) (k : string) :
  CoreSettings.set annotations key value p s = inr s' ->
  In k (CoreSettings.persistent s) ->
  CoreSettings.values s' !! k = CoreSettings.values s !! k /\
  In k (CoreSettings.persistent s').
Proof.
  unfold CoreSettings.set. intros H Hk.
  destruct (existsb (String.eqb key) (CoreSettings.persistent s)) eqn:Ex.
  - injection H as <-. auto.
  - destruct (annotations key) as [validator|]; [|discriminate].
    destruct (validator value) as [e|v]; [discriminate|].
    injection H as <-. cbn. split.
    + apply lookup_insert_ne. intros <-.
      assert (existsb (String.eqb key) (CoreSettings.persistent s) = true) as Hex
          by (apply existsb_exists; exists key; split; [exact Hk|apply String.eqb_refl]).
      congruence.
    + destruct p; [apply in_or_app; left|]; exact Hk.
Qed.

Lemma set_marks_persistent (key : string) (value : Data.json) (s s' : CoreSettings.state) :
  CoreSettings.set annotations key value true s = inr s' ->
  In key (CoreSettings.persistent s').
Proof.
  unfold CoreSettings.set. intros H.
  destruct (existsb (String.eqb key) (CoreSettings.persistent s)) eqn:Ex.
  - injection H as <-. apply existsb_exists in Ex as (k & Hk & Heq).
    apply String.eqb_eq in Heq. subst k. exact Hk.
  - destruct (annotations key) as [validator|]; [|discriminate].
    destruct (validator value) as [e|v]; [discriminate|].
    injection H as <-. cbn. apply in_or_app. right. left. reflexivity.
Qed.

Lemma extend_keeps_persistent (mapping : Data.dict) :
  forall s s' r k,
    CoreSettings.extend annotations mapping s = (s', r) ->
    In k (CoreSettings.persistent s) ->
    CoreSettings.values s' !! k = CoreSettings.values s !! k /\
    In k (CoreSettings.persistent s').
Proof.
  induction mapping as [|[key value] rest IH]; intros s s' r k H Hk; cbn in H.
  - injection H as <- <-. auto.
  - destruct (CoreSettings.set annotations key value false s) as [e|s1] eqn:Eset.
    + injection H as <- <-. auto.
    + destruct (set_keeps_persistent _ _ _ _ _ k Eset Hk) as [Hv Hp].
      destruct (IH _ _ _ k H Hp) as [Hv' Hp']. split; [congruence|exact Hp'].
Qed.

Lemma load_argv_marks (passed : list (string * Data.json)) :
  forall s s' key,
    CoreSettings.load_argv annotations passed s = (s', inr tt) ->
    In key (map fst passed) \/ In key (CoreSettings.persistent s) ->
    In key (CoreSettings.persistent s').
Proof.
  induction passed as [|[k v] rest IH]; intros s s' key H Hin; cbn in H.
  - injection H as <-. destruct Hin as [[]|Hin]. exact Hin.
  - destruct (CoreSettings.set annotations k v true s) as [e|s1] eqn:Eset; [discriminate|].
    apply (IH _ _ key H). destruct Hin as [[Heq|Hin]|Hin].
    + right. cbn in Heq. subst k. eapply set_marks_persistent. exact Eset.
    + left. exact Hin.
    + right. eapply set_keeps_persistent; [exact Eset|exact Hin].
Qed.

End SettingsFacts.

(** X3.  A setting given on the command line is final: once [load_argv]
    has set it, no later [Settings.set] and no [Settings.extend] with the
    settings of a configuration file changes its value, whether that
    [extend] ends normally or with an exception. *)
Theorem command_line_settings_are_final
    (annotations : string -> option (Data.json -> Py.result Data.json))
    (passed : list (string * Data.json)) (mapping : Data.dict)
    (s0 s1 s2 : CoreSettings.state) (r : Py.result unit) (key : string) :
  CoreSettings.load_argv annotations passed s0 = (s1, inr tt) ->
  In key (map fst passed) ->
  CoreSettings.extend annotations mapping s1 = (s2, r) ->
  CoreSettings.values s2 !! key = CoreSettings.values s1 !! key /\
  (forall value p s3,
      CoreSettings.set annotations key value p s2 = inr s3 ->
      CoreSettings.values s3 !! key = CoreSettings.values s1 !! key).
Proof.
  intros Hargv Hin Hext.
  pose proof (load_argv_marks annotations passed s0 s1 key Hargv (or_introl Hin)) as Hp.
  destruct (extend_keeps_persistent annotations mapping s1 s2 r key Hext Hp) as [Hv Hp2].
  split; [exact Hv|].
  intros value p s3 Hset.
  destruct (set_keeps_persistent annotations key value p s2 s3 key Hset Hp2) as [Hv3 _].
  congruence.
Qed.

Lemma command_line_settings_are_final_witness :
  CoreSettings.values
    (fst (CoreSettings.extend (fun _ => Some (fun v => Py.ok v))
            [("run_once", Data.JBool false); ("timezone", Data.JStr "UTC")]
            {| CoreSettings.values := {["run_once" := Data.JBool true]};
               CoreSettings.persistent := ["run_once"] |}))
    !! "run_once"
  = Some (Data.JBool true).
Proof.
  refine (eq_trans
            (proj1 (command_line_settings_are_final
                      (fun _ => Some (fun v => Py.ok v))
                      [("run_once", Data.JBool true)]
                      [("run_once", Data.JBool false); ("timezone", Data.JStr "UTC")]
                      {| CoreSettings.values := empty; CoreSettings.persistent := [] |}
                      _ _ _ "run_once" _ _ _)) _).
  - reflexivity.
  - left. reflexivity.
  - apply surjective_pairing.
  - reflexivity.
Defined.

(** ** Loading extensions ([core/flow.py], [load_extensions]) *)

Section LoadFacts.

Import Data Template.

Variable get_close_matches : string -> list string -> list string.
Variable escaped_str : Data.json -> string.
Variable call : Validation.schema -> Data.json -> list Validation.error + Data.json.
Variable annotations : string -> option (Data.json -> Py.result Data.json).
Variable noreq_schema : Validation.schema.

Abbreviation apply_templates :=
  (Flow.apply_templates get_close_matches escaped_str call annotations noreq_schema).

(** Only a mapping passes [validate]. *)
Lemma validate_returns_mapping (configuration validated : json) (validator : Validation.schema) :
  Validation.validate get_close_matches escaped_str call configuration validator
  = Validation.Returns validated ->
  exists d, configuration = JDict d.
Proof.
  unfold Validation.validate. destruct configuration; try discriminate.
  intros _. eexists. reflexivity.
Qed.

(** One document of the loop: a document that is skipped changes nothing;
    one that is merged is a mapping. *)
Lemma apply_templates_step (template : json) (rest : list json) (bd : dict)
    (s : CoreSettings.state) (c' : json) (s' : CoreSettings.state) :
  apply_templates (template :: rest) (JDict bd) s = Flow.Loaded c' s' ->
  (truthy template = false /\ apply_templates rest (JDict bd) s = Flow.Loaded c' s') \/
  (exists ed rd mapping s1 r,
      template = JDict ed /\ truthy template = true /\
      extend (JDict bd) (JDict ed) = inr (JDict rd) /\
      CoreSettings.extend annotations mapping s = (s1, r) /\
      apply_templates rest (JDict rd) s1 = Flow.Loaded c' s').
Proof.
  cbn [Flow.apply_templates]. intros H.
  destruct (truthy template) eqn:Et; cbn [negb] in H; [right|left; auto].
  destruct (Validation.validate _ _ _ template noreq_schema) as [validated| |] eqn:Ev;
    try discriminate.
  destruct (validate_returns_mapping _ _ _ Ev) as [ed ->].
  destruct (extend (JDict bd) (JDict ed)) as [e|x] eqn:Ex; [discriminate|].
  pose proof (extend_mapping _ _ _ Ex) as Hm.
  destruct x as [| | | | |rd]; try contradiction.
  destruct (Flow.flow_settings (JDict rd)) as [e|mapping]; [discriminate|].
  destruct (CoreSettings.extend annotations mapping s) as [s1 [e|u]] eqn:Es; [discriminate|].
  exists ed, rd, mapping, s1, (inr u). auto.
Qed.

(** Documents that do not have the key leave its value alone, and
    nothing changes a setting that cannot be changed any more. *)
Lemma apply_templates_keeps (k : string) (templates : list json) :
  forall bd s c' s',
    apply_templates templates (JDict bd) s = Flow.Loaded c' s' ->
    exists rd,
      c' = JDict rd /\
      ((forall ed, In (JDict ed) templates -> List.NoDup (map fst ed) /\ dict_get k ed = None) ->
       dict_get k rd = dict_get k bd) /\
      (forall key, In key (CoreSettings.persistent s) ->
                   CoreSettings.values s' !! key = CoreSettings.values s !! key /\
                   In key (CoreSettings.persistent s')).
Proof.
  induction templates as [|template rest IH]; intros bd s c' s' H.
  - injection H as <- <-. exists bd. auto.
  - apply apply_templates_step in H
      as [[_ H]|(ed & rd & mapping & s1 & r & -> & _ & Hext & Hset & H)].
    + destruct (IH _ _ _ _ H) as (rd & -> & Hkeep & Hp). exists rd.
      split; [reflexivity|]. split; [|exact Hp].
      intros Hno. apply Hkeep. intros ed Hin. apply Hno. right. exact Hin.
    + destruct (IH _ _ _ _ H) as (rd' & -> & Hkeep & Hp). exists rd'.
      split; [reflexivity|]. split.
      * intros Hno. rewrite Hkeep by (intros ed' Hin; apply Hno; right; exact Hin).
        destruct (Hno ed (or_introl eq_refl)) as [Hnd Hnone].
        destruct (extend_mapping_entries ed bd _ Hnd Hext) as (rd0 & [= <-] & Hother & _).
        apply Hother. exact Hnone.
      * intros key Hkey.
        destruct (extend_keeps_persistent annotations mapping s s1 r key Hset Hkey) as [Hv Hin].
        destruct (Hp key Hin) as [Hv' Hin']. split; [congruence|exact Hin'].
Qed.

Lemma apply_templates_app (ts1 : list json) :
  forall ts2 bd s c' s',
    apply_templates (ts1 ++ ts2) (JDict bd) s = Flow.Loaded c' s' ->
    exists rd s1,
      apply_templates ts1 (JDict bd) s = Flow.Loaded (JDict rd) s1 /\
      apply_templates ts2 (JDict rd) s1 = Flow.Loaded c' s'.
Proof.
  induction ts1 as [|template rest IH]; intros ts2 bd s c' s' H.
  - exists bd, s. auto.
  - cbn [app Flow.apply_templates] in H |- *.
    destruct (truthy template); cbn [negb] in H |- *; [|apply IH; exact H].
    destruct (Validation.validate _ _ _ template noreq_schema) as [validated| |] eqn:Ev;
      try discriminate.
    destruct (validate_returns_mapping _ _ _ Ev) as [ed ->].
    destruct (extend (JDict bd) (JDict ed)) as [e|x] eqn:Ex; [discriminate|].
    pose proof (extend_mapping _ _ _ Ex) as Hm.
    destruct x as [| | | | |rd]; try contradiction.
    destruct (Flow.flow_settings (JDict rd)) as [e|mapping]; [discriminate|].
    destruct (CoreSettings.extend annotations mapping s) as [s1 [e|u]]; [discriminate|].
    apply IH. exact H.
Qed.

(** The document that sets a key to a scalar, followed by documents that
    do not have the key. *)
Lemma apply_templates_sets (k : string) (v : json) (ed : dict) (later : list json)
    (bd : dict) (s : CoreSettings.state) (c' : json) (s' : CoreSettings.state) :
  apply_templates (JDict ed :: later) (JDict bd) s = Flow.Loaded c' s' ->
  List.NoDup (map fst ed) -> dict_get k ed = Some v -> Flow.scalar v = true ->
  (forall ed', In (JDict ed') later -> List.NoDup (map fst ed') /\ dict_get k ed' = None) ->
  exists rd, c' = JDict rd /\ dict_get k rd = Some v.
Proof.
  intros H Hnd Hk Hs Hlater.
  apply apply_templates_step in H
    as [[Et _]|(ed0 & rd & mapping & s1 & r & [= <-] & _ & Hext & _ & H)].
  { destruct ed; [discriminate|discriminate]. }
  destruct (apply_templates_keeps k later _ _ _ _ H) as (rd' & -> & Hkeep & _).
  exists rd'. split; [reflexivity|]. rewrite (Hkeep Hlater).
  destruct (extend_mapping_entries ed bd _ Hnd Hext) as (rd0 & [= <-] & _ & Hset).
  destruct (Hset k v Hk) as (y & Hy & Hget).
  rewrite extend_scalar in Hy by exact Hs. injection Hy as <-. exact Hget.
Qed.

End LoadFacts.



(** X5.  Loading extensions never changes a setting that cannot be
    changed any more: each merged document passes its [flow.settings] to
    [Settings.extend], and a setting of the command line keeps its value
    through all of them. *)
Theorem extensions_keep_final_settings
    (get_close_matches : string -> list string -> list string)
    (escaped_str : Data.json -> string)
    (call : Validation.schema -> Data.json -> list Validation.error + Data.json)
    (annotations : string -> option (Data.json -> Py.result Data.json))
    (noreq_schema : Validation.schema)
    (templates : list Data.json) (bd : Data.dict) (s : CoreSettings.state)
    (c' : Data.json) (s' : CoreSettings.state) (key : string) :
  Flow.load_extensions get_close_matches escaped_str call annotations noreq_schema
    templates (Data.JDict bd) s = Flow.Loaded c' s' ->
  In key (CoreSettings.persistent s) ->
  CoreSettings.values s' !! key = CoreSettings.values s !! key.
Proof.
  unfold Flow.load_extensions. intros H Hkey.
  destruct (Validation.validate _ _ _ (Data.JDict bd) noreq_schema); try discriminate.
  destruct (apply_templates_keeps get_close_matches escaped_str call annotations
              noreq_schema key _ _ _ _ _ H) as (rd & _ & _ & Hp).
  apply Hp. exact Hkey.
Qed.

Lemma extensions_keep_final_settings_witness :
  CoreSettings.values
    {| CoreSettings.values := {["run_once" := Data.JBool true]};
       CoreSettings.persistent := ["run_once"] |} !! "run_once"
  = Some (Data.JBool true).
Proof.
  refine (eq_trans
            (extensions_keep_final_settings
               (fun _ _ => []) (fun _ => EmptyString) (fun _ c => inr c)
               (fun _ => Some (fun v => Py.ok v)) Validation.Opaque_
               [Data.JDict [("flow", Data.JDict [("settings",
                  Data.JDict [("run_once", Data.JBool false)])])]]
               []
               {| CoreSettings.values := {["run_once" := Data.JBool true]};
                  CoreSettings.persistent := ["run_once"] |}
               _ _ "run_once" _ _) _).
  - vm_compute. reflexivity.
  - left. reflexivity.
  - reflexivity.
Defined.

(** ** Flattening ([core/helpers.py], [flatten]) *)

Section FlattenFacts.

Import Data Helpers.

Lemma flatten_item_list (k_chain : list pkey) (l : list json) :
  flatten_item k_chain (JList l) = flatten_elements k_chain 0 l.
Proof.
  cbn [flatten_item]. generalize 0%nat.
  induction l as [|x l IH]; intros i; [reflexivity|].
  cbn [flatten_elements]. rewrite <- IH. reflexivity.
Qed.

Lemma flatten_item_dict (k_chain : list pkey) (d : dict) :
  flatten_item k_chain (JDict d) = flatten_entries k_chain d.
Proof.
  cbn [flatten_item].
  induction d as [|[k x] d IH]; [reflexivity|].
  cbn [flatten_entries]. rewrite <- IH. reflexivity.
Qed.

Lemma unique_keys_list (l : list json) :
  unique_keys (JList l) <-> Forall unique_keys l.
Proof.
  induction l as [|x l IH].
  - split; [constructor|exact (fun _ => I)].
  - change (unique_keys (JList (x :: l))) with (unique_keys x /\ unique_keys (JList l)).
    rewrite IH. split.
    + intros [Hx Hl]. constructor; assumption.
    + intros H. apply Forall_cons in H. exact H.
Qed.

Lemma unique_keys_dict (d : dict) :
  unique_keys (JDict d) <->
  List.NoDup (map fst d) /\ Forall (fun kv => unique_keys (snd kv)) d.
Proof.
  change (unique_keys (JDict d)) with
    (List.NoDup (map fst d) /\
     (fix all (d : dict) : Prop :=
        match d with
        | [] => True
        | (_, x) :: d' => unique_keys x /\ all d'
        end) d).
  apply and_iff_compat_l.
  induction d as [|[k x] d IH].
  - split; [constructor|exact (fun _ => I)].
  - rewrite IH. split.
    + intros [Hx Hd]. constructor; assumption.
    + intros H. apply Forall_cons in H. exact H.
Qed.

Lemma dict_get_In (k : string) (x : json) (d : dict) :
  List.NoDup (map fst d) -> (dict_get k d = Some x <-> In (k, x) d).
Proof.
  induction d as [|[k' x'] d IH]; intros Hnd; cbn [dict_get].
  - split; [discriminate|intros []].
  - cbn [map fst] in Hnd. apply List.NoDup_cons_iff in Hnd as [Hnotin Hnd].
    destruct (String.eqb k k') eqn:E.
    + apply String.eqb_eq in E. subst k'. split.
      * intros [= <-]. left. reflexivity.
      * intros [[= <-]|Hin]; [reflexivity|].
        exfalso. apply Hnotin. apply (in_map fst) in Hin. exact Hin.
    + apply String.eqb_neq in E. rewrite (IH Hnd). split.
      * intros Hin. right. exact Hin.
      * intros [[= <- <-]|Hin]; [congruence|exact Hin].
Qed.

Lemma scalar_chain (x : json) (suffix : list pkey) (v : json) :
  Flow.scalar x = true -> get_chain suffix x = Some v -> suffix = [] /\ v = x.
Proof.
  intros Hs H. destruct suffix as [|[k|i] rest].
  - injection H as <-. auto.
  - destruct x; discriminate.
  - destruct x; discriminate.
Qed.

(** What [flatten] lists under a value: the scalars in it, each with the
    chain that leads to it. *)
Lemma flatten_item_spec (x : json) :
  unique_keys x ->
  forall pre chain v,
    In (chain, v) (flatten_item pre x) <->
    exists suffix, chain = pre ++ suffix /\ get_chain suffix x = Some v /\
                   Flow.scalar v = true.
Proof.
  induction x as [| b | z | s | l IHl | d IHd] using json_induction; intros Hu pre chain v.
  1-4: (cbn [flatten_item]; split;
        [ intros [[= <- <-]|[]]; exists []; rewrite app_nil_r; auto
        | intros (suffix & -> & Hget & _);
          apply scalar_chain in Hget as [-> ->]; [|reflexivity];
          rewrite app_nil_r; left; reflexivity ]).
  - rewrite flatten_item_list. apply unique_keys_list in Hu.
    assert (forall i,
               In (chain, v) (flatten_elements pre i l) <->
               exists j x, nth_error l j = Some x /\
                           In (chain, v) (flatten_item (pre ++ [KIdx (i + j)]) x)) as Hel.
    { clear IHl Hu. induction l as [|x l IH]; intros i; cbn [flatten_elements].
      - split; [intros []|]. intros (j & x & Hj & _). destruct j; discriminate.
      - rewrite in_app_iff, IH. split.
        + intros [Hin|(j & y & Hj & Hin)].
          * exists 0%nat, x. rewrite Nat.add_0_r. auto.
          * exists (S j), y. rewrite Nat.add_succ_r. auto.
        + intros (j & y & Hj & Hin). destruct j as [|j].
          * injection Hj as <-. rewrite Nat.add_0_r in Hin. left. exact Hin.
          * right. exists j, y. rewrite Nat.add_succ_r in Hin. auto. }
    rewrite Hel. split.
    + intros (j & x & Hj & Hin). cbn [Nat.add] in Hin.
      assert (In x l) as Hx by (eapply nth_error_In; exact Hj).
      rewrite List.Forall_forall in IHl, Hu.
      apply (IHl x Hx (Hu x Hx)) in Hin as (suffix & -> & Hget & Hs).
      exists (KIdx j :: suffix). rewrite <- app_assoc. split; [reflexivity|].
      cbn [get_chain]. rewrite Hj. auto.
    + intros (suffix & -> & Hget & Hs).
      destruct suffix as [|[k|j] rest]; cbn [get_chain] in Hget.
      * injection Hget as <-. discriminate.
      * discriminate.
      * destruct (nth_error l j) as [x|] eqn:Hj; [|discriminate].
        exists j, x. split; [exact Hj|]. cbn [Nat.add].
        assert (In x l) as Hx by (eapply nth_error_In; exact Hj).
        rewrite List.Forall_forall in IHl, Hu.
        apply (IHl x Hx (Hu x Hx)). exists rest. rewrite <- app_assoc. auto.
  - rewrite flatten_item_dict. apply unique_keys_dict in Hu as [Hnd Hu].
    assert (In (chain, v) (flatten_entries pre d) <->
            exists k x, In (k, x) d /\
                        In (chain, v) (flatten_item (pre ++ [KStr k]) x)) as Hen.
    { clear IHd Hu Hnd. induction d as [|[k x] d IH]; cbn [flatten_entries].
      - split; [intros []|]. intros (k & x & [] & _).
      - rewrite in_app_iff, IH. split.
        + intros [Hin|(k' & y & Hk & Hin)].
          * exists k, x. split; [left; reflexivity|exact Hin].
          * exists k', y. split; [right; exact Hk|exact Hin].
        + intros (k' & y & [[= <- <-]|Hk] & Hin); [left; exact Hin|].
          right. exists k', y. auto. }
    rewrite Hen. rewrite List.Forall_forall in IHd, Hu. split.
    + intros (k & x & Hk & Hin).
      apply (IHd (k, x) Hk (Hu (k, x) Hk)) in Hin as (suffix & -> & Hget & Hs).
      exists (KStr k :: suffix). rewrite <- app_assoc. split; [reflexivity|].
      cbn [get_chain]. rewrite (proj2 (dict_get_In k x d Hnd) Hk). auto.
    + intros (suffix & -> & Hget & Hs).
      destruct suffix as [|[k|j] rest]; cbn [get_chain] in Hget.
      * injection Hget as <-. discriminate.
      * destruct (dict_get k d) as [x|] eqn:Hk; [|discriminate].
        apply (dict_get_In k x d Hnd) in Hk.
        exists k, x. split; [exact Hk|].
        apply (IHd (k, x) Hk (Hu (k, x) Hk)). exists rest. rewrite <- app_assoc. auto.
      * discriminate.
Qed.

End FlattenFacts.

(** X6.  [flatten] lists exactly the scalars of a record, each under the
    chain of keys and indexes that leads to it: a pair is in the result if
    and only if following the chain from the record reaches the value and
    the value is neither a mapping nor a sequence.  An empty mapping or
    sequence in the record leaves no entry. *)
Theorem flatten_lists_the_scalars (obj : Data.dict) (chain : list Data.pkey) (v : Data.json) :
  Helpers.unique_keys (Data.JDict obj) ->
  (In (chain, v) (Data.flatten obj) <->
   Helpers.get_chain chain (Data.JDict obj) = Some v /\ Flow.scalar v = true).
Proof.
  intros Hu. unfold Data.flatten.
  rewrite (flatten_item_spec (Data.JDict obj) Hu [] chain v). split.
  - intros (suffix & -> & Hget & Hs). auto.
  - intros [Hget Hs]. exists chain. auto.
Qed.

Lemma flatten_lists_the_scalars_witness :
  In ([Data.KStr "c"; Data.KIdx 1], Data.JInt 2)
     (Data.flatten [("a", Data.JDict []); ("c", Data.JList [Data.JInt 1; Data.JInt 2])]).
Proof.
  apply (flatten_lists_the_scalars
           [("a", Data.JDict []); ("c", Data.JList [Data.JInt 1; Data.JInt 2])]).
  - cbn. repeat split; repeat constructor; simpl; intuition discriminate.
  - split; reflexivity.
Defined.

Section FlattenDistinct.

Import Data Helpers.

Lemma flatten_elements_In (pre chain : list pkey) (l : list json) :
  forall i,
    In chain (map fst (flatten_elements pre i l)) ->
    exists j x, nth_error l j = Some x /\
                In chain (map fst (flatten_item (pre ++ [KIdx (i + j)]) x)).
Proof.
  induction l as [|x l IH]; intros i; cbn [flatten_elements]; [intros []|].
  rewrite map_app, in_app_iff. intros [Hin|Hin].
  - exists 0%nat, x. rewrite Nat.add_0_r. auto.
  - destruct (IH _ Hin) as (j & y & Hj & Hy).
    exists (S j), y. rewrite Nat.add_succ_r. auto.
Qed.

Lemma flatten_entries_In (pre chain : list pkey) (d : dict) :
  In chain (map fst (flatten_entries pre d)) ->
  exists k x, In (k, x) d /\ In chain (map fst (flatten_item (pre ++ [KStr k]) x)).
Proof.
  induction d as [|[k x] d IH]; cbn [flatten_entries]; [intros []|].
  rewrite map_app, in_app_iff. intros [Hin|Hin].
  - exists k, x. split; [left; reflexivity|exact Hin].
  - destruct (IH Hin) as (k' & y & Hk & Hy). exists k', y. split; [right; exact Hk|exact Hy].
Qed.

Lemma flatten_item_prefix (x : json) (pre chain : list pkey) :
  unique_keys x ->
  In chain (map fst (flatten_item pre x)) -> exists suffix, chain = pre ++ suffix.
Proof.
  intros Hu Hin. apply in_map_iff in Hin as ([c v] & <- & Hin).
  apply (flatten_item_spec x Hu) in Hin as (suffix & -> & _). exists suffix. reflexivity.
Qed.

Lemma flatten_item_distinct (x : json) :
  unique_keys x -> forall pre, List.NoDup (map fst (flatten_item pre x)).
Proof.
  induction x as [| b | z | s | l IHl | d IHd] using json_induction; intros Hu pre.
  1-4: (cbn; constructor; [intros []|constructor]).
  - rewrite flatten_item_list. apply unique_keys_list in Hu. generalize 0%nat.
    induction l as [|x l IH]; intros i; cbn [flatten_elements]; [constructor|].
    apply Forall_cons in IHl as [IHx IHl]. apply Forall_cons in Hu as [Hx Hl].
    rewrite map_app. apply List.NoDup_app.
    + apply IHx. exact Hx.
    + apply IH; assumption.
    + intros chain H1 H2.
      apply (flatten_item_prefix x _ _ Hx) in H1 as (s1 & ->).
      apply flatten_elements_In in H2 as (j & y & Hj & H2).
      assert (unique_keys y) as Hy
          by (rewrite List.Forall_forall in Hl; apply Hl; eapply nth_error_In; exact Hj).
      apply (flatten_item_prefix y _ _ Hy) in H2 as (s2 & H2).
      rewrite <- !app_assoc in H2. apply app_inv_head in H2. cbn in H2.
      injection H2 as H2 _. lia.
  - rewrite flatten_item_dict. apply unique_keys_dict in Hu as [Hnd Hu].
    induction d as [|[k x] d IH]; cbn [flatten_entries]; [constructor|].
    apply Forall_cons in IHd as [IHx IHd]. apply Forall_cons in Hu as [Hx Hd].
    cbn [map fst] in Hnd. apply List.NoDup_cons_iff in Hnd as [Hnotin Hnd].
    rewrite map_app. apply List.NoDup_app.
    + apply IHx. exact Hx.
    + apply IH; assumption.
    + intros chain H1 H2.
      apply (flatten_item_prefix x _ _ Hx) in H1 as (s1 & ->).
      apply flatten_entries_In in H2 as (k' & y & Hk & H2).
      assert (unique_keys y) as Hy
          by (rewrite List.Forall_forall in Hd; apply (Hd (k', y)); exact Hk).
      apply (flatten_item_prefix y _ _ Hy) in H2 as (s2 & H2).
      rewrite <- !app_assoc in H2. apply app_inv_head in H2. cbn in H2.
      injection H2 as H2 _. subst k'.
      apply Hnotin. apply (in_map fst) in Hk. exact Hk.
Qed.

End FlattenDistinct.

(** X7.  No chain is listed twice by [flatten]: the flattened dictionary
    has one entry for every scalar of the record, and none overwrites
    another. *)
Theorem flatten_chains_are_distinct (obj : Data.dict) :
  Helpers.unique_keys (Data.JDict obj) ->
  List.NoDup (map fst (Data.flatten obj)).
Proof.
  intros Hu. apply (flatten_item_distinct (Data.JDict obj) Hu).
Qed.

Lemma flatten_chains_are_distinct_witness :
  List.NoDup (map fst (Data.flatten
                         [("h.i", Data.JDict [("j", Data.JInt 1)]);
                          ("h", Data.JDict [("i.j", Data.JInt 2)])])).
Proof.
  apply flatten_chains_are_distinct.
  cbn. repeat split; repeat constructor; simpl; intuition discriminate.
Defined.

(** ** Cron expressions ([core/helpers.py], [parse_cron]) *)

Section SplitFacts.

Variable c : ascii.

Lemma prefix_separator (x : ascii) (s : string) :
  String.prefix (String c EmptyString) (String x s) = Ascii.eqb x c.
Proof.
  cbn [String.prefix]. destruct (ascii_dec c x) as [<-|Hne].
  - rewrite Ascii.eqb_refl. destruct s; reflexivity.
  - symmetry. apply Ascii.eqb_neq. congruence.
Qed.

Lemma split_go_part (p rest cur : string) :
  Str.all (Helpers.other_than c) p = true ->
  Data.split_go (String c EmptyString) 0 cur (p ++ rest)%string =
  Data.split_go (String c EmptyString) 0 (cur ++ p)%string rest.
Proof.
  revert cur. induction p as [|x p IH]; intros cur Hp.
  - rewrite string_app_empty, string_app_nil. reflexivity.
  - cbn [Str.all] in Hp. apply andb_true_iff in Hp as [Hx Hp].
    rewrite string_app_cons. cbn [Data.split_go].
    rewrite prefix_separator. unfold Helpers.other_than in Hx. apply negb_true_iff in Hx.
    rewrite Hx, IH by exact Hp. rewrite string_app_assoc. reflexivity.
Qed.

(** Splitting at a character gives back the parts it joined. *)
Lemma split_go_joined (parts : list string) :
  forall cur p,
    Forall (fun q => Str.all (Helpers.other_than c) q = true) (p :: parts) ->
    Data.split_go (String c EmptyString) 0 cur
      (String.concat (String c EmptyString) (p :: parts))
    = (cur ++ p)%string :: parts.
Proof.
  induction parts as [|q parts IH]; intros cur p Hall.
  - apply Forall_cons in Hall as [Hp _]. cbn [String.concat].
    rewrite <- (string_app_nil p) at 1. rewrite split_go_part by exact Hp. reflexivity.
  - apply Forall_cons in Hall as [Hp Hrest].
    change (String.concat (String c EmptyString) (p :: q :: parts))
      with (p ++ String c (String.concat (String c EmptyString) (q :: parts)))%string.
    rewrite split_go_part by exact Hp. cbn [Data.split_go].
    rewrite prefix_separator, Ascii.eqb_refl.
    change (String.length (String c EmptyString) - 1)%nat with O.
    rewrite IH by exact Hrest. reflexivity.
Qed.

End SplitFacts.

(** X8.  [parse_cron] reads the fields of a cron expression by position:
    of the parts that single spaces separate, the first five are the
    minute, the hour, the day of the month, the month and the day of the
    week; a part that is missing is ["*"], and a sixth part or any after
    it is ignored. *)
Theorem parse_cron_by_position (fields : list string) :
  fields <> [] ->
  Forall (fun f => Str.all (Helpers.other_than " ") f = true) fields ->
  Helpers.parse_cron (String.concat " " fields)
  = {| Helpers.minute := nth 0 fields "*";
       Helpers.hour := nth 1 fields "*";
       Helpers.day_of_month := nth 2 fields "*";
       Helpers.month_of_year := nth 3 fields "*";
       Helpers.day_of_week := nth 4 fields "*" |}.
Proof.
  intros Hne Hall. destruct fields as [|f fields]; [congruence|].
  unfold Helpers.parse_cron.
  rewrite (split_go_joined " " fields EmptyString f Hall). reflexivity.
Qed.

Lemma parse_cron_by_position_witness :
  Helpers.parse_cron "*/5 8 * * 1 2030"
  = {| Helpers.minute := "*/5"; Helpers.hour := "8"; Helpers.day_of_month := "*";
       Helpers.month_of_year := "*"; Helpers.day_of_week := "1" |} /\
  Helpers.parse_cron "0 12"
  = {| Helpers.minute := "0"; Helpers.hour := "12"; Helpers.day_of_month := "*";
       Helpers.month_of_year := "*"; Helpers.day_of_week := "*" |}.
Proof.
  split.
  - apply (parse_cron_by_position ["*/5"; "8"; "*"; "*"; "1"; "2030"]).
    + discriminate.
    + repeat constructor.
  - apply (parse_cron_by_position ["0"; "12"]).
    + discriminate.
    + repeat constructor.
Defined.

(** ** Extraction and attributes ([core/task.py]) *)

Section ExtractionErrors.

Import Data.

Lemma pop_path_present (chain : list string) (top : string) :
  forall v r, pop_path chain top v = inr r -> has_path (chain ++ [top]) v = true.
Proof.
  induction chain as [|k chain IH]; intros v r H; cbn [pop_path app has_path] in *.
  - destruct v as [| | | | |d]; try discriminate.
    unfold dict_pop in H. destruct (dict_get top d); [reflexivity|discriminate].
  - destruct v as [| | | | |d]; try discriminate.
    destruct (dict_get k d) as [child|]; [|discriminate].
    destruct (pop_path chain top child) as [e|r'] eqn:Ep; [discriminate|].
    eapply IH. exact Ep.
Qed.

(** With unique keys, a later value of the second mapping wins over the
    first mapping. *)
Lemma dict_get_union (k : string) (e : dict) :
  forall d,
    List.NoDup (map fst e) ->
    dict_get k (dict_union d e)
    = match dict_get k e with Some v => Some v | None => dict_get k d end.
Proof.
  unfold dict_union.
  induction e as [|[k' v] e IH]; intros d Hnd; cbn [fold_left dict_get fst snd].
  - reflexivity.
  - cbn [map fst] in Hnd. apply List.NoDup_cons_iff in Hnd as [Hnotin Hnd].
    rewrite IH by exact Hnd.
    destruct (String.eqb k k') eqn:E.
    + apply String.eqb_eq in E. subst k'.
      rewrite (dict_get_not_In _ _ Hnotin). apply dict_get_set_same.
    + apply String.eqb_neq in E. destruct (dict_get k e); [reflexivity|].
      apply dict_get_set_other. congruence.
Qed.

End ExtractionErrors.

(** *** Records of nested mappings *)

Section NestedMappings.

Import Data Helpers.

Variable c : ascii.

Abbreviation sep := (String c EmptyString).
Abbreviation free := (fun k : string => Str.all (fun a => negb (Ascii.eqb a c)) k = true).

Lemma nested_entry (d : dict) (k : string) (y : json) :
  Task.nested_mappings c (JDict d) = true -> dict_get k d = Some y ->
  free k /\ Task.nested_mappings c y = true.
Proof.
  induction d as [|[k' x] d IH]; cbn [dict_get]; [discriminate|].
  change (Task.nested_mappings c (JDict ((k', x) :: d)))
    with (Str.all (fun a => negb (Ascii.eqb a c)) k' && Task.nested_mappings c x
          && Task.nested_mappings c (JDict d)).
  intros H. apply andb_true_iff in H as [H Hd]. apply andb_true_iff in H as [Hk Hx].
  destruct (String.eqb k k') eqn:E.
  - apply String.eqb_eq in E. subst k'. intros [= <-]. auto.
  - apply IH. exact Hd.
Qed.

(** In such a record a chain of [flatten] is a chain of keys without the
    separator. *)
Lemma nested_chain (suffix : list pkey) :
  forall x v,
    Task.nested_mappings c x = true -> get_chain suffix x = Some v ->
    exists ks, suffix = map KStr ks /\ Forall free ks.
Proof.
  induction suffix as [|[k|i] rest IH]; intros x v Hn H; cbn [get_chain] in H.
  - exists []. split; [reflexivity|constructor].
  - destruct x as [| | | | |d]; try discriminate.
    destruct (dict_get k d) as [y|] eqn:Hk; [|discriminate].
    destruct (nested_entry d k y Hn Hk) as [Hfree Hy].
    destruct (IH y v Hy H) as (ks & -> & Hks).
    exists (k :: ks). split; [reflexivity|constructor; assumption].
  - destruct x as [| | | |l|]; try discriminate.
    destruct l; [|discriminate]. destruct i; discriminate.
Qed.

Lemma join_keys (ks : list string) :
  Task.flat_key sep (map KStr ks) = String.concat sep ks.
Proof.
  unfold Task.flat_key, join. rewrite map_map. cbn [pkey_str]. rewrite map_id. reflexivity.
Qed.

(** Splitting the key of such a chain gives the chain back. *)
Lemma split_key (ks : list string) :
  ks <> [] -> Forall free ks -> split sep (String.concat sep ks) = inr ks.
Proof.
  intros Hne Hfree. destruct ks as [|p parts]; [congruence|].
  unfold split. rewrite (split_go_joined c parts EmptyString p).
  - rewrite string_app_empty. reflexivity.
  - exact Hfree.
Qed.

Lemma dict_set_keys (k : string) (x y : json) (d : dict) :
  dict_get k d = Some x -> map fst (dict_set k y d) = map fst d.
Proof.
  induction d as [|[k' v] d IH]; cbn [dict_get dict_set]; [discriminate|].
  destruct (String.eqb k k'); [reflexivity|].
  intros H. cbn [map fst]. rewrite IH by exact H. reflexivity.
Qed.

Lemma dict_set_values (P : json -> Prop) (k : string) (y : json) (d : dict) :
  P y -> Forall (fun kv => P (snd kv)) d -> Forall (fun kv => P (snd kv)) (dict_set k y d).
Proof.
  intros Hy. induction 1 as [|[k' v] d Hv Hd IH]; cbn [dict_set].
  - constructor; [exact Hy|constructor].
  - destruct (String.eqb k k'); constructor; assumption.
Qed.

Lemma dict_get_value (P : json -> Prop) (k : string) (x : json) (d : dict) :
  Forall (fun kv => P (snd kv)) d -> dict_get k d = Some x -> P x.
Proof.
  induction 1 as [|[k' v] d Hv Hd IH]; cbn [dict_get]; [discriminate|].
  destruct (String.eqb k k'); [intros [= <-]; exact Hv|exact IH].
Qed.

Lemma dict_del_unique (k : string) (d : dict) :
  unique_keys (JDict d) -> unique_keys (JDict (dict_del k d)).
Proof.
  rewrite !unique_keys_dict. intros [Hnd Hall]. unfold dict_del. split.
  - clear Hall. induction d as [|[k' v] d IH]; [constructor|].
    cbn [map fst] in Hnd. apply List.NoDup_cons_iff in Hnd as [Hnotin Hnd].
    cbn [List.filter fst]. destruct (negb (String.eqb k k')); [|apply IH; exact Hnd].
    cbn [map fst]. constructor; [|apply IH; exact Hnd].
    intros Hin. apply Hnotin. apply in_map_iff in Hin as (kv & <- & Hkv).
    apply filter_In in Hkv as [Hkv _]. apply in_map. exact Hkv.
  - rewrite List.Forall_forall in *. intros kv Hkv. apply Hall.
    apply filter_In in Hkv. tauto.
Qed.

(** A chain that goes through the chain [ks]. *)
Abbreviation through := (fun (ks : list string) (chain : list pkey) =>
                           exists s, chain = map KStr ks ++ s).

(** Popping the value at the end of a chain of keys: the value comes out,
    nothing is left under the chain, and every scalar elsewhere stays. *)
Lemma pop_path_total (ks : list string) :
  forall v x,
    ks <> [] -> unique_keys v -> get_chain (map KStr ks) v = Some x ->
    exists v',
      pop_path (removelast ks) (List.last ks EmptyString) v = inr (x, v') /\
      unique_keys v' /\
      (match v with JDict _ => exists d', v' = JDict d' | _ => True end) /\
      (forall chain, through ks chain -> get_chain chain v' = None) /\
      (forall chain y, ~ through ks chain -> Flow.scalar y = true ->
                       (get_chain chain v' = Some y <-> get_chain chain v = Some y)).
Proof.
  induction ks as [|k ks IH]; intros v x Hne Hu H; [congruence|].
  cbn [map get_chain] in H.
  destruct v as [| | | | |d]; try discriminate.
  destruct (dict_get k d) as [child|] eqn:Hk; [|discriminate].
  destruct ks as [|k2 ks].
  - (* the last key *)
    cbn [get_chain map] in H. injection H as <-.
    cbn [removelast List.last pop_path]. unfold dict_pop. rewrite Hk.
    exists (JDict (dict_del k d)). split; [reflexivity|].
    split; [apply dict_del_unique; exact Hu|]. split; [eauto|]. split.
    + intros chain [s ->]. cbn [map app get_chain]. rewrite dict_get_del_same. reflexivity.
    + intros chain y Hthrough Hy.
      destruct chain as [|[k'|i] rest]; cbn [get_chain].
      * split; intros [= <-]; discriminate.
      * destruct (String.eqb_spec k k') as [<-|Hk'].
        -- exfalso. apply Hthrough. exists rest. reflexivity.
        -- rewrite dict_get_del_other by exact Hk'. reflexivity.
      * reflexivity.
  - (* a key on the way *)
    assert (unique_keys child) as Hchild.
    { apply unique_keys_dict in Hu as [_ Hall].
      exact (dict_get_value unique_keys k child d Hall Hk). }
    destruct (IH child x ltac:(discriminate) Hchild H) as (child' & Hpop & Hu' & _ & Hgone & Hkeep).
    change (removelast (k :: k2 :: ks)) with (k :: removelast (k2 :: ks)).
    change (List.last (k :: k2 :: ks) EmptyString) with (List.last (k2 :: ks) EmptyString).
    cbn [pop_path]. rewrite Hk, Hpop.
    exists (JDict (dict_set k child' d)). split; [reflexivity|]. split; [|split; [eauto|split]].
    + apply unique_keys_dict in Hu as [Hnd Hall]. apply unique_keys_dict. split.
      * rewrite (dict_set_keys k child child' d Hk). exact Hnd.
      * apply dict_set_values; assumption.
    + intros chain [s ->]. cbn [map app get_chain]. rewrite dict_get_set_same.
      exact (Hgone (map KStr (k2 :: ks) ++ s) (ex_intro _ s eq_refl)).
    + intros chain y Hthrough Hy.
      destruct chain as [|[k'|i] rest]; cbn [get_chain].
      * split; intros [= <-]; discriminate.
      * destruct (String.eqb_spec k k') as [<-|Hk'].
        -- rewrite dict_get_set_same, Hk. apply Hkeep; [|exact Hy].
           intros [s ->]. apply Hthrough. exists s. reflexivity.
        -- rewrite dict_get_set_other by exact Hk'. reflexivity.
      * reflexivity.
Qed.

Lemma pop_path_record (chain : list string) (top : string) (obj obj' : dict) (x : json) :
  pop_path chain top (JDict obj) = inr (x, JDict obj') ->
  pop_record chain top obj = inr (x, obj').
Proof.
  destruct chain as [|k chain]; cbn [pop_path pop_record].
  - destruct (dict_pop top obj) as [[y d']|]; [|discriminate].
    intros [= <- <-]. reflexivity.
  - destruct (dict_get k obj) as [child|]; [|discriminate].
    destruct (pop_path chain top child) as [e|[y child']]; [discriminate|].
    intros [= <- <-]. reflexivity.
Qed.

(** No chain of [flatten] goes on behind another. *)
Lemma get_chain_app (a b : list pkey) :
  forall v, get_chain (a ++ b) v
            = match get_chain a v with Some x => get_chain b x | None => None end.
Proof.
  induction a as [|[k|i] a IH]; intros v; cbn [app get_chain]; [reflexivity| |].
  - destruct v; try reflexivity. destruct (dict_get k entries); [apply IH|reflexivity].
  - destruct v; try reflexivity. destruct (nth_error items i); [apply IH|reflexivity].
Qed.

End NestedMappings.

(** *** Extraction from a record of nested mappings *)

Section ExtractionTotal.

Import Data Helpers.

Variable c : ascii.
Variable obj0 : dict.
Hypothesis unique0 : unique_keys (JDict obj0).
Hypothesis nested0 : Task.nested_mappings c (JDict obj0) = true.

Abbreviation sep := (String c EmptyString).
Abbreviation free := (fun k : string => Str.all (fun a => negb (Ascii.eqb a c)) k = true).

Lemma flatten_get (obj : dict) (chain : list pkey) (v : json) :
  unique_keys (JDict obj) ->
  (In (chain, v) (flatten obj) <->
   get_chain chain (JDict obj) = Some v /\ Flow.scalar v = true).
Proof.
  intros Hu. unfold flatten. rewrite (flatten_item_spec (JDict obj) Hu [] chain v). split.
  - intros (suffix & -> & Hget & Hs). auto.
  - intros [Hget Hs]. exists chain. auto.
Qed.

(** A chain of the record: keys without the separator, down to a
    scalar. *)
Lemma good_chain (chain : list pkey) (v : json) :
  In (chain, v) (flatten obj0) ->
  exists ks, chain = map KStr ks /\ ks <> [] /\ Forall free ks /\
             get_chain chain (JDict obj0) = Some v /\ Flow.scalar v = true.
Proof.
  intros Hin. apply (flatten_get obj0 chain v unique0) in Hin as [Hget Hs].
  destruct (nested_chain c chain (JDict obj0) v nested0 Hget) as (ks & -> & Hfree).
  exists ks. repeat split; try assumption.
  intros ->. cbn in Hget. injection Hget as <-. discriminate.
Qed.

Lemma key_chain (k : string) :
  In k (Task.flat_keys sep obj0) ->
  exists chain v, In (chain, v) (flatten obj0) /\ Task.flat_key sep chain = k.
Proof.
  unfold Task.flat_keys. rewrite uniq_In, in_map_iff.
  intros ([chain v] & <- & Hin). exists chain, v. split; [exact Hin|reflexivity].
Qed.

Lemma key_injective (ch1 ch2 : list pkey) (v1 v2 : json) :
  In (ch1, v1) (flatten obj0) -> In (ch2, v2) (flatten obj0) ->
  Task.flat_key sep ch1 = Task.flat_key sep ch2 -> ch1 = ch2.
Proof.
  intros H1 H2 Hk.
  destruct (good_chain _ _ H1) as (ks1 & -> & Hne1 & Hf1 & _).
  destruct (good_chain _ _ H2) as (ks2 & -> & Hne2 & Hf2 & _).
  rewrite !join_keys in Hk.
  pose proof (split_key c ks1 Hne1 Hf1) as S1.
  pose proof (split_key c ks2 Hne2 Hf2) as S2.
  rewrite Hk, S2 in S1. injection S1 as <-. reflexivity.
Qed.

Lemma chains_end (ch1 s : list pkey) (v1 v2 : json) :
  In (ch1, v1) (flatten obj0) -> In (ch1 ++ s, v2) (flatten obj0) -> s = [].
Proof.
  intros H1 H2.
  apply (flatten_get obj0 _ _ unique0) in H1 as [G1 S1].
  apply (flatten_get obj0 _ _ unique0) in H2 as [G2 _].
  rewrite get_chain_app, G1 in G2.
  apply (scalar_chain v1 s v2 S1) in G2. tauto.
Qed.

Lemma without_ext (R R' : list string) (obj : dict) :
  (forall k, In k R <-> In k R') ->
  Task.without sep R obj0 obj -> Task.without sep R' obj0 obj.
Proof.
  intros HR H chain v. rewrite (H chain v), (HR (Task.flat_key sep chain)). reflexivity.
Qed.

(** One turn of the inner loop of [extract_metrics]. *)
Lemma pop_claimed (R : list string) (obj : dict) (k : string) :
  unique_keys (JDict obj) -> Task.without sep R obj0 obj ->
  In k (Task.flat_keys sep obj0) -> ~ In k R ->
  exists v obj' chain,
    In (chain, v) (flatten obj0) /\ Task.flat_key sep chain = k /\
    (let! parts := split sep k in
     pop_record (removelast parts) (List.last parts EmptyString) obj)%py = inr (v, obj') /\
    unique_keys (JDict obj') /\
    Task.without sep (k :: R) obj0 obj'.
Proof.
  intros Hu Hw Hk HR.
  destruct (key_chain k Hk) as (chain & v & Hin & Hkey).
  destruct (good_chain chain v Hin) as (ks & -> & Hne & Hfree & _ & Hs).
  assert (In (map KStr ks, v) (flatten obj)) as Hobj
      by (apply Hw; split; [exact Hin|rewrite Hkey; exact HR]).
  apply (flatten_get obj _ _ Hu) in Hobj as [Hget _].
  destruct (pop_path_total ks (JDict obj) v Hne Hu Hget)
    as (v' & Hpop & Hu' & [obj' ->] & Hgone & Hkeep).
  exists v, obj', (map KStr ks). split; [exact Hin|]. split; [exact Hkey|].
  rewrite <- Hkey, join_keys, (split_key c ks Hne Hfree). cbn [Py.bind].
  split; [apply pop_path_record; exact Hpop|]. split; [exact Hu'|].
  intros chain2 v2. rewrite (flatten_get obj' chain2 v2 Hu'). split.
  - intros [Hget2 Hs2].
    assert (~ (exists s, chain2 = map KStr ks ++ s)) as Hnot.
    { intros Hthrough. rewrite (Hgone chain2 Hthrough) in Hget2. discriminate. }
    apply (Hkeep chain2 v2 Hnot Hs2) in Hget2.
    assert (In (chain2, v2) (flatten obj)) as H2 by (apply flatten_get; auto).
    apply Hw in H2 as [H2 HR2]. split; [exact H2|].
    intros [Heq|HinR]; [|exact (HR2 HinR)].
    apply Hnot. exists []. rewrite app_nil_r.
    rewrite <- join_keys in Heq. symmetry. eapply key_injective; eauto.
  - intros [H2 HR2].
    assert (~ (exists s, chain2 = map KStr ks ++ s)) as Hnot.
    { intros [s ->]. pose proof (chains_end _ _ _ _ Hin H2) as ->.
      rewrite app_nil_r in HR2. apply HR2. left. rewrite join_keys. reflexivity. }
    assert (In (chain2, v2) (flatten obj)) as Hobj2.
    { apply Hw. split; [exact H2|]. intros HinR. apply HR2. right. exact HinR. }
    apply (flatten_get obj _ _ Hu) in Hobj2 as [Hget2 Hs2].
    split; [|exact Hs2]. apply (Hkeep chain2 v2 Hnot Hs2). exact Hget2.
Qed.

(** The inner loop of [extract_metrics] pops every key it is given. *)
Lemma claim_total (matched : list string) :
  forall keys obj R,
    unique_keys (JDict obj) -> Task.without sep R obj0 obj ->
    List.NoDup matched ->
    (forall k, In k matched -> In k (Task.flat_keys sep obj0) /\ ~ In k R) ->
    exists obj' keys' ys,
      Task.claim sep matched obj keys = (obj', keys', inr ys) /\
      unique_keys (JDict obj') /\
      Task.without sep (rev matched ++ R) obj0 obj' /\
      (forall k v, In (k, v) ys ->
                   exists chain, In (chain, v) (flatten obj0) /\ Task.flat_key sep chain = k).
Proof.
  induction matched as [|key rest IH]; intros keys obj R Hu Hw Hnd Hall; cbn [Task.claim].
  - exists obj, keys, []. split; [reflexivity|]. split; [exact Hu|]. split; [exact Hw|].
    intros k v [].
  - apply List.NoDup_cons_iff in Hnd as [Hnotin Hnd].
    destruct (Hall key (or_introl eq_refl)) as [Hpool HR].
    destruct (pop_claimed R obj key Hu Hw Hpool HR)
      as (v & obj1 & chain & Hin & Hkey & Hpop & Hu1 & Hw1).
    rewrite Hpop.
    destruct (IH (List.filter (fun k => negb (String.eqb key k)) keys) obj1 (key :: R)
                Hu1 Hw1 Hnd) as (obj2 & keys2 & ys & Hclaim & Hu2 & Hw2 & Hvals).
    { intros k Hk. destruct (Hall k (or_intror Hk)) as [Hp Hr]. split; [exact Hp|].
      intros [<-|HinR]; [exact (Hnotin Hk)|exact (Hr HinR)]. }
    rewrite Hclaim. exists obj2, keys2, ((key, v) :: ys).
    split; [reflexivity|]. split; [exact Hu2|]. split.
    + cbn [rev]. rewrite <- app_assoc. exact Hw2.
    + intros k v' [[= <- <-]|Hin']; [exists chain; auto|apply Hvals; exact Hin'].
Qed.

(** The loops of [extract_metrics] complete, whatever the patterns. *)
Lemma extract_loop_total (patterns : list string) :
  forall keys obj R,
    unique_keys (JDict obj) -> Task.without sep R obj0 obj ->
    List.NoDup keys ->
    (forall k, In k keys -> In k (Task.flat_keys sep obj0) /\ ~ In k R) ->
    exists obj' pairs,
      Task.extract_loop sep patterns obj keys = (obj', inr pairs) /\
      unique_keys (JDict obj') /\
      Task.without sep (map fst pairs ++ R) obj0 obj' /\
      (forall k v, In (k, v) pairs ->
                   exists chain, In (chain, v) (flatten obj0) /\ Task.flat_key sep chain = k).
Proof.
  induction patterns as [|p rest IH]; intros keys obj R Hu Hw Hnd Hall;
    cbn [Task.extract_loop].
  - exists obj, []. split; [reflexivity|]. split; [exact Hu|]. split; [exact Hw|].
    intros k v [].
  - assert (forall k, In k (Fnmatch.filter keys p) -> In k keys) as Hsub
        by (intros k Hk; unfold Fnmatch.filter in Hk; apply filter_In in Hk; tauto).
    destruct (claim_total (Fnmatch.filter keys p) keys obj R Hu Hw)
      as (obj1 & keys1 & ys & Hclaim & Hu1 & Hw1 & Hvals1).
    { apply List.NoDup_filter. exact Hnd. }
    { intros k Hk. apply Hall, Hsub, Hk. }
    rewrite Hclaim.
    destruct (claim_spec sep _ _ _ _ _ _ Hclaim) as (Hfst & Hkeys & _).
    destruct (IH keys1 obj1 (rev (Fnmatch.filter keys p) ++ R) Hu1 Hw1)
      as (obj2 & zs & Hloop & Hu2 & Hw2 & Hvals2).
    { subst keys1. apply List.NoDup_filter. exact Hnd. }
    { intros k Hk. subst keys1. apply filter_In in Hk as [Hk Hno].
      destruct (Hall k Hk) as [Hp Hr]. split; [exact Hp|].
      rewrite in_app_iff, <- in_rev. intros [Hm|HinR]; [|exact (Hr HinR)].
      apply negb_true_iff in Hno.
      assert (existsb (fun key => String.eqb key k) (Fnmatch.filter keys p) = true) as Hx
          by (apply existsb_exists; exists k; split; [exact Hm|apply String.eqb_refl]).
      congruence. }
    rewrite Hloop. exists obj2, (ys ++ zs). split; [reflexivity|]. split; [exact Hu2|]. split.
    + eapply without_ext; [|exact Hw2].
      intros k. rewrite map_app, Hfst, !in_app_iff, <- in_rev. tauto.
    + intros k v Hin. apply in_app_iff in Hin as [Hin|Hin]; [eapply Hvals1|eapply Hvals2]; eauto.
Qed.

Lemma has_key_path (k : string) (obj : dict) :
  has_path [k] (JDict obj) = dict_has k obj.
Proof. unfold dict_has. cbn [has_path]. destruct (dict_get k obj); reflexivity. Qed.

(** A key of the record itself that the extraction claimed is gone. *)
Lemma claimed_key_gone (obj' : dict) (k : string) :
  (forall path, has_path path (JDict obj0) = false -> has_path path (JDict obj') = false) ->
  Task.lacks_key sep k obj' = true ->
  dict_has k obj' = false.
Proof.
  intros Hshrink Hlack. destruct (dict_has k obj') eqn:Hhas; [|reflexivity]. exfalso.
  assert (dict_has k obj0 = true) as H0.
  { destruct (dict_has k obj0) eqn:E; [reflexivity|].
    rewrite <- has_key_path in E. apply Hshrink in E.
    rewrite has_key_path in E. congruence. }
  unfold dict_has in H0. destruct (dict_get k obj0) as [y|] eqn:Hk; [|discriminate].
  destruct (nested_entry c obj0 k y nested0 Hk) as [Hfree _].
  unfold Task.lacks_key in Hlack.
  pose proof (split_key c [k] ltac:(discriminate) ltac:(constructor; [exact Hfree|constructor]))
    as Hs.
  cbn [String.concat] in Hs. rewrite Hs, has_key_path, Hhas in Hlack. discriminate.
Qed.

End ExtractionTotal.

(** The Metrics of a record are made one after the other; only a metric
    that is [None] can be refused. *)
Lemma append_metrics_total (st : Task.Settings) (cfg : Task.config) (static frame : Data.dict)
    (entries : list (option string * Data.json)) :
  Task.static_attributes cfg = Some static ->
  (forall e, In e entries -> snd e = Data.JNull -> Task.allow_none_metric st = true) ->
  Task.append_metrics st cfg frame entries
  = inr (map (fun e => {| Frame.attributes := Data.dict_union frame static;
                          Frame.metric := snd e;
                          Frame.metric_field_name := fst e |}) entries).
Proof.
  intros Hstatic. induction entries as [|[nm value] rest IH]; intros Hnull; [reflexivity|].
  cbn [Task.append_metrics]. unfold Task.attributes_of. rewrite Hstatic. cbn [Py.bind Py.ok].
  assert (Frame.new_metric (Task.allow_none_metric st) (Data.dict_union frame static) value nm
          = inr {| Frame.attributes := Data.dict_union frame static;
                   Frame.metric := value;
                   Frame.metric_field_name := nm |}) as ->.
  { unfold Frame.new_metric. destruct value; try reflexivity.
    rewrite (Hnull (nm, Data.JNull) (or_introl eq_refl) eq_refl). reflexivity. }
  cbn [Py.bind]. rewrite IH by (intros e He; apply Hnull; right; exact He). reflexivity.
Qed.

Section AttributeKeys.

Import Data.

Lemma dict_has_set (k k' : string) (v : json) (d : dict) :
  dict_has k (dict_set k' v d) = String.eqb k k' || dict_has k d.
Proof.
  unfold dict_has. destruct (String.eqb_spec k k') as [->|Hne].
  - rewrite dict_get_set_same. reflexivity.
  - rewrite dict_get_set_other by congruence. reflexivity.
Qed.

Lemma dict_has_union (k : string) (e : dict) :
  forall d, dict_has k (dict_union d e) = dict_has k d || dict_has k e.
Proof.
  unfold dict_union.
  induction e as [|[k' v] e IH]; intros d; cbn [fold_left fst snd].
  - rewrite orb_false_r. reflexivity.
  - rewrite IH, dict_has_set. unfold dict_has. cbn [dict_get].
    destruct (String.eqb k k'); cbn [orb]; [|reflexivity].
    destruct (dict_get k d), (dict_get k e); reflexivity.
Qed.

Lemma keep_attributes_has (cfg : Task.config) (frame : dict) (k : string) :
  dict_has k frame = false -> dict_has k (Task.keep_attributes cfg frame) = false.
Proof.
  intros H. rewrite <- has_key_path in *. apply keep_attributes_absent. exact H.
Qed.

End AttributeKeys.

(** Metrics are known by their field names, their values and their
    attributes. *)
Lemma metrics_determined (attrs : Data.dict) (ms : list Frame.Metric) :
  forall entries,
    map (fun m => (Frame.metric_field_name m, Frame.metric m)) ms = entries ->
    (forall m, In m ms -> Frame.attributes m = attrs) ->
    ms = map (fun e => {| Frame.attributes := attrs;
                          Frame.metric := snd e;
                          Frame.metric_field_name := fst e |}) entries.
Proof.
  induction ms as [|[a v f] ms IH]; intros entries Hmap Hattr; subst entries; [reflexivity|].
  cbn [map fst snd Frame.metric Frame.metric_field_name]. f_equal.
  - rewrite <- (Hattr _ (or_introl eq_refl)). reflexivity.
  - apply IH; [reflexivity|]. intros m Hm. apply Hattr. right. exact Hm.
Qed.








(** X10.  The attributes of a Metric are the static attributes of the
    task laid over the record: a key of the static attributes has the
    static value, and any other key has the value of the record, which it
    only has if [result.attributes] is unset or lists the key. *)
Theorem attributes_are_filtered_then_overlaid (cfg : Task.config) (frame static : Data.dict)
    (k : string) :
  Task.static_attributes cfg = Some static ->
  List.NoDup (map fst static) ->
  exists attributes,
    Task.attributes_of cfg (Task.keep_attributes cfg frame) = inr attributes /\
    Data.dict_get k attributes
    = match Data.dict_get k static with
      | Some v => Some v
      | None =>
          match Task.result_attributes cfg with
          | Some attr => if existsb (String.eqb k) attr then Data.dict_get k frame else None
          | None => Data.dict_get k frame
          end
      end.
Proof.
  intros Hstatic Hnd. unfold Task.attributes_of. rewrite Hstatic.
  eexists. split; [reflexivity|].
  rewrite dict_get_union by exact Hnd.
  destruct (Data.dict_get k static); [reflexivity|].
  unfold Task.keep_attributes. destruct (Task.result_attributes cfg) as [attr|]; [|reflexivity].
  apply (dict_get_filter_key (fun k => existsb (String.eqb k) attr)).
Qed.

Lemma attributes_are_filtered_then_overlaid_witness :
  exists attributes,
    Task.attributes_of Examples.task_listed
      (Task.keep_attributes Examples.task_listed
         [("c", Data.JInt 3); ("d", Data.JInt 4); ("env", Data.JStr "test")])
    = inr attributes /\
    Data.dict_get "d" attributes = None.
Proof.
  destruct (attributes_are_filtered_then_overlaid Examples.task_listed
              [("c", Data.JInt 3); ("d", Data.JInt 4); ("env", Data.JStr "test")]
              [("env", Data.JStr "prod")] "d") as (attributes & H1 & H2).
  - reflexivity.
  - repeat constructor. simpl. tauto.
  - exists attributes. split; [exact H1|exact H2].
Defined.

(** ** Routes ([core/flow.py], [check_filters]; [core/task.py], [get_chain]) *)

Section RouteFacts.

Lemma unmatched_spec (names patterns : list string) (f : string) :
  In f (Routes.unmatched names patterns) <->
  In f patterns /\ forall i, In i names -> Fnmatch.fnmatch i f = false.
Proof.
  unfold Routes.unmatched. rewrite filter_In. apply and_iff_compat_l.
  rewrite negb_true_iff. split.
  - intros H i Hi. destruct (Fnmatch.fnmatch i f) eqn:E; [|reflexivity].
    assert (existsb (fun i => Fnmatch.fnmatch i f) names = true) as Hx
        by (apply existsb_exists; exists i; auto).
    congruence.
  - intros H. destruct (existsb _ names) eqn:E; [|reflexivity].
    apply existsb_exists in E as (i & Hi & Hm). rewrite (H i Hi) in Hm. discriminate.
Qed.

(** A pattern that is warned about matches no configured Input. *)
Lemma warned_input (input_names task_names : list string) (m : Routes.module) (f : string) :
  In (Routes.NoInput (fst m) f) (Routes.check_module input_names task_names m) ->
  forall i, In i input_names -> Fnmatch.fnmatch i f = false.
Proof.
  unfold Routes.check_module. rewrite in_app_iff. intros [H|H].
  - apply in_map_iff in H as (f' & [= <-] & H). apply unmatched_spec in H as [_ H]. exact H.
  - apply in_map_iff in H as (f' & [=] & _).
Qed.

Lemma any_match_filter (name f : string) (fi : list string) :
  Fnmatch.fnmatch name f = false ->
  Routing.any_match name (List.filter (fun p => negb (String.eqb p f)) fi)
  = Routing.any_match name fi.
Proof.
  intros Hf. unfold Routing.any_match. induction fi as [|p fi IH]; [reflexivity|].
  cbn [List.filter existsb]. destruct (String.eqb_spec p f) as [->|Hne]; cbn [negb].
  - rewrite Hf. exact IH.
  - cbn [existsb]. rewrite IH. reflexivity.
Qed.

Lemma accepts_from_ignoring (d : bool) (m : Routing.processor) (i t : string) :
  Routing.accepts_from d m i t false
  = Routing.enabled d m && Routing.accepts_from d m i t true.
Proof.
  unfold Routing.accepts_from. destruct (Routing.enabled d m); reflexivity.
Qed.

End RouteFacts.

(** X11.  A filter that [check_filters] warns about as matching no Input
    is dead for every configured Input: an [include_inputs] list made of
    such patterns only makes the module reject all of them, and such a
    pattern in [exclude_inputs] can be dropped without changing what the
    module accepts from them. *)
Theorem warned_filters_are_dead (input_names task_names : list string)
    (m : Routes.module) (d ig : bool) (i t : string) :
  In i input_names ->
  (forall fi,
      Routing.include_inputs (snd m) = Some fi ->
      (forall f, In f fi ->
                 In (Routes.NoInput (fst m) f)
                    (Routes.check_module input_names task_names m)) ->
      Routing.accepts_from d (snd m) i t ig = false) /\
  (forall fi f,
      Routing.exclude_inputs (snd m) = Some fi -> In f fi ->
      In (Routes.NoInput (fst m) f) (Routes.check_module input_names task_names m) ->
      Routing.accepts_from d (Routes.without_exclude_input f (snd m)) i t ig
      = Routing.accepts_from d (snd m) i t ig).
Proof.
  intros Hi. split.
  - intros fi Hfi Hwarned. unfold Routing.accepts_from. rewrite Hfi.
    assert (Routing.any_match i fi = false) as ->.
    { apply any_match_none. intros f Hf.
      eapply warned_input; [apply Hwarned; exact Hf|exact Hi]. }
    destruct (negb (Routing.enabled d (snd m)) && negb ig); reflexivity.
  - intros fi f Hfi Hf Hwarned.
    pose proof (warned_input _ _ _ _ Hwarned i Hi) as Hno.
    unfold Routing.accepts_from, Routes.without_exclude_input.
    cbn [Routing.include_inputs Routing.exclude_inputs Routing.include_tasks
         Routing.exclude_tasks]. rewrite Hfi. cbn [option_map].
    rewrite (any_match_filter i f fi Hno). reflexivity.
Qed.

Lemma warned_filters_are_dead_witness :
  Routing.accepts_from false
    {| Routing.kind := Routing.Output; Routing.config_enabled := true;
       Routing.include_inputs := Some ["postgres*"]; Routing.exclude_inputs := None;
       Routing.include_tasks := None; Routing.exclude_tasks := None |}
    "http" "task" false = false.
Proof.
  refine (proj1 (warned_filters_are_dead ["http"; "kafka"] ["task"]
                   ("out", {| Routing.kind := Routing.Output; Routing.config_enabled := true;
                              Routing.include_inputs := Some ["postgres*"];
                              Routing.exclude_inputs := None;
                              Routing.include_tasks := None;
                              Routing.exclude_tasks := None |})
                   false false "http" "task" _) ["postgres*"] eq_refl _).
  - left. reflexivity.
  - intros f [<-|[]]. left. reflexivity.
Defined.

(** X12.  The modules a task runs are the enabled ones among those its
    chain shows when enablement is ignored, in the same order: ignoring
    enablement never removes a module, and the run skips exactly the
    disabled ones (an Output also when outputs are disabled as a whole). *)
Theorem chain_of_enabled_modules (d : bool) (input_name task_name : string)
    (transforms outputs : list Routes.module) :
  Routes.get_chain d input_name task_name transforms outputs false
  = List.filter (fun m => Routing.enabled d (snd m))
      (Routes.get_chain d input_name task_name transforms outputs true).
Proof.
  unfold Routes.get_chain. induction (transforms ++ outputs) as [|m l IH]; [reflexivity|].
  cbn [List.filter]. rewrite accepts_from_ignoring.
  destruct (Routing.accepts_from d (snd m) input_name task_name true).
  - cbn [List.filter]. rewrite andb_true_r.
    destruct (Routing.enabled d (snd m)); rewrite IH; reflexivity.
  - rewrite andb_false_r. exact IH.
Qed.

(** ** Leaf validators ([core/validation/validators.py]) *)

Section NameFacts.

Lemma allowed_lower (c : ascii) :
  Names.is_allowed (Validators.lower_char c) = Names.is_allowed c.
Proof.
  destruct c as [[] [] [] [] [] [] [] []]; vm_compute; reflexivity.
Qed.

Lemma lower_char_twice (c : ascii) :
  Validators.lower_char (Validators.lower_char c) = Validators.lower_char c.
Proof.
  destruct c as [[] [] [] [] [] [] [] []]; vm_compute; reflexivity.
Qed.

Lemma allowed_not_upper (c : ascii) :
  Names.is_allowed (Validators.lower_char c) = true ->
  Validators.not_upper (Validators.lower_char c) = true.
Proof.
  destruct c as [[] [] [] [] [] [] [] []]; vm_compute; intros H; congruence.
Qed.

Lemma all_allowed_lower (s : string) :
  Str.all Names.is_allowed (Validators.lower s) = Str.all Names.is_allowed s.
Proof.
  induction s as [|c s IH]; [reflexivity|].
  cbn [Validators.lower Str.all]. rewrite allowed_lower, IH. reflexivity.
Qed.

Lemma lower_twice (s : string) :
  Validators.lower (Validators.lower s) = Validators.lower s.
Proof.
  induction s as [|c s IH]; [reflexivity|].
  cbn [Validators.lower]. rewrite lower_char_twice, IH. reflexivity.
Qed.

Lemma lower_no_upper (s : string) :
  Str.all Names.is_allowed (Validators.lower s) = true ->
  Str.all Validators.not_upper (Validators.lower s) = true.
Proof.
  induction s as [|c s IH]; [reflexivity|].
  cbn [Validators.lower Str.all]. intros H. apply andb_true_iff in H as [Hc Hs].
  rewrite (allowed_not_upper c Hc), (IH Hs). reflexivity.
Qed.

End NameFacts.

(** X13.  A name of ASCII characters is accepted by [ModuleName] exactly
    when each character is a letter, a digit or one of [_-.+], with or
    without [allow_uppercase]: capitals are never a reason to reject.
    Without [allow_uppercase] the accepted name is returned in lower case,
    has no capital left, and is returned unchanged when validated again,
    by either form of the validator.  The empty name is accepted. *)
Theorem module_name_is_folded (s : string) :
  Str.all Names.is_ascii s = true ->
  (Py.is_ok (Names.ModuleName false (Validators.Text s)) = Str.all Names.is_allowed s /\
   Py.is_ok (Names.ModuleName true (Validators.Text s)) = Str.all Names.is_allowed s) /\
  (forall w,
      Names.ModuleName false (Validators.Text s) = inr w ->
      w = Validators.lower s /\
      Str.all Validators.not_upper w = true /\
      Names.ModuleName false (Validators.Text w) = inr w /\
      Names.ModuleName true (Validators.Text w) = inr w) /\
  (forall w, Names.ModuleName true (Validators.Text s) = inr w -> w = s) /\
  Names.ModuleName false (Validators.Text EmptyString) = inr EmptyString.
Proof.
  intros _. unfold Names.ModuleName. cbv zeta. split; [|split; [|split]].
  - rewrite all_allowed_lower.
    destruct (Str.all Names.is_allowed s); split; reflexivity.
  - intros w H.
    destruct (Str.all Names.is_allowed (Validators.lower s)) eqn:E; [|discriminate].
    injection H as <-. rewrite lower_twice, E.
    split; [reflexivity|]. split; [apply lower_no_upper; exact E|]. split; reflexivity.
  - intros w H. destruct (Str.all Names.is_allowed s); [|discriminate].
    injection H as <-. reflexivity.
  - reflexivity.
Qed.

Lemma module_name_is_folded_witness :
  Names.ModuleName false (Validators.Text "PostgreSQL-1") = inr "postgresql-1" /\
  Names.ModuleName true (Validators.Text "postgresql-1") = inr "postgresql-1".
Proof.
  assert (Str.all Names.is_ascii "PostgreSQL-1" = true) as Hascii by reflexivity.
  destruct (proj1 (proj2 (module_name_is_folded "PostgreSQL-1" Hascii)) "postgresql-1")
    as (_ & _ & _ & H); [reflexivity|].
  split; [reflexivity|exact H].
Defined.

Section BlankDurations.

Import Validators.

(** A character of a duration without any token: white space or the
    separator of the parts. *)
Lemma blank_char_facts (c : ascii) :
  is_space c || Ascii.eqb c ":" = true ->
  is_digit c = false /\ Ascii.eqb c "." = false /\ Ascii.eqb c "-" = false /\
  (Ascii.eqb c ":" = false -> is_space c = true).
Proof.
  destruct c as [[] [] [] [] [] [] [] []]; vm_compute; intros H;
    try discriminate; repeat split; congruence.
Qed.

Lemma blank_parts (s : string) :
  forall cur,
    Str.all is_space cur = true ->
    Str.all (fun c => is_space c || Ascii.eqb c ":") s = true ->
    Forall (fun part => Str.all is_space part = true)
           (Data.split_go ":" 0 cur s).
Proof.
  induction s as [|c s IH]; intros cur Hcur Hs; cbn [Data.split_go].
  - constructor; [exact Hcur|constructor].
  - cbn [Str.all] in Hs. apply andb_true_iff in Hs as [Hc Hs].
    rewrite (prefix_separator ":" c s).
    destruct (Ascii.eqb c ":") eqn:E.
    + change (String.length ":" - 1)%nat with O.
      constructor; [exact Hcur|]. apply IH; [reflexivity|exact Hs].
    + apply IH; [|exact Hs]. rewrite all_app, Hcur. cbn [Str.all andb].
      rewrite orb_false_r in Hc. rewrite Hc. reflexivity.
Qed.

Lemma sum_blank_parts (parts : list string) (acc : number) :
  Forall (fun part => Str.all is_space part = true) parts ->
  sum_parts parts acc = Py.ok acc.
Proof.
  induction 1 as [|part parts Hpart _ IH]; [reflexivity|].
  cbn [sum_parts]. rewrite Hpart. exact IH.
Qed.

Lemma blank_remove_dot (s : string) :
  Str.all (fun c => is_space c || Ascii.eqb c ":") s = true -> remove_dot s = s.
Proof.
  induction s as [|c s IH]; [reflexivity|].
  cbn [Str.all remove_dot]. intros H. apply andb_true_iff in H as [Hc Hs].
  destruct (blank_char_facts c Hc) as (_ & -> & _). rewrite (IH Hs). reflexivity.
Qed.

Lemma blank_not_digits (s : string) :
  Str.all (fun c => is_space c || Ascii.eqb c ":") s = true -> isdigit s = false.
Proof.
  destruct s as [|c s]; [reflexivity|].
  unfold isdigit. cbn [Str.all]. intros H. apply andb_true_iff in H as [Hc _].
  destruct (blank_char_facts c Hc) as (-> & _). reflexivity.
Qed.

Lemma blank_no_minus (s : string) :
  Str.all (fun c => is_space c || Ascii.eqb c ":") s = true ->
  removeprefix_minus s = s /\ startswith_minus s = false.
Proof.
  destruct s as [|c s]; [split; reflexivity|].
  cbn [Str.all]. intros H. apply andb_true_iff in H as [Hc _].
  destruct (blank_char_facts c Hc) as (_ & _ & Hm & _).
  destruct c as [[] [] [] [] [] [] [] []]; try (split; reflexivity); discriminate.
Qed.

End BlankDurations.

(** X14.  A duration without any token is zero: for the empty text, and
    for any text of white space and [":"] only, [TimeToSeconds] returns
    the integer 0 and raises nothing. *)
Theorem blank_duration_is_zero (s : string) :
  Str.all (fun c => Validators.is_space c || Ascii.eqb c ":") s = true ->
  Validators.TimeToSeconds (Validators.Str_ s) = Py.ok (Validators.Int 0).
Proof.
  intros Hs. unfold Validators.TimeToSeconds.
  destruct (blank_no_minus s Hs) as [-> ->].
  rewrite (blank_not_digits s Hs), (blank_remove_dot s Hs), (blank_not_digits s Hs).
  rewrite (sum_blank_parts _ _ (blank_parts s EmptyString eq_refl Hs)). reflexivity.
Qed.

Lemma blank_duration_is_zero_witness :
  Validators.TimeToSeconds (Validators.Str_ " : :") = Py.ok (Validators.Int 0).
Proof.
  apply blank_duration_is_zero. reflexivity.
Defined.

Section PlainValues.

Lemma expandvars_plain (env : gmap string string) (s : string) :
  Str.mem "$" s = false -> Os.expandvars_go env 0 s = s.
Proof.
  induction s as [|c s IH]; [reflexivity|].
  cbn [Str.mem Os.expandvars_go]. intros H. apply orb_false_iff in H as [Hc Hs].
  rewrite Ascii.eqb_sym in Hc. rewrite Hc, (IH Hs). reflexivity.
Qed.

Lemma expanduser_plain (os : Os.t) (s : string) :
  Str.first s <> Some "~"%char -> Os.expanduser os s = s.
Proof.
  destruct s as [|c s]; [reflexivity|]. cbn [Str.first]. intros H.
  unfold Os.expanduser.
  destruct c as [[] [] [] [] [] [] [] []]; try reflexivity. congruence.
Qed.

Lemma take_drop (n : nat) (s : string) : (Str.take n s ++ Str.drop n s)%string = s.
Proof.
  revert s. induction n as [|n IH]; intros [|c s]; try reflexivity.
  cbn [Str.take Str.drop]. rewrite string_app_cons, IH. reflexivity.
Qed.

(** Names that are not in the environment stay in the text. *)
Lemma expandvars_unset (env : gmap string string) (path : string) :
  forall skip,
    Forall (fun name => env !! name = None) (Environ.references_go skip path) ->
    Os.expandvars_go env skip path = Str.drop skip path.
Proof.
  induction path as [|c rest IH]; intros skip H.
  - destruct skip; reflexivity.
  - destruct skip as [|k]; cbn [Os.expandvars_go Environ.references_go Str.drop] in *.
    + destruct (Ascii.eqb c "$").
      * destruct (Os.parse_var rest) as [name n| |].
        -- apply Forall_cons in H as [Hname H]. rewrite Hname, (IH n H).
           rewrite string_app_cons, take_drop. reflexivity.
        -- reflexivity.
        -- rewrite (IH 0%nat H). destruct rest; reflexivity.
      * rewrite (IH 0%nat H). destruct rest; reflexivity.
    + apply IH. exact H.
Qed.

Lemma references_plain (s : string) :
  Str.mem "$" s = false -> Environ.references s = [].
Proof.
  unfold Environ.references. induction s as [|c s IH]; [reflexivity|].
  cbn [Str.mem Environ.references_go]. intros H. apply orb_false_iff in H as [Hc Hs].
  rewrite Ascii.eqb_sym in Hc. rewrite Hc. apply IH. exact Hs.
Qed.

End PlainValues.

(** X15.  A variable that is not set is not an error: when none of the
    names [expandvars] looks up in the text of a value is in the
    environment, and the text does not start with ["~"], [EnvironmentVar]
    passes the text to the leaf type as it is, references included, for
    every depth that is not negative; that is so for every text without a
    ["$"].  With a negative depth the validator raises for every value. *)
Theorem unset_variables_are_kept (A : Type) (schema : string -> Py.result A)
    (os : Os.t) (value : Validators.leaf) (depth : Z) :
  (0 <= depth ->
   Forall (fun name => Os.environ os !! name = None)
          (Environ.references (Validators.py_str value)) ->
   Str.first (Validators.py_str value) <> Some "~"%char ->
   Validators.EnvironmentVar schema depth os value None
   = schema (Validators.py_str value)) /\
  (Str.mem "$" (Validators.py_str value) = false ->
   Environ.references (Validators.py_str value) = []) /\
  (depth < 0 ->
   Validators.EnvironmentVar schema depth os value None
   = Py.raise Validators.max_depth_reached).
Proof.
  unfold Validators.EnvironmentVar. split; [|split].
  - intros Hd Hunset Htilde. rewrite expand_unfold.
    destruct (Z.ltb_spec depth 0); [lia|].
    unfold Validators.pass, Os.expandvars.
    rewrite (expandvars_unset _ _ 0%nat Hunset).
    change (Str.drop 0 (Validators.py_str value)) with (Validators.py_str value).
    rewrite expanduser_plain by exact Htilde.
    rewrite String.eqb_refl. reflexivity.
  - apply references_plain.
  - intros Hd. rewrite expand_unfold.
    destruct (Z.ltb_spec depth 0); [reflexivity|lia].
Qed.

Lemma unset_variables_are_kept_witness :
  Validators.EnvironmentVar Examples.as_str 16 Examples.os_home
    (Validators.Text "postgres://${DB_HOST}:$PORT/") None
  = Py.ok "postgres://${DB_HOST}:$PORT/".
Proof.
  apply (proj1 (unset_variables_are_kept string Examples.as_str Examples.os_home
                  (Validators.Text "postgres://${DB_HOST}:$PORT/") 16)).
  - lia.
  - change (Environ.references
              (Validators.py_str (Validators.Text "postgres://${DB_HOST}:$PORT/")))
      with ["DB_HOST"; "PORT"].
    constructor; [reflexivity|]. constructor; [reflexivity|]. constructor.
  - discriminate.
Defined.

(** ** Schemas ([core/validation/schemas.py]) *)

Section CountFacts.

Lemma count_bounds (self : Schemas.KeyCount) (v : Data.dict) :
  0 <= Schemas.count self v <= Z.of_nat (length (Schemas.keys self)).
Proof.
  unfold Schemas.count. split; [lia|].
  apply Nat2Z.inj_le. apply List.filter_length_le.
Qed.

Lemma check_lengths_spec (first : string) (n : nat) (items : list (string * list string)) :
  Schemas.check_lengths first n items = None <->
  Forall (fun kv => length (snd kv) = n) items.
Proof.
  induction items as [|[k v] items IH]; cbn [Schemas.check_lengths].
  - split; [constructor|reflexivity].
  - destruct (Nat.eqb_spec n (length v)) as [Heq|Hne].
    + rewrite IH. split.
      * intros H. constructor; [symmetry; exact Heq|exact H].
      * intros H. apply Forall_cons in H as [_ H]. exact H.
    + split; [discriminate|]. intros H. apply Forall_cons in H as [H _].
      cbn in H. congruence.
Qed.

End CountFacts.

(** X16.  A Transform or an Output cannot have both [include_tasks] and
    [exclude_tasks] in its configuration, nor both [include_inputs] and
    [exclude_inputs]: the count passes the configuration on unchanged
    when at most one of the two keys is present, and otherwise raises one
    error for each of the two keys, whatever values they hold.  With the
    default upper bound a count only checks its lower bound. *)
Theorem filters_are_exclusive (v : Data.dict) :
  (Schemas.validate_count Schemas.conf_tasks v
   = if Data.dict_has "include_tasks" v && Data.dict_has "exclude_tasks" v
     then inl [ {| Validation.error_class := "ValueInvalid";
                   Validation.error_path := [Data.KStr "include_tasks"];
                   Validation.error_msg :=
                     "Only 0 to 1 items of ['include_tasks', 'exclude_tasks'] can be present" |};
                {| Validation.error_class := "ValueInvalid";
                   Validation.error_path := [Data.KStr "exclude_tasks"];
                   Validation.error_msg :=
                     "Only 0 to 1 items of ['include_tasks', 'exclude_tasks'] can be present" |} ]
     else inr v) /\
  (Schemas.validate_count Schemas.conf_inputs v = inr v <->
   Data.dict_has "include_inputs" v && Data.dict_has "exclude_inputs" v = false) /\
  (forall schema_keys _min,
      Schemas.validate_count (Schemas.key_count schema_keys _min None) v = inr v <->
      _min <= Schemas.count (Schemas.key_count schema_keys _min None) v).
Proof.
  split; [|split].
  - unfold Schemas.validate_count, Schemas.count, Schemas.conf_tasks, Schemas.key_count.
    cbn [Schemas.keys Schemas.range_min Schemas.range_max List.filter].
    destruct (Data.dict_has "include_tasks" v), (Data.dict_has "exclude_tasks" v);
      reflexivity.
  - unfold Schemas.validate_count, Schemas.count, Schemas.conf_inputs, Schemas.key_count.
    cbn [Schemas.keys Schemas.range_min Schemas.range_max List.filter].
    destruct (Data.dict_has "include_inputs" v), (Data.dict_has "exclude_inputs" v);
      cbn; split; (reflexivity || discriminate).
  - intros schema_keys _min. unfold Schemas.validate_count.
    pose proof (count_bounds (Schemas.key_count schema_keys _min None) v) as [_ Hle].
    cbn [Schemas.key_count Schemas.keys Schemas.range_min Schemas.range_max] in *.
    rewrite (proj2 (Z.leb_le _ _) Hle), andb_true_r.
    destruct (Z.leb_spec _min (Schemas.count (Schemas.key_count schema_keys _min None) v))
      as [H|H].
    + split; [intros _; exact H|reflexivity].
    + split; [discriminate|]. cbn [Schemas.key_count] in H. lia.
Qed.

(** X17.  The lists of [repeat_for] must all be as long as the first:
    [check_length] returns the mapping unchanged exactly in that case, and
    otherwise raises; an empty mapping passes. *)
Theorem repeat_lists_have_one_length (config : list (string * list string)) :
  (Schemas.check_length config = inr config <->
   forall first v, head config = Some (first, v) ->
                   Forall (fun kv => length (snd kv) = length v) config) /\
  (forall result, Schemas.check_length config = inr result -> result = config).
Proof.
  unfold Schemas.check_length. destruct config as [|[first v] rest].
  - split; [|intros result [= <-]; reflexivity].
    split; [intros _ first v [=]|reflexivity].
  - destruct (Schemas.check_lengths first (length v) ((first, v) :: rest)) as [e|] eqn:E.
    + split; [|discriminate]. split; [discriminate|].
      intros H. specialize (H first v eq_refl).
      apply (check_lengths_spec first) in H. congruence.
    + split; [|intros result [= <-]; reflexivity].
      split; [|reflexivity]. intros _ first' v' [= <- <-].
      apply (check_lengths_spec first). exact E.
Qed.

(** ** Reports of validation errors ([core/validation/helpers.py]) *)

Section ReportFacts.

Lemma length_take (n : nat) (s : string) :
  String.length (Str.take n s) = Nat.min n (String.length s).
Proof.
  revert s. induction n as [|n IH]; intros [|c s]; cbn; try reflexivity.
  rewrite IH. reflexivity.
Qed.

Lemma length_app (a b : string) :
  String.length (a ++ b)%string = (String.length a + String.length b)%nat.
Proof.
  induction a as [|c a IH]; [reflexivity|].
  rewrite string_app_cons. cbn [String.length]. rewrite IH. reflexivity.
Qed.

Lemma take_prefix (n : nat) (s : string) : String.prefix (Str.take n s) s = true.
Proof.
  revert s. induction n as [|n IH]; intros [|c s]; cbn; try reflexivity.
  destruct (ascii_dec c c); [apply IH|congruence].
Qed.

End ReportFacts.

(** X18.  The preview of a value in a suggestion is short: it is the
    value itself when that has at most 55 characters, and otherwise its
    first 55 characters followed by three dots, so never more than 58
    characters. *)
Theorem preview_is_bounded (config : string) :
  (String.length (Validation.preview config) <= 58)%nat /\
  ((String.length config <= 55)%nat -> Validation.preview config = config) /\
  ((55 < String.length config)%nat ->
   Validation.preview config = (Str.take 55 config ++ "...")%string /\
   String.length (Validation.preview config) = 58%nat /\
   String.prefix (Str.take 55 config) config = true).
Proof.
  unfold Validation.preview.
  destruct (Nat.ltb_spec 55 (String.length config)) as [Hlong|Hshort].
  - split; [|split].
    + rewrite length_app, length_take. cbn [String.length]. lia.
    + lia.
    + intros _. split; [reflexivity|]. split; [|apply take_prefix].
      rewrite length_app, length_take. cbn [String.length]. lia.
  - split; [lia|]. split; [reflexivity|lia].
Qed.

(** X19.  An error gets no suggestion when there is no key to look for:
    when its path is empty the field is reported as not found, and when
    the unrecognized key is the empty string or the index 0 the schema is
    not searched; in both cases the message is printed as it came, closed
    with a full stop, and nothing can raise. *)
Theorem no_key_no_suggestion
    (get_close_matches : string -> list string -> list string)
    (escaped_str : Data.json -> string)
    (schema_ : Validation.schema) (configuration : Data.json) (e : Validation.error) :
  (Validation.error_path e = [] ->
   Validation.print_error get_close_matches escaped_str schema_ configuration e
   = ([Validation.Field ("[" ++ Validation.error_class e ++ "] ") "No error path found!";
       Validation.Error (Validation.closed (Validation.error_msg e))], None)%string) /\
  (forall path key,
      Validation.error_path e = path ++ [key] ->
      key = Data.KStr EmptyString \/ key = Data.KIdx 0 ->
      Validation.print_error get_close_matches escaped_str schema_ configuration e
      = ([Validation.Field ("[" ++ Validation.error_class e ++ "] ")
                           ("[<>]" ++ Validation.brackets path ++ " > " ++ Data.pkey_str key);
          Validation.Error (Validation.closed (Validation.error_msg e))], None)%string).
Proof.
  split.
  - intros Hpath. unfold Validation.print_error, Validation.field_of.
    rewrite Hpath. reflexivity.
  - intros path key Hpath Hkey. unfold Validation.print_error, Validation.field_of.
    rewrite Hpath, split_last_snoc.
    assert (Validation.key_truthy key = false) as -> by (destruct Hkey as [->| ->]; reflexivity).
    rewrite andb_false_r. reflexivity.
Qed.

(** ** The retry budget ([core/task.py], [run]) *)

Section RetryBudget.

Context {E : Type} (wall_clock perf_counter : E -> Z).
Context (st : Task.Settings) (cfg : Task.config)
        (inp : Pipeline.input_module E) (fl : Pipeline.flow E).

Abbreviation worker := (Pipeline.worker E wall_clock perf_counter st cfg inp fl).
Abbreviation run := (Pipeline.run E wall_clock st cfg inp fl).

(** [run] asks for a retry only while the budget allows one more, and
    lets another exception than a [TaskPredicate] out only when it does
    not. *)
Lemma run_outcomes (retries : Z) (w w' : Pipeline.world E) (o : Pipeline.run_outcome) :
  run retries w = (w', o) ->
  match o with
  | Pipeline.Returns _ => True
  | Pipeline.Retries e =>
      retries + 1 <= Task.max_retries cfg /\ Py.is_task_predicate e = false
  | Pipeline.Raises e =>
      Py.is_task_predicate e = true \/
      (Py.is_task_predicate e = false /\ Task.max_retries cfg < retries + 1)
  end.
Proof.
  unfold Pipeline.run.
  destruct (Pipeline.streamlet_exec E wall_clock st cfg inp fl w) as [w1 [e|code]].
  - destruct (Py.is_task_predicate e) eqn:He.
    + intros [= <- <-]. left. exact He.
    + unfold Pipeline.retry.
      destruct (Z.ltb_spec (Task.max_retries cfg) (retries + 1)) as [Hlt|Hge];
        intros [= <- <-]; auto.
  - intros [= <- <-]. exact I.
Qed.

(** The attempts of a request that starts with [retries] retries behind
    it. *)
Lemma worker_budget (n : nat) :
  forall retries w,
    (Z.to_nat (Task.max_retries cfg + 1 - retries) <= n)%nat ->
    Z.of_nat (Pipeline.invocations (snd (fst (worker retries w))))
    <= 1 + Z.max 0 (Task.max_retries cfg - retries) /\
    (forall e name elapsed,
        snd (worker retries w) = Pipeline.FAILED e name elapsed ->
        e = Py.TaskPredicate \/
        (Py.is_task_predicate e = false /\
         Z.of_nat (Pipeline.invocations (snd (fst (worker retries w))))
         = 1 + Z.max 0 (Task.max_retries cfg - retries))).
Proof.
  assert (forall retries w,
             (forall w1 e, run retries (fst (Pipeline.before_start E perf_counter w))
                           = (w1, Pipeline.Retries e) ->
                           retries + 1 <= Task.max_retries cfg ->
                           Z.of_nat (Pipeline.invocations (snd (fst (worker (retries + 1) w1))))
                           <= 1 + Z.max 0 (Task.max_retries cfg - (retries + 1)) /\
                           (forall e' name elapsed,
                               snd (worker (retries + 1) w1) = Pipeline.FAILED e' name elapsed ->
                               e' = Py.TaskPredicate \/
                               (Py.is_task_predicate e' = false /\
                                Z.of_nat (Pipeline.invocations
                                            (snd (fst (worker (retries + 1) w1))))
                                = 1 + Z.max 0 (Task.max_retries cfg - (retries + 1))))) ->
             Z.of_nat (Pipeline.invocations (snd (fst (worker retries w))))
             <= 1 + Z.max 0 (Task.max_retries cfg - retries) /\
             (forall e name elapsed,
                 snd (worker retries w) = Pipeline.FAILED e name elapsed ->
                 e = Py.TaskPredicate \/
                 (Py.is_task_predicate e = false /\
                  Z.of_nat (Pipeline.invocations (snd (fst (worker retries w))))
                  = 1 + Z.max 0 (Task.max_retries cfg - retries)))) as Hstep.
  { intros retries w Hrec. rewrite worker_unfold.
    destruct (run retries (fst (Pipeline.before_start E perf_counter w))) as [w1 o] eqn:Erun.
    pose proof (run_outcomes _ _ _ _ Erun) as Ho.
    destruct o as [code|e|e]; cbv zeta.
    - cbn. split; [lia|discriminate].
    - destruct Ho as [Hp|[Hp Hlt]].
      + destruct e; try discriminate; cbn; (split; [lia|]); try discriminate.
        intros e' nm el [= <- _ _]. left. reflexivity.
      + assert (Z.max 0 (Task.max_retries cfg - retries) = 0) as -> by lia.
        destruct e; try discriminate; cbn; (split; [lia|]);
          intros e' nm el [= <- _ _]; right; split; (reflexivity || lia).
    - destruct Ho as [Hle Hne].
      destruct (Hrec w1 e eq_refl Hle) as [Hbound Hfailed].
      destruct (worker (retries + 1) w1) as [[w2 log] fin]. cbn [fst snd] in *.
      unfold Pipeline.invocations in *. cbn [List.filter length] in *. split.
      + lia.
      + intros e' name elapsed Hfin. destruct (Hfailed _ _ _ Hfin) as [->|[Hne' Heq]].
        * left. reflexivity.
        * right. split; [exact Hne'|lia]. }
  induction n as [|n IH]; intros retries w Hn; apply Hstep; intros w1 e _ Hle.
  - lia.
  - apply IH. lia.
Qed.

End RetryBudget.


(** ** The [env] section of a flow ([core/helpers.py], [load_env_pairs]) *)

Section EnvPairs.

Lemma load_env_pairs_other (items : list (string * string)) :
  forall env k,
    ~ In k (map fst items) -> Environ.load_env_pairs items env !! k = env !! k.
Proof.
  unfold Environ.load_env_pairs.
  induction items as [|[k0 v0] items IH]; intros env k Hk; cbn [fold_left fst snd].
  - reflexivity.
  - cbn [map fst In] in Hk. rewrite IH by tauto.
    apply lookup_insert_ne. intros <-. tauto.
Qed.

Lemma load_env_pairs_item (items : list (string * string)) :
  forall env k v,
    List.NoDup (map fst items) -> In (k, v) items ->
    Environ.load_env_pairs items env !! k = Some v.
Proof.
  induction items as [|[k0 v0] items IH]; intros env k v Hnd Hin; [destruct Hin|].
  cbn [map fst] in Hnd. apply List.NoDup_cons_iff in Hnd as [Hnotin Hnd].
  destruct Hin as [[= -> ->]|Hin].
  - change (Environ.load_env_pairs ((k, v) :: items) env)
      with (Environ.load_env_pairs items (<[k := v]> env)).
    rewrite load_env_pairs_other by exact Hnotin. apply lookup_insert_eq.
  - apply (IH (<[k0 := v0]> env) k v Hnd Hin).
Qed.

Lemma find_closing (name rest : string) :
  Str.mem "}" name = false ->
  Str.find "}" (name ++ String "}" rest) = Some (String.length name).
Proof.
  induction name as [|c name IH]; [reflexivity|].
  cbn [Str.mem]. intros H. apply orb_false_iff in H as [Hc Hname].
  rewrite string_app_cons. cbn [Str.find String.length].
  rewrite Ascii.eqb_sym in Hc. rewrite Hc, (IH Hname). reflexivity.
Qed.

(** [${NAME}] is replaced by the value of a name that is set. *)
Lemma expandvars_braced (os : Os.t) (name rest value : string) :
  Str.mem "}" name = false ->
  Os.environ os !! name = Some value ->
  Os.expandvars os (String "$" (String "{" (name ++ String "}" rest)))
  = (value ++ Os.expandvars os rest)%string.
Proof.
  intros Hname Henv. unfold Os.expandvars.
  cbn [Os.expandvars_go]. change (Ascii.eqb "$" "$") with true. cbv iota.
  unfold Os.parse_var. rewrite (find_closing name rest Hname), take_app, Henv.
  f_equal.
  replace (String.length name + 2)%nat with (S (String.length (name ++ "}"))).
  - cbn [Os.expandvars_go].
    replace (name ++ String "}" rest)%string with ((name ++ "}") ++ rest)%string
      by (rewrite string_app_assoc; reflexivity).
    apply expandvars_skip.
  - rewrite length_app. cbn [String.length]. lia.
Qed.

End EnvPairs.

(** X21.  The [env] section of a flow wins over the environment of the
    process: after [load_env_pairs] a name of the section has the value of
    the section and every other variable is as before, so [EnvironmentVar]
    expands ["${NAME}"] to the section's value (here one without further
    references), whatever the process had under that name. *)
Theorem flow_environment_wins (items : list (string * string)) (os : Os.t)
    (name v : string) :
  List.NoDup (map fst items) ->
  In (name, v) items ->
  Environ.load_env_pairs items (Os.environ os) !! name = Some v /\
  (forall k, ~ In k (map fst items) ->
             Environ.load_env_pairs items (Os.environ os) !! k = Os.environ os !! k) /\
  (forall (A : Type) (schema : string -> Py.result A) depth,
      Str.mem "}" name = false -> Str.mem "$" v = false ->
      Str.first v <> Some "~"%char -> 1 <= depth ->
      Validators.EnvironmentVar schema depth (Environ.loaded items os)
        (Validators.Text (String "$" (String "{" (name ++ "}")))) None
      = schema v).
Proof.
  intros Hnd Hin.
  pose proof (load_env_pairs_item items (Os.environ os) name v Hnd Hin) as Hv.
  split; [exact Hv|]. split; [intros k Hk; apply load_env_pairs_other; exact Hk|].
  intros A schema depth Hname Hdollar Htilde Hdepth.
  unfold Validators.EnvironmentVar. cbn [Validators.py_str].
  assert (Validators.pass (Environ.loaded items os) (String "$" (String "{" (name ++ "}")))
          = v) as Hpass.
  { unfold Validators.pass.
    rewrite (expandvars_braced (Environ.loaded items os) name EmptyString v Hname Hv).
    change (Os.expandvars (Environ.loaded items os) EmptyString) with EmptyString.
    rewrite string_app_nil. apply expanduser_plain. exact Htilde. }
  rewrite expand_unfold. destruct (Z.ltb_spec depth 0); [lia|]. rewrite Hpass.
  assert (String.eqb v (String "$" (String "{" (name ++ "}"))) = false) as ->.
  { apply String.eqb_neq. intros ->. discriminate. }
  rewrite expand_unfold. destruct (Z.ltb_spec (depth - 1) 0); [lia|].
  unfold Validators.pass, Os.expandvars.
  rewrite expandvars_plain by exact Hdollar.
  rewrite expanduser_plain by exact Htilde.
  rewrite String.eqb_refl. reflexivity.
Qed.

Lemma flow_environment_wins_witness :
  Validators.EnvironmentVar Examples.as_str 16
    (Environ.loaded [("NAME", "flow")] Examples.os_home) (Validators.Text "${NAME}") None
  = Py.ok "flow".
Proof.
  refine (proj2 (proj2 (flow_environment_wins [("NAME", "flow")] Examples.os_home
                          "NAME" "flow" _ _)) string Examples.as_str 16 _ _ _ _).
  - repeat constructor. simpl. tauto.
  - left. reflexivity.
  - reflexivity.
  - reflexivity.
  - discriminate.
  - lia.
Defined.

(** ** Filters without wild cards ([core/abstract.py], [accepts_from]) *)

Section PlainPatterns.

(** The characters of a text are made of its bytes. *)
Lemma chars_all (P : ascii -> bool) (s : string) :
  Str.all P s = true -> Forall (fun p => Str.all P p = true) (Str.chars s).
Proof.
  induction s as [|c s IH]; cbn [Str.all Str.chars]; [constructor|].
  intros H. apply andb_true_iff in H as [Hc Hs]. specialize (IH Hs).
  destruct (Str.chars s) as [|p rest].
  - constructor; [|constructor]. cbn [Str.all]. rewrite Hc. reflexivity.
  - apply Forall_cons in IH as [Hp Hrest].
    destruct (Str.continues p); constructor; try assumption.
    + cbn [Str.all]. rewrite Hc, Hp. reflexivity.
    + cbn [Str.all]. rewrite Hc. reflexivity.
    + constructor; assumption.
Qed.

(** A text is its characters, one after the other. *)
Lemma chars_concat (s : string) : String.concat EmptyString (Str.chars s) = s.
Proof.
  assert (forall l, String.concat EmptyString l
                    = fold_right String.append EmptyString l) as Hc.
  { induction l as [|p [|q l] IH]; [reflexivity| |].
    - cbn. rewrite string_app_nil. reflexivity.
    - change (String.concat EmptyString (p :: q :: l))
        with (p ++ EmptyString ++ String.concat EmptyString (q :: l))%string.
      rewrite IH. reflexivity. }
  rewrite Hc. induction s as [|c s IH]; [reflexivity|].
  cbn [Str.chars]. destruct (Str.chars s) as [|p rest]; cbn [fold_right] in *.
  - rewrite <- IH. reflexivity.
  - destruct (Str.continues p); cbn [fold_right]; rewrite ?string_app_cons, ?string_app_empty;
      rewrite IH; reflexivity.
Qed.

(** A pattern in which every character stands for itself. *)
Lemma translate_plain (pat : list Fnmatch.char) :
  Forall (fun p => Str.all Routes.plain_char p = true) pat ->
  Fnmatch.translate 0 pat = map Fnmatch.TLit pat.
Proof.
  induction 1 as [|p pat Hp _ IH]; [reflexivity|].
  cbn [Fnmatch.translate map].
  assert (forall q, Str.all Routes.plain_char q = false -> String.eqb p q = false) as Hne.
  { intros q Hq. apply String.eqb_neq. intros ->. congruence. }
  rewrite (Hne "*"), (Hne "?"), (Hne "["), IH by reflexivity. reflexivity.
Qed.

Lemma match_literals (pat : list Fnmatch.char) :
  forall name,
    Fnmatch.match_tokens (map Fnmatch.TLit pat) name = true <-> pat = name.
Proof.
  induction pat as [|c pat IH]; intros [|d name]; cbn [map Fnmatch.match_tokens];
    try (split; [discriminate|congruence]); [split; reflexivity|].
  rewrite andb_true_iff, IH, String.eqb_eq. split.
  - intros [-> ->]. reflexivity.
  - intros [= -> ->]. auto.
Qed.

Lemma fnmatch_plain (name pat : string) :
  Str.all Routes.plain_char pat = true -> Fnmatch.fnmatch name pat = String.eqb pat name.
Proof.
  intros H. unfold Fnmatch.fnmatch.
  rewrite translate_plain by (apply chars_all; exact H).
  destruct (String.eqb_spec pat name) as [->|Hne].
  - apply match_literals. reflexivity.
  - destruct (Fnmatch.match_tokens _ _) eqn:Hm; [|reflexivity].
    apply match_literals in Hm. exfalso. apply Hne.
    rewrite <- (chars_concat pat), <- (chars_concat name), Hm. reflexivity.
Qed.

Lemma any_match_plain (name : string) (fi : list string) :
  Forall (fun p => Str.all Routes.plain_char p = true) fi ->
  Routing.any_match name fi = existsb (fun p => String.eqb p name) fi.
Proof.
  unfold Routing.any_match. induction 1 as [|p fi Hp _ IH]; [reflexivity|].
  cbn [existsb]. rewrite (fnmatch_plain name p Hp), IH. reflexivity.
Qed.

End PlainPatterns.

(** X22.  Filters without wild cards are lists of exact names: when no
    pattern of a module has a ["*"], a ["?"] or a ["["], the module accepts
    an Input and a task exactly when it is enabled (or enablement is
    ignored), the Input is one of [include_inputs] and none of
    [exclude_inputs], and the task is one of [include_tasks] and none of
    [exclude_tasks], each filter counting only when it is set; names are
    compared as they are, capitals included. *)
Theorem plain_filters_are_exact (d : bool) (m : Routing.processor)
    (input_name task_name : string) (ig : bool) :
  Forall (fun p => Str.all Routes.plain_char p = true)
         (Routes.filters_or_empty (Routing.include_inputs m)
          ++ Routes.filters_or_empty (Routing.exclude_inputs m)
          ++ Routes.filters_or_empty (Routing.include_tasks m)
          ++ Routes.filters_or_empty (Routing.exclude_tasks m)) ->
  let among name f :=
    match f with
    | Some names => existsb (fun p => String.eqb p name) names
    | None => true
    end in
  let none_of name f :=
    match f with
    | Some names => negb (existsb (fun p => String.eqb p name) names)
    | None => true
    end in
  Routing.accepts_from d m input_name task_name ig
  = (Routing.enabled d m || ig)
    && among input_name (Routing.include_inputs m)
    && none_of input_name (Routing.exclude_inputs m)
    && among task_name (Routing.include_tasks m)
    && none_of task_name (Routing.exclude_tasks m).
Proof.
  intros H among none_of. subst among none_of.
  apply Forall_app in H as [H1 H]. apply Forall_app in H as [H2 H].
  apply Forall_app in H as [H3 H4].
  unfold Routing.accepts_from.
  destruct (Routing.include_inputs m) as [f1|], (Routing.exclude_inputs m) as [f2|],
           (Routing.include_tasks m) as [f3|], (Routing.exclude_tasks m) as [f4|];
    cbn [Routes.filters_or_empty] in *;
    repeat match goal with
           | Hf : Forall _ ?f |- context [Routing.any_match ?n ?f] =>
               rewrite (any_match_plain n f Hf)
           end;
    destruct (Routing.enabled d m), ig; cbn [negb andb orb];
    repeat match goal with
           | |- context [existsb ?f ?l] => destruct (existsb f l); cbn [negb andb orb]
           end; reflexivity.
Qed.

Lemma plain_filters_are_exact_witness :
  Routing.accepts_from false
    {| Routing.kind := Routing.Transform; Routing.config_enabled := true;
       Routing.include_inputs := None; Routing.exclude_inputs := Some ["http"];
       Routing.include_tasks := Some ["load"; "disk"]; Routing.exclude_tasks := None |}
    "postgres" "Disk" false
  = false.
Proof.
  refine (eq_trans
            (plain_filters_are_exact false
               {| Routing.kind := Routing.Transform; Routing.config_enabled := true;
                  Routing.include_inputs := None; Routing.exclude_inputs := Some ["http"];
                  Routing.include_tasks := Some ["load"; "disk"];
                  Routing.exclude_tasks := None |}
               "postgres" "Disk" false _) _).
  - repeat constructor.
  - reflexivity.
Defined.
